(** * osu-json-parser: a shallow embedding of [src/OsuParser.ts]

    The parser reads a beatmap one line at a time.  [OsuParser.parse]
    either switches the current section or hands the line to the
    decoder of the current section, which updates the document held by
    the parser object.

    The embedding follows the TypeScript source function by function.
    The parts of the JavaScript runtime the source relies on (strings,
    [Number], bit operations, property lookup on the enum objects) are
    modelled in [Module JS].  A decoder takes the line and the parser
    and returns the parser it leaves behind, or the error it throws;
    the source changes the parser only in the last statement of a
    decoder, so a throw leaves it as it was.

    The file has the runtime first, then the data model and the
    decoders, then the vocabulary of the properties, and then the
    properties, decoder by decoder. *)

From Stdlib Require Import ZArith QArith Qround Qabs Qminmax Qpower Lqa.
From Stdlib Require Qcanon.
From Stdlib Require Import Ascii String List Bool Lia.
Import ListNotations.

Local Open Scope string_scope.
Local Open Scope list_scope.
Local Open Scope Z_scope.

(* ================================================================== *)
(** * The JavaScript runtime used by the parser *)
(* ================================================================== *)

Module JS.

(** ** Strings

    A JavaScript string is modelled as a Rocq [string]: a sequence of
    code units, restricted to the code units below 256. *)

Definition code (c : ascii) : Z := Z.of_nat (nat_of_ascii c).

(** [WhiteSpace] and [LineTerminator] code units below 256: TAB, LF, VT,
    FF, CR, SP and NBSP.  [String.prototype.trim] and [Number] strip
    exactly these. *)
Definition is_white (c : ascii) : bool :=
  let n := code c in
  ((9 <=? n) && (n <=? 13)) || (n =? 32) || (n =? 160).

Fixpoint trimStart (s : string) : string :=
  match s with
  | String c r => if is_white c then trimStart r else s
  | EmptyString => EmptyString
  end.

(** Drops the trailing white space: a character is kept when it is not
    white or when something is kept after it. *)
Fixpoint trimEnd (s : string) : string :=
  match s with
  | EmptyString => EmptyString
  | String c r =>
      match trimEnd r with
      | EmptyString => if is_white c then EmptyString else String c EmptyString
      | r' => String c r'
      end
  end.

(** [s.trim()] *)
Definition trim (s : string) : string := trimEnd (trimStart s).

(** [s.split(sep)] for a one-character separator: never empty, the
    pieces between the separators in order. *)
Fixpoint split (sep : ascii) (s : string) : list string :=
  match s with
  | EmptyString => [EmptyString]
  | String c r =>
      if Ascii.eqb c sep then EmptyString :: split sep r
      else match split sep r with
           | p :: ps => String c p :: ps
           | [] => [String c EmptyString]
           end
  end.

(** [line.split(sep).map((str) => str.trim())], the idiom every decoder
    starts with. *)
Definition split_trim (sep : ascii) (s : string) : list string :=
  map trim (split sep s).

(** [s.startsWith(p)] *)
Definition startsWith (p s : string) : bool := String.prefix p s.

(** [s[0]]: the first code unit, [undefined] on the empty string. *)
Definition first_char (s : string) : option ascii :=
  match s with
  | String c _ => Some c
  | EmptyString => None
  end.

(** [s.toLowerCase()].  The source applies it to the member names of
    [LegacySampleBank] only, so the ASCII letters are all it meets. *)
Definition lower_char (c : ascii) : ascii :=
  let n := code c in
  if (65 <=? n) && (n <=? 90) then ascii_of_nat (nat_of_ascii c + 32) else c.

Fixpoint toLowerCase (s : string) : string :=
  match s with
  | EmptyString => EmptyString
  | String c r => String (lower_char c) (toLowerCase r)
  end.

(** ** Numbers

    A JavaScript number is [NaN], an infinity or a finite value.  Finite
    values are kept as exact rationals in lowest terms: the rounding of
    IEEE-754 doubles is not modelled, so that a literal keeps all its
    digits, a sum, a product or a quotient is exact, and no finite
    result overflows to an infinity or underflows to zero.  The sign of
    zero is not modelled either (the parser never divides by a zero it
    has read, and never prints one).  Every operation returns its
    finite results reduced by [Qred], so that equal numbers are equal
    terms.

    The properties below are stated with this in mind.  Where they
    give the value of a number they either name it by the operation
    that computes it ([JS.add], [JS.div], the test [JS.ltb] of a loop),
    or they are about integers and differences that doubles represent
    exactly. *)

Inductive num : Type :=
| NaN
| PInf
| NInf
| Fin (q : Q).

Definition fin (q : Q) : num := Fin (Qred q).
Definition of_Z (z : Z) : num := Fin (inject_Z z).
Definition of_nat (n : nat) : num := of_Z (Z.of_nat n).

Definition Qsgn (q : Q) : Z := Z.sgn (Qnum q).

(** [-a] *)
Definition neg (a : num) : num :=
  match a with
  | NaN => NaN
  | PInf => NInf
  | NInf => PInf
  | Fin q => fin (- q)
  end.

(** [a + b] *)
Definition add (a b : num) : num :=
  match a, b with
  | NaN, _ | _, NaN => NaN
  | PInf, NInf | NInf, PInf => NaN
  | PInf, _ | _, PInf => PInf
  | NInf, _ | _, NInf => NInf
  | Fin x, Fin y => fin (x + y)
  end.

(** [a - b] *)
Definition sub (a b : num) : num := add a (neg b).

Definition inf_of_sign (s : Z) : num :=
  if s =? 0 then NaN else if 0 <? s then PInf else NInf.

(** [a * b] *)
Definition mul (a b : num) : num :=
  match a, b with
  | NaN, _ | _, NaN => NaN
  | Fin x, Fin y => fin (x * y)
  | Fin x, PInf | PInf, Fin x => inf_of_sign (Qsgn x)
  | Fin x, NInf | NInf, Fin x => inf_of_sign (- Qsgn x)
  | PInf, PInf | NInf, NInf => PInf
  | PInf, NInf | NInf, PInf => NInf
  end.

(** [a / b].  The one division of the source, [100.0 / -beatLength],
    runs under [beatLength < 0]; a zero divisor is given the result of
    dividing by [+0]. *)
Definition div (a b : num) : num :=
  match a, b with
  | NaN, _ | _, NaN => NaN
  | Fin x, Fin y =>
      if Qeq_bool y 0 then inf_of_sign (Qsgn x) else fin (x / y)
  | Fin _, (PInf | NInf) => Fin 0
  | PInf, Fin y => if Qle_bool 0 y then PInf else NInf
  | NInf, Fin y => if Qle_bool 0 y then NInf else PInf
  | (PInf | NInf), (PInf | NInf) => NaN
  end.

(** [a <= b]; every comparison with [NaN] is false. *)
Definition leb (a b : num) : bool :=
  match a, b with
  | NaN, _ | _, NaN => false
  | NInf, _ | _, PInf => true
  | _, NInf | PInf, _ => false
  | Fin x, Fin y => Qle_bool x y
  end.

(** [a < b] *)
Definition ltb (a b : num) : bool :=
  match a, b with
  | NaN, _ | _, NaN => false
  | PInf, _ | _, NInf => false
  | NInf, _ | _, PInf => true
  | Fin x, Fin y => negb (Qle_bool y x)
  end.

(** [a > b] *)
Definition gtb (a b : num) : bool := ltb b a.

(** [Math.abs(a)] *)
Definition abs (a : num) : num :=
  match a with
  | NaN => NaN
  | PInf | NInf => PInf
  | Fin q => fin (Qabs q)
  end.

(** [Math.max(a, b)]: [NaN] as soon as an argument is [NaN]. *)
Definition max (a b : num) : num :=
  match a, b with
  | NaN, _ | _, NaN => NaN
  | _, _ => if leb a b then b else a
  end.

(** [Number.isNaN(a)] *)
Definition isNaN (a : num) : bool :=
  match a with NaN => true | _ => false end.

(** [ToInt32], the conversion applied to the operands of [&], [~] and
    [>>]: not-a-number and the infinities give 0, a finite value is
    truncated toward zero and wrapped into the signed 32-bit range. *)
Definition wrap32 (z : Z) : Z := (z + 2 ^ 31) mod 2 ^ 32 - 2 ^ 31.

Definition ToInt32 (a : num) : Z :=
  match a with
  | Fin q => wrap32 (Z.quot (Qnum q) (Zpos (Qden q)))
  | _ => 0
  end.

(** The bit operations of the source, [&], [~] and [>>], work on such
    integers, here with [Z.land], [Z.lnot] and [Z.shiftr]; on the
    operands they meet in the source these stay within 32 bits.

    [Boolean(n)] and the truth value of an integer in a condition: *)
Definition truthy (z : Z) : bool := negb (z =? 0).

(** ** [Number(string)]

    The [StringNumericLiteral] grammar: optional white space around an
    optionally signed decimal literal (digits, fraction, exponent, or
    [Infinity]) or an unsigned [0x], [0o] or [0b] integer literal.  The
    empty string is 0, everything else is [NaN]. *)

Definition digit_in (lo hi off : Z) (c : ascii) : option Z :=
  let n := code c in
  if (lo <=? n) && (n <=? hi) then Some (n - off) else None.

Definition dec_digit : ascii -> option Z := digit_in 48 57 48.
Definition oct_digit : ascii -> option Z := digit_in 48 55 48.
Definition bin_digit : ascii -> option Z := digit_in 48 49 48.

Definition hex_digit (c : ascii) : option Z :=
  match dec_digit c, digit_in 97 102 87 c with
  | Some d, _ => Some d
  | None, Some d => Some d
  | None, None => digit_in 65 70 55 c
  end.

(** Reads the longest run of digits at the head of [s]: its value on top
    of [acc], the number of digits read on top of [n], and what is
    left. *)
Fixpoint digits (dig : ascii -> option Z) (base : Z) (s : string)
    (acc : Z) (n : nat) : Z * nat * string :=
  match s with
  | EmptyString => (acc, n, s)
  | String c r =>
      match dig c with
      | Some d => digits dig base r (base * acc + d) (S n)
      | None => (acc, n, s)
      end
  end.

(** The digits after [0x], [0o] or [0b]: at least one, and nothing
    after them. *)
Definition radix_literal (dig : ascii -> option Z) (base : Z) (s : string)
  : num :=
  match digits dig base s 0 0 with
  | (v, S _, EmptyString) => of_Z v
  | _ => NaN
  end.

(** An optional [ExponentPart] that ends the literal. *)
Definition exponent (s : string) : option Z :=
  match s with
  | EmptyString => Some 0
  | String c r =>
      if (Ascii.eqb c "e" || Ascii.eqb c "E")%bool then
        let '(sign, r') :=
          match r with
          | String "+"%char t => (1, t)
          | String "-"%char t => (-1, t)
          | _ => (1, r)
          end in
        match digits dec_digit 10 r' 0 0 with
        | (v, S _, EmptyString) => Some (sign * v)
        | _ => None
        end
      else None
  end.

(** [StrUnsignedDecimalLiteral] *)
Definition unsigned_decimal (s : string) : num :=
  if String.eqb s "Infinity" then PInf
  else
    let '(ip, n1, r1) := digits dec_digit 10 s 0 0 in
    let '(fp, n2, r2) :=
      match r1 with
      | String "."%char t => digits dec_digit 10 t 0 0
      | _ => (0, O, r1)
      end in
    match (n1 + n2)%nat, exponent r2 with
    | S _, Some e =>
        fin (inject_Z (ip * 10 ^ Z.of_nat n2 + fp)
             * Qpower (inject_Z 10) (e - Z.of_nat n2))
    | _, _ => NaN
    end.

Definition Number (s : string) : num :=
  match trim s with
  | EmptyString => Fin 0
  | String "0"%char (String ("x" | "X")%char r) => radix_literal hex_digit 16 r
  | String "0"%char (String ("o" | "O")%char r) => radix_literal oct_digit 8 r
  | String "0"%char (String ("b" | "B")%char r) => radix_literal bin_digit 2 r
  | String "+"%char r => unsigned_decimal r
  | String "-"%char r => neg (unsigned_decimal r)
  | t => unsigned_decimal t
  end.

(** [Number(a[i])] for an array element that may be [undefined]:
    [Number(undefined)] is [NaN]. *)
Definition Number_of (o : option string) : num :=
  match o with
  | Some s => Number s
  | None => NaN
  end.

(** The integer a number is, if it is one. *)
Definition as_integer (a : num) : option Z :=
  match a with
  | Fin q =>
      let r := Qred q in
      if (Zpos (Qden r) =? 1)%Z then Some (Qnum r) else None
  | _ => None
  end.

(** ** Values

    The values the parser stores in the document or meets in a property
    lookup: [undefined], numbers, strings, and the members every plain
    object inherits from [Object.prototype], named by their property
    name. *)

Inductive value : Type :=
| VUndefined
| VNumber (n : num)
| VString (s : string)
| VBuiltin (name : string).

(** The properties of [Object.prototype].  [__proto__] reads as the
    prototype object itself, the others are functions. *)
Definition object_prototype_members : list string :=
  [ "constructor"; "hasOwnProperty"; "isPrototypeOf";
    "propertyIsEnumerable"; "toLocaleString"; "toString"; "valueOf";
    "__defineGetter__"; "__defineSetter__"; "__lookupGetter__";
    "__lookupSetter__"; "__proto__" ].

Definition inherited (name : string) : bool :=
  existsb (String.eqb name) object_prototype_members.

(** Errors a run of the parser can end in: the [Error] thrown by the
    source itself, and the [TypeError] the runtime raises when the
    source calls something that is not a function or reads a property
    of [undefined]. *)
Inductive error : Type :=
| RepeatCountTooHigh
| TypeError.

(** [f(line)] where [f] was read from [Object.prototype] and [line] is
    a string.  The call passes no receiver: [Object], [toString] and
    [isPrototypeOf] return, the others convert the missing receiver to
    an object and raise, and [__proto__] is not a function. *)
Definition builtin_call_returns (name : string) : bool :=
  existsb (String.eqb name) ["constructor"; "toString"; "isPrototypeOf"].

(** ** Objects used as maps

    The own properties of an object as an association list, a new key
    going last.  The list is read by key only: the order in which
    JavaScript enumerates the keys (integer-like keys first) is not
    modelled, and nothing below depends on it.  Assigning a primitive
    value to [__proto__] changes nothing. *)
Section Objects.
Context {V : Type}.

Fixpoint obj_get (key : string) (o : list (string * V)) : option V :=
  match o with
  | [] => None
  | (k, v) :: r => if String.eqb k key then Some v else obj_get key r
  end.

Fixpoint obj_put (key : string) (v : V) (o : list (string * V))
  : list (string * V) :=
  match o with
  | [] => [(key, v)]
  | (k, w) :: r =>
      if String.eqb k key then (k, v) :: r else (k, w) :: obj_put key v r
  end.

(** [o[key] = v] for a primitive [v] *)
Definition obj_set (key : string) (v : V) (o : list (string * V))
  : list (string * V) :=
  if String.eqb key "__proto__" then o else obj_put key v o.
End Objects.

End JS.

(* ================================================================== *)
(** * The data model of [OsuParser.ts] *)
(* ================================================================== *)

(** An optional property of an interface is an [option]; a property
    that holds [undefined] is not told apart from a missing one. *)

Module IVector2D.
Record t : Type := mk { x : JS.num; y : JS.num }.
End IVector2D.

Module ITimingPoint.
Record t : Type := mk {
  Time : JS.num;
  BeatLength : option JS.num;
  TimeSignature : option JS.num;
  SpeedMultiplier : JS.num;
  KiaiMode : bool;
  OmitFirstBarLine : bool;
  SampleBank : string;
  SampleVolume : JS.num;
  CustomSampleBank : JS.num
}.
End ITimingPoint.

Module ISampleBankInfo.
Record t : Type := mk {
  Filename : option string;
  Normal : option string;
  Add : option string;
  Volume : option JS.num;
  CustomSampleBank : option JS.num
}.
(** [{}] *)
Definition empty : t := mk None None None None None.
End ISampleBankInfo.

Module ISampleInfo.
Record t : Type := mk {
  Filename : option string;
  Bank : option string;
  Name : option string;
  Volume : option JS.num;
  CustomSampleBank : option JS.num
}.
End ISampleInfo.

Inductive PathType : Type :=
| Catmull
| Bezier
| Linear
| PerfectCurve.

Module IHitObject.
Record t : Type := mk {
  Combo : option bool;
  ComboOffset : option JS.num;
  Points : option (list IVector2D.t);
  Length : option JS.num;
  PathType : option PathType;
  RepeatCount : option JS.num;
  NodeSamples : option (list (list ISampleInfo.t));
  Samples : option (list ISampleInfo.t);
  StartTime : option JS.num;
  Pos : option IVector2D.t
}.
(** [{}] *)
Definition empty : t :=
  mk None None None None None None None None None None.
(** [Object.keys(h).length === 0].  Whenever the source attaches
    anything to a hit object it attaches [Pos], which is never
    [undefined]. *)
Definition no_keys (h : t) : bool :=
  match Pos h, Combo h, ComboOffset h, Points h, Length h with
  | None, None, None, None, None =>
      match PathType h, RepeatCount h, NodeSamples h, Samples h,
            StartTime h with
      | None, None, None, None, None => true
      | _, _, _, _, _ => false
      end
  | _, _, _, _, _ => false
  end.
End IHitObject.

(** [enum TimeSignatures], [enum EffectFlags], [enum
    ConvertHitObjectType] and [enum LegacySoundType]: the members the
    source uses, as the integers they are. *)
Module TimeSignatures.
Definition SimpleQuadruple : Z := 4.
Definition SimpleTriple : Z := 3.
End TimeSignatures.

Module EffectFlags.
Definition Kiai : Z := 1.
Definition OmitFirstBarLine : Z := 8.
End EffectFlags.

Module ConvertHitObjectType.
Definition Circle : Z := Z.shiftl 1 0.
Definition Slider : Z := Z.shiftl 1 1.
Definition NewCombo : Z := Z.shiftl 1 2.
Definition Spinner : Z := Z.shiftl 1 3.
Definition ComboOffset : Z :=
  Z.lor (Z.lor (Z.shiftl 1 4) (Z.shiftl 1 5)) (Z.shiftl 1 6).
Definition Hold : Z := Z.shiftl 1 7.
End ConvertHitObjectType.

Module LegacySoundType.
Definition Normal : Z := 1.
Definition Whistle : Z := 2.
Definition Finish : Z := 4.
Definition Clap : Z := 8.
End LegacySoundType.

(** [enum LegacySampleBank] compiles to an object that maps each member
    name to its number and each number back to its name.  The source
    reads it by property lookup, [LegacySampleBank[k]], with [k] a
    number or a string; like any object it also answers to the members
    of [Object.prototype]. *)
Module LegacySampleBank.
Definition None : Z := 0.
Definition Normal : Z := 1.
Definition Soft : Z := 2.
Definition Drum : Z := 3.

Definition members : list (string * Z) :=
  [("None", None); ("Normal", Normal); ("Soft", Soft); ("Drum", Drum)].

Definition name_of (z : Z) : option string :=
  option_map fst (find (fun m => snd m =? z) members).

Definition number_of (s : string) : option Z :=
  option_map snd (find (fun m => String.eqb (fst m) s) members).

(** The reverse entries are keyed by ["0"] to ["3"]. *)
Definition reverse_key (s : string) : option Z :=
  match s with
  | String c EmptyString => JS.digit_in 48 51 48 c
  | _ => Datatypes.None
  end.

(** [LegacySampleBank[k]] *)
Definition get (k : JS.value) : JS.value :=
  match k with
  | JS.VNumber n =>
      match JS.as_integer n with
      | Some z =>
          match name_of z with
          | Some s => JS.VString s
          | Datatypes.None => JS.VUndefined
          end
      | Datatypes.None => JS.VUndefined
      end
  | JS.VString s =>
      match number_of s, reverse_key s with
      | Some z, _ => JS.VNumber (JS.of_Z z)
      | Datatypes.None, Some z =>
          match name_of z with
          | Some nm => JS.VString nm
          | Datatypes.None => JS.VUndefined
          end
      | Datatypes.None, Datatypes.None =>
          if JS.inherited s then JS.VBuiltin s else JS.VUndefined
      end
  | JS.VUndefined | JS.VBuiltin _ => JS.VUndefined
  end.
End LegacySampleBank.

(** The parser object: the current section and the document. *)
Record OsuParser : Type := mkOsuParser {
  currentSection : string;
  general : list (string * JS.value);
  difficulty : list (string * JS.num);
  timingPoints : list ITimingPoint.t;
  hitObjects : list IHitObject.t
}.

(** [new OsuParser()] *)
Definition constructor : OsuParser :=
  {| currentSection := EmptyString;
     general :=
       [ ("AudioFilename", JS.VString EmptyString);
         ("AudioLeadIn", JS.VNumber (JS.of_Z 0));
         ("Countdown", JS.VNumber (JS.of_Z 0));
         ("LetterboxInBreaks", JS.VNumber (JS.of_Z 0));
         ("Mode", JS.VNumber (JS.of_Z 0));
         ("PreviewTime", JS.VNumber (JS.of_Z 0));
         ("SampleSet", JS.VNumber (JS.of_Z LegacySampleBank.None));
         ("StackLeniency", JS.VNumber (JS.of_Z 0));
         ("WidescreenStoryboard", JS.VNumber (JS.of_Z 0)) ];
     difficulty :=
       [ ("ApproachRate", JS.of_Z 0);
         ("CircleSize", JS.of_Z 0);
         ("HPDrainRate", JS.of_Z 0);
         ("OverallDifficulty", JS.of_Z 0) ];
     timingPoints := [];
     hitObjects := [] |}.

(** ** How a call ends

    A call returns, or throws.  [OutOfFuel] is not an outcome of the
    program: it is what the embedding answers if the bound it puts on
    the iterations of a [for] loop is reached, and [parse_total] shows
    that this never happens. *)
Inductive outcome (A : Type) : Type :=
| Ok (a : A)
| Throw (e : JS.error)
| OutOfFuel.

Arguments Ok {A} a.
Arguments Throw {A} e.
Arguments OutOfFuel {A}.

Definition bind {A B : Type} (m : outcome A) (k : A -> outcome B)
  : outcome B :=
  match m with
  | Ok a => k a
  | Throw e => Throw e
  | OutOfFuel => OutOfFuel
  end.

Notation "x <- m ;; k" := (bind m (fun x => k))
  (at level 61, m at next level, right associativity).

(** [LegacySampleBank[k].toLowerCase()]: a [TypeError] unless the
    lookup finds a string. *)
Definition bank_toLowerCase (k : JS.value) : outcome string :=
  match LegacySampleBank.get k with
  | JS.VString s => Ok (JS.toLowerCase s)
  | _ => Throw JS.TypeError
  end.

(* ================================================================== *)
(** * The decoders *)
(* ================================================================== *)

(** [a.length > k], for an array [a] *)
Definition longer_than {A : Type} (k : nat) (a : list A) : bool :=
  (k <? length a)%nat.

(** ** [readCustomSampleBanks(line, bankInfo)]

    The source updates [bankInfo] in place; the embedding returns the
    updated record.  Nothing is written before the two lookups have
    succeeded. *)
Definition readCustomSampleBanks (line : string) (bankInfo : ISampleBankInfo.t)
  : outcome ISampleBankInfo.t :=
  let split := JS.split_trim ":" line in
  let bank := JS.Number_of (nth_error split 0) in
  let addbank := JS.Number_of (nth_error split 1) in
  s <- bank_toLowerCase (JS.VNumber bank) ;;
  let stringBank := if String.eqb s "none" then None else Some s in
  a <- bank_toLowerCase (JS.VNumber addbank) ;;
  let stringAddBank := if String.eqb a "none" then None else Some a in
  Ok {| ISampleBankInfo.Normal := stringBank;
        ISampleBankInfo.Add :=
          match stringAddBank with
          | Some EmptyString => stringBank
          | _ => stringAddBank
          end;
        ISampleBankInfo.CustomSampleBank :=
          if longer_than 2 split then Some (JS.Number_of (nth_error split 2))
          else ISampleBankInfo.CustomSampleBank bankInfo;
        ISampleBankInfo.Volume :=
          if longer_than 3 split then Some (JS.Number_of (nth_error split 3))
          else ISampleBankInfo.Volume bankInfo;
        ISampleBankInfo.Filename :=
          if longer_than 4 split then nth_error split 4 else None |}.

(** ** [convertSoundType(type, bankInfo)] *)

(** The descriptor pushed for one of the additions. *)
Definition addition (name : string) (bankInfo : ISampleBankInfo.t)
  : ISampleInfo.t :=
  {| ISampleInfo.Filename := None;
     ISampleInfo.Bank := ISampleBankInfo.Add bankInfo;
     ISampleInfo.Name := Some name;
     ISampleInfo.Volume := ISampleBankInfo.Volume bankInfo;
     ISampleInfo.CustomSampleBank :=
       ISampleBankInfo.CustomSampleBank bankInfo |}.

(** [if (type & flag) { soundTypes.push(...) }] *)
Definition push_if (type : JS.num) (flag : Z) (d : ISampleInfo.t)
    (soundTypes : list ISampleInfo.t) : list ISampleInfo.t :=
  if JS.truthy (Z.land (JS.ToInt32 type) flag) then soundTypes ++ [d]
  else soundTypes.

Definition convertSoundType (type : JS.num) (bankInfo : ISampleBankInfo.t)
  : list ISampleInfo.t :=
  match ISampleBankInfo.Filename bankInfo with
  | Some (String c f) =>
      [ {| ISampleInfo.Filename := Some (String c f);
           ISampleInfo.Bank := None;
           ISampleInfo.Name := None;
           ISampleInfo.Volume := None;
           ISampleInfo.CustomSampleBank := None |} ]
  | _ =>
      let soundTypes :=
        [ {| ISampleInfo.Filename := None;
             ISampleInfo.Bank := ISampleBankInfo.Normal bankInfo;
             ISampleInfo.Name := Some "hitnormal";
             ISampleInfo.Volume := ISampleBankInfo.Volume bankInfo;
             ISampleInfo.CustomSampleBank :=
               ISampleBankInfo.CustomSampleBank bankInfo |} ] in
      let soundTypes :=
        push_if type LegacySoundType.Finish (addition "hitfinish" bankInfo)
          soundTypes in
      let soundTypes :=
        push_if type LegacySoundType.Whistle (addition "hitwhistle" bankInfo)
          soundTypes in
      push_if type LegacySoundType.Clap (addition "hitclap" bankInfo)
        soundTypes
  end.

(** ** [parseGeneral] and [parseDifficulty] *)

Definition parseGeneral (line : string) (parser : OsuParser)
  : outcome OsuParser :=
  match JS.split_trim ":" line with
  | [key; value] =>
      let num := JS.Number value in
      let stored :=
        if String.eqb key "SampleSet"
        then LegacySampleBank.get (JS.VString value)
        else if JS.isNaN num then JS.VString value else JS.VNumber num in
      Ok {| currentSection := currentSection parser;
            general := JS.obj_set key stored (general parser);
            difficulty := difficulty parser;
            timingPoints := timingPoints parser;
            hitObjects := hitObjects parser |}
  | _ => Ok parser
  end.

Definition parseDifficulty (line : string) (parser : OsuParser)
  : outcome OsuParser :=
  match JS.split_trim ":" line with
  | [key; value] =>
      Ok {| currentSection := currentSection parser;
            general := general parser;
            difficulty := JS.obj_set key (JS.Number value) (difficulty parser);
            timingPoints := timingPoints parser;
            hitObjects := hitObjects parser |}
  | _ => Ok parser
  end.

(** ** [parseTimingPoint] *)

(** [split[k][0] === c], for a field that is there *)
Definition first_is (c : ascii) (field : string) : bool :=
  match JS.first_char field with
  | Some d => Ascii.eqb d c
  | None => false
  end.

Definition parseTimingPoint (line : string) (parser : OsuParser)
  : outcome OsuParser :=
  let defaultSampleSet :=
    match JS.obj_get "SampleSet" (general parser) with
    | Some v => v
    | None => JS.VUndefined
    end in
  let split := JS.split_trim "," line in
  if (length split <? 2)%nat then Ok parser
  else
    let time := JS.Number_of (option_map JS.trim (nth_error split 0)) in
    let beatLength := JS.Number_of (option_map JS.trim (nth_error split 1)) in
    let speedMultiplier :=
      if JS.ltb beatLength (JS.of_Z 0)
      then JS.div (JS.of_Z 100) (JS.neg beatLength)
      else JS.of_Z 1 in
    let timeSignature :=
      match nth_error split 2 with
      | Some f =>
          if first_is "0" f then JS.of_Z TimeSignatures.SimpleQuadruple
          else JS.Number f
      | None => JS.of_Z TimeSignatures.SimpleQuadruple
      end in
    let sampleSet :=
      match nth_error split 3 with
      | Some f => JS.VNumber (JS.Number f)
      | None => defaultSampleSet
      end in
    let customSampleBank :=
      match nth_error split 4 with
      | Some f => JS.Number f
      | None => JS.of_Z 0
      end in
    let sampleVolume :=
      match nth_error split 5 with
      | Some f => JS.Number f
      | None => JS.of_Z 100
      end in
    let timingChange :=
      match nth_error split 6 with
      | Some f => first_is "1" f
      | None => true
      end in
    let '(kiaiMode, omitFirstBarSignature) :=
      match nth_error split 7 with
      | Some f =>
          let effectFlags := JS.ToInt32 (JS.Number f) in
          (JS.truthy (Z.land effectFlags EffectFlags.Kiai),
           JS.truthy (Z.land effectFlags EffectFlags.OmitFirstBarLine))
      | None => (false, false)
      end in
    s <- bank_toLowerCase sampleSet ;;
    let stringSampleSet := if String.eqb s "none" then "normal" else s in
    let timingPoint :=
      {| ITimingPoint.Time := time;
         ITimingPoint.SpeedMultiplier := speedMultiplier;
         ITimingPoint.KiaiMode := kiaiMode;
         ITimingPoint.OmitFirstBarLine := omitFirstBarSignature;
         ITimingPoint.SampleBank := stringSampleSet;
         ITimingPoint.SampleVolume := sampleVolume;
         ITimingPoint.CustomSampleBank := customSampleBank;
         ITimingPoint.BeatLength :=
           if timingChange then Some beatLength else None;
         ITimingPoint.TimeSignature :=
           if timingChange then Some timeSignature else None |} in
    Ok {| currentSection := currentSection parser;
          general := general parser;
          difficulty := difficulty parser;
          timingPoints := timingPoints parser ++ [timingPoint];
          hitObjects := hitObjects parser |}.

(** ** [parseHitObjects] *)

(** The indices a loop [for (let i = 0; i < nodes; i++)] runs through,
    counted up from [i].  The loop bodies of the source change neither
    [i] nor [nodes], so the indices do not depend on them.  [None] when
    [fuel] tests were not enough to leave the loop. *)
Fixpoint for_indices (fuel : nat) (i : nat) (nodes : JS.num)
  : option (list nat) :=
  match fuel with
  | O => None
  | S fuel' =>
      if JS.ltb (JS.of_nat i) nodes
      then option_map (cons i) (for_indices fuel' (S i) nodes)
      else Some []
  end.

(** The repeat count is checked against 9000 before any loop runs, so
    [nodes] is at most 9002 and the loops leave within 9003 tests. *)
Definition node_fuel : nat := Z.to_nat 9003.

(** [isLinear(p)] for [p = [p0, p1, p2]] *)
Definition isLinear (p0 p1 p2 : IVector2D.t) : bool :=
  let x := IVector2D.x in
  let y := IVector2D.y in
  JS.leb
    (JS.abs
       (JS.sub
          (JS.sub (JS.of_Z 0)
             (JS.mul (JS.sub (y p1) (y p0)) (JS.sub (x p2) (x p0))))
          (JS.mul (JS.sub (x p1) (x p0)) (JS.sub (y p2) (y p0)))))
    (JS.Fin (1 # 1000)).

(** The [switch] on the first token of the path field *)
Definition pathType_of (pathType : PathType) (ptype : string) : PathType :=
  if String.eqb ptype "C" then Catmull
  else if String.eqb ptype "B" then Bezier
  else if String.eqb ptype "L" then Linear
  else if String.eqb ptype "P" then PerfectCurve
  else pathType.

(** The body of [pointSplit.forEach] *)
Definition point_of (t : string) : IVector2D.t :=
  let temp := JS.split_trim ":" t in
  {| IVector2D.x := JS.Number_of (nth_error temp 0);
     IVector2D.y := JS.Number_of (nth_error temp 1) |}.

(** [a[i] = v] for [i] below the length of [a] *)
Fixpoint store {A : Type} (i : nat) (v : A) (a : list A) : list A :=
  match a, i with
  | [], _ => []
  | _ :: r, O => v :: r
  | h :: r, S j => h :: store j v r
  end.

(** The loop that reads the per-node sample banks: it leaves at the
    first index without a token, and updates in place the node's copy
    of the bank info. *)
Fixpoint read_node_banks (indices : list nat) (sets : list string)
    (nodeBankInfos : list ISampleBankInfo.t)
  : outcome (list ISampleBankInfo.t) :=
  match indices with
  | [] => Ok nodeBankInfos
  | i :: rest =>
      match nth_error sets i with
      | None => Ok nodeBankInfos
      | Some token =>
          match nth_error nodeBankInfos i with
          | None => Throw JS.TypeError
          | Some info =>
              info' <- readCustomSampleBanks token info ;;
              read_node_banks rest sets (store i info' nodeBankInfos)
          end
      end
  end.

(** The loop that reads the per-node sound types *)
Fixpoint read_node_sounds (indices : list nat) (adds : list string)
    (nodeSoundTypes : list JS.num) : list JS.num :=
  match indices with
  | [] => nodeSoundTypes
  | i :: rest =>
      match nth_error adds i with
      | None => nodeSoundTypes
      | Some token =>
          let sound :=
            if JS.isNaN (JS.Number token) then JS.of_Z 0
            else JS.Number token in
          read_node_sounds rest adds (store i sound nodeSoundTypes)
      end
  end.

(** The loop that generates the per-node samples *)
Fixpoint node_samples (indices : list nat) (nodeSoundTypes : list JS.num)
    (nodeBankInfos : list ISampleBankInfo.t)
  : outcome (list (list ISampleInfo.t)) :=
  match indices with
  | [] => Ok []
  | i :: rest =>
      match nth_error nodeSoundTypes i, nth_error nodeBankInfos i with
      | Some type, Some info =>
          more <- node_samples rest nodeSoundTypes nodeBankInfos ;;
          Ok (convertSoundType type info :: more)
      | _, _ => Throw JS.TypeError
      end
  end.

(** The node bank infos of a slider: the copies of the default, then
    the per-node tokens of field 9. *)
Definition slider_nodeBankInfos (split : list string) (indices : list nat)
    (bankInfo : ISampleBankInfo.t) : outcome (list ISampleBankInfo.t) :=
  let nodeBankInfos := map (fun _ => bankInfo) indices in
  match nth_error split 9 with
  | Some (String c f) =>
      read_node_banks indices (JS.split_trim "|" (String c f)) nodeBankInfos
  | _ => Ok nodeBankInfos
  end.

(** The node sound types of a slider: the copies of the default, then
    the per-node tokens of field 8. *)
Definition slider_nodeSoundTypes (split : list string) (indices : list nat)
    (soundType : JS.num) : list JS.num :=
  let nodeSoundTypes := map (fun _ => soundType) indices in
  match nth_error split 8 with
  | Some (String c f) =>
      read_node_sounds indices (JS.split_trim "|" (String c f)) nodeSoundTypes
  | _ => nodeSoundTypes
  end.

(** The slider branch, from the path field to the last assignment to
    [result]: the fields attached to [result], and [bankInfo] as the
    branch leaves it. *)
Definition parseSlider (split : list string) (pos : IVector2D.t)
    (combo : bool) (comboOffset : JS.num) (soundType : JS.num)
  : outcome (IHitObject.t * ISampleBankInfo.t) :=
  match nth_error split 5 with
  | None => Throw JS.TypeError
  | Some path =>
      let tokens := JS.split_trim "|" path in
      let pathType := pathType_of Catmull (hd EmptyString tokens) in
      let points := map point_of (tl tokens) in
      let pathType :=
        match points, pathType with
        | [p0; p1; p2], PerfectCurve =>
            if isLinear p0 p1 p2 then Linear else pathType
        | _, _ => pathType
        end in
      let repeatCount := JS.Number_of (nth_error split 6) in
      if JS.gtb repeatCount (JS.of_Z 9000) then Throw JS.RepeatCountTooHigh
      else
        let repeatCount :=
          JS.max (JS.of_Z 0) (JS.sub repeatCount (JS.of_Z 1)) in
        let length :=
          match nth_error split 7 with
          | Some f => JS.Number f
          | None => JS.of_Z 0
          end in
        bankInfo <-
          match nth_error split 10 with
          | Some f => readCustomSampleBanks f ISampleBankInfo.empty
          | None => Ok ISampleBankInfo.empty
          end ;;
        let nodes := JS.add repeatCount (JS.of_Z 2) in
        match for_indices node_fuel 0 nodes with
        | None => OutOfFuel
        | Some indices =>
            nodeBankInfos <- slider_nodeBankInfos split indices bankInfo ;;
            let nodeSoundTypes :=
              slider_nodeSoundTypes split indices soundType in
            nodeSamples <- node_samples indices nodeSoundTypes nodeBankInfos ;;
            Ok ({| IHitObject.Pos := Some pos;
                   IHitObject.Combo := Some combo;
                   IHitObject.ComboOffset := Some comboOffset;
                   IHitObject.Points := Some points;
                   IHitObject.Length := Some length;
                   IHitObject.PathType := Some pathType;
                   IHitObject.RepeatCount := Some repeatCount;
                   IHitObject.NodeSamples := Some nodeSamples;
                   IHitObject.Samples :=
                     nth_error nodeSamples (List.length nodeSamples - 1);
                   IHitObject.StartTime := None |},
                bankInfo)
        end
  end.

(** The hit-object type of a record after the combo bits have been
    read and cleared: [type], [comboOffset] and [combo] as the source
    has them when it reaches the dispatch on the shape. *)
Definition shape_bits (split : list string) : Z * Z * bool :=
  let type := JS.ToInt32 (JS.Number_of (nth_error split 3)) in
  let comboOffset :=
    Z.shiftr (Z.land type ConvertHitObjectType.ComboOffset) 4 in
  let type := Z.land type (Z.lnot ConvertHitObjectType.ComboOffset) in
  let combo := JS.truthy (Z.land type ConvertHitObjectType.NewCombo) in
  let type := Z.land type (Z.lnot ConvertHitObjectType.NewCombo) in
  (type, comboOffset, combo).

(** The circle branch: the fields attached to [result], and [bankInfo]
    as the branch leaves it. *)
Definition parseCircle (split : list string) (pos : IVector2D.t)
    (combo : bool) (comboOffset : JS.num)
  : outcome (IHitObject.t * ISampleBankInfo.t) :=
  bankInfo <-
    match nth_error split 5 with
    | Some f => readCustomSampleBanks f ISampleBankInfo.empty
    | None => Ok ISampleBankInfo.empty
    end ;;
  Ok ({| IHitObject.Pos := Some pos;
         IHitObject.Combo := Some combo;
         IHitObject.ComboOffset := Some comboOffset;
         IHitObject.Points := None;
         IHitObject.Length := None;
         IHitObject.PathType := None;
         IHitObject.RepeatCount := None;
         IHitObject.NodeSamples := None;
         IHitObject.Samples := None;
         IHitObject.StartTime := None |},
      bankInfo).

(** What follows the branches: nothing for a [result] without keys,
    otherwise the start time, the samples if the branch set none, and
    the push. *)
Definition finish (split : list string) (soundType : JS.num)
    (parser : OsuParser) (shaped : IHitObject.t * ISampleBankInfo.t)
  : outcome OsuParser :=
  let '(result, bankInfo) := shaped in
  if IHitObject.no_keys result then Ok parser
  else
    let offset := JS.of_Z 0 in
    let result :=
      {| IHitObject.Pos := IHitObject.Pos result;
         IHitObject.Combo := IHitObject.Combo result;
         IHitObject.ComboOffset := IHitObject.ComboOffset result;
         IHitObject.Points := IHitObject.Points result;
         IHitObject.Length := IHitObject.Length result;
         IHitObject.PathType := IHitObject.PathType result;
         IHitObject.RepeatCount := IHitObject.RepeatCount result;
         IHitObject.NodeSamples := IHitObject.NodeSamples result;
         IHitObject.Samples :=
           match IHitObject.Samples result with
           | Some samples => Some samples
           | None => Some (convertSoundType soundType bankInfo)
           end;
         IHitObject.StartTime :=
           Some (JS.add (JS.Number_of (nth_error split 2)) offset) |} in
    Ok {| currentSection := currentSection parser;
          general := general parser;
          difficulty := difficulty parser;
          timingPoints := timingPoints parser;
          hitObjects := hitObjects parser ++ [result] |}.

(** [pos], read before the type *)
Definition pos_of (split : list string) : IVector2D.t :=
  {| IVector2D.x := JS.Number_of (nth_error split 0);
     IVector2D.y := JS.Number_of (nth_error split 1) |}.

Definition parseHitObjects (line : string) (parser : OsuParser)
  : outcome OsuParser :=
  let split := JS.split_trim "," line in
  let pos := pos_of split in
  let '(type, comboOffset, combo) := shape_bits split in
  let soundType := JS.Number_of (nth_error split 4) in
  shaped <-
    (if JS.truthy (Z.land type ConvertHitObjectType.Circle) then
       parseCircle split pos combo (JS.of_Z comboOffset)
     else if JS.truthy (Z.land type ConvertHitObjectType.Slider) then
       parseSlider split pos combo (JS.of_Z comboOffset) soundType
     else if JS.truthy (Z.land type ConvertHitObjectType.Spinner) then
       Ok (IHitObject.empty, ISampleBankInfo.empty)
     else if JS.truthy (Z.land type ConvertHitObjectType.Hold) then
       Ok (IHitObject.empty, ISampleBankInfo.empty)
     else Ok (IHitObject.empty, ISampleBankInfo.empty)) ;;
  finish split soundType parser shaped.

(** ** The router: [parse], [parseSection] and [parseLine] *)

(** [\w] (and [\d], which it contains) *)
Definition is_word (c : ascii) : bool :=
  let n := JS.code c in
  ((48 <=? n) && (n <=? 57)) || ((65 <=? n) && (n <=? 90))
  || (n =? 95) || ((97 <=? n) && (n <=? 122)).

(** The longest run of word characters at the head of [s], and what
    follows it. *)
Fixpoint word_run (s : string) : string * string :=
  match s with
  | String c r =>
      if is_word c then let '(w, rest) := word_run r in (String c w, rest)
      else (EmptyString, s)
  | EmptyString => (EmptyString, EmptyString)
  end.

(** A match of [\[([\w\d]+)\]] that begins at the head of [s]: its
    group.  The closing bracket is no word character, so the group can
    only be the whole run. *)
Definition match_here (s : string) : option string :=
  match s with
  | String "["%char r =>
      match word_run r with
      | (String c w, String "]"%char _) => Some (String c w)
      | _ => None
      end
  | _ => None
  end.

(** [/\[([\w\d]+)\]/g.exec(line)]: the group of the leftmost match.
    The regular expression is created anew by each call, so the search
    starts at the head of the line. *)
Fixpoint section_of (line : string) : option string :=
  match match_here line with
  | Some token => Some token
  | None =>
      match line with
      | String _ r => section_of r
      | EmptyString => None
      end
  end.

Definition parseSection (line : string) (parser : OsuParser)
  : outcome OsuParser :=
  match section_of line with
  | Some token =>
      Ok {| currentSection := token;
            general := general parser;
            difficulty := difficulty parser;
            timingPoints := timingPoints parser;
            hitObjects := hitObjects parser |}
  | None => Ok parser
  end.

(** What [parsers[this.currentSection]] finds: one of the four decoders,
    a member inherited from [Object.prototype] (truthy as well, so it is
    what gets called), or nothing. *)
Inductive handler : Type :=
| Decoder (f : string -> OsuParser -> outcome OsuParser)
| Inherited (name : string)
| Missing.

Definition parsers (section : string) : handler :=
  if String.eqb section "General" then Decoder parseGeneral
  else if String.eqb section "Difficulty" then Decoder parseDifficulty
  else if String.eqb section "TimingPoints" then Decoder parseTimingPoint
  else if String.eqb section "HitObjects" then Decoder parseHitObjects
  else if JS.inherited section then Inherited section
  else Missing.

Definition parseLine (line : string) (parser : OsuParser)
  : outcome OsuParser :=
  match parsers (currentSection parser) with
  | Decoder f => f line parser
  | Inherited name =>
      if JS.builtin_call_returns name then Ok parser
      else Throw JS.TypeError
  | Missing => Ok parser
  end.

Definition parse (line : string) (parser : OsuParser) : outcome OsuParser :=
  if JS.startsWith "[" line then parseSection line parser
  else parseLine line parser.

(** The lines of a file fed to [parse] in order, as the line reader of
    the README does; the first throw ends the run. *)
Fixpoint run (lines : list string) (parser : OsuParser) : outcome OsuParser :=
  match lines with
  | [] => Ok parser
  | line :: rest => parser' <- parse line parser ;; run rest parser'
  end.

(** ** [toJSON]: the document, without the current section *)
Module Document.
Record t : Type := mk {
  general : list (string * JS.value);
  difficulty : list (string * JS.num);
  timingPoints : list ITimingPoint.t;
  hitObjects : list IHitObject.t
}.
End Document.

Definition toJSON (parser : OsuParser) : Document.t :=
  {| Document.general := general parser;
     Document.difficulty := difficulty parser;
     Document.timingPoints := timingPoints parser;
     Document.hitObjects := hitObjects parser |}.

(* ================================================================== *)
(** * Vocabulary of the properties *)
(* ================================================================== *)

(** How often a character occurs in a string *)
Fixpoint count_char (c : ascii) (s : string) : nat :=
  match s with
  | EmptyString => O
  | String d r => ((if Ascii.eqb d c then 1 else 0) + count_char c r)%nat
  end.

(** The parser with another current section and the same document *)
Definition with_section (token : string) (parser : OsuParser) : OsuParser :=
  {| currentSection := token;
     general := general parser;
     difficulty := difficulty parser;
     timingPoints := timingPoints parser;
     hitObjects := hitObjects parser |}.

(** The type bitmask of a hit-object record, field 3 as a 32-bit
    integer *)
Definition type_mask (split : list string) : Z :=
  JS.ToInt32 (JS.Number_of (nth_error split 3)).

(** A slider record: the circle bit is clear and the slider bit is set,
    which is when the dispatch takes the slider branch. *)
Definition is_slider_record (split : list string) : bool :=
  negb (Z.testbit (type_mask split) 0) && Z.testbit (type_mask split) 1.

(** The descriptor of a named sample of a bank *)
Definition sample (bank : option string) (name : string)
    (bankInfo : ISampleBankInfo.t) : ISampleInfo.t :=
  {| ISampleInfo.Filename := None;
     ISampleInfo.Bank := bank;
     ISampleInfo.Name := Some name;
     ISampleInfo.Volume := ISampleBankInfo.Volume bankInfo;
     ISampleInfo.CustomSampleBank :=
       ISampleBankInfo.CustomSampleBank bankInfo |}.

(** The descriptor of an explicit sample file *)
Definition sample_file (filename : string) : ISampleInfo.t :=
  {| ISampleInfo.Filename := Some filename;
     ISampleInfo.Bank := None;
     ISampleInfo.Name := None;
     ISampleInfo.Volume := None;
     ISampleInfo.CustomSampleBank := None |}.

(** One descriptor if the bit is set, none otherwise *)
Definition when_bit (mask : Z) (bit : Z) (d : ISampleInfo.t)
  : list ISampleInfo.t :=
  if Z.testbit mask bit then [d] else [].

(** What the source calls [timingChange] *)
Definition timingChange_flag (fields : list string) : bool :=
  match nth_error fields 6 with
  | Some field => first_is "1" field
  | None => true
  end.



(** The lowercase names of the members of [LegacySampleBank], by
    index *)
Definition bank_name (z : Z) : string :=
  if z =? 0 then "none"
  else if z =? 1 then "normal"
  else if z =? 2 then "soft"
  else "drum".

(** What the source calls [nodes] in the slider branch: the stored
    repeat count plus two, as the addition gives it. *)
Definition slider_nodes_of (split : list string) : JS.num :=
  JS.add
    (JS.max (JS.of_Z 0)
       (JS.sub (JS.Number_of (nth_error split 6)) (JS.of_Z 1)))
    (JS.of_Z 2).

(** The token of field 9 for node [i]: none when the field is missing
    or empty, or has fewer tokens. *)
Definition per_node_token (split : list string) (i : nat) : option string :=
  match nth_error split 9 with
  | Some (String c f) => nth_error (JS.split_trim "|" (String c f)) i
  | _ => None
  end.

(** The default bank info of a slider, read from field 10 when the
    record has one *)
Definition default_bankInfo (split : list string)
  : outcome ISampleBankInfo.t :=
  match nth_error split 10 with
  | Some f => readCustomSampleBanks f ISampleBankInfo.empty
  | None => Ok ISampleBankInfo.empty
  end.

(** A string of word characters *)
Fixpoint all_word (s : string) : bool :=
  match s with
  | EmptyString => true
  | String c r => is_word c && all_word r
  end.

(** The value a General line stores under a key other than SampleSet:
    the number the value reads as, or the value itself when it reads
    as no number. *)
Definition coerced (value : string) : JS.value :=
  match JS.Number value with
  | JS.NaN => JS.VString value
  | n => JS.VNumber n
  end.

(** The sample set a timing-point record resolves: field 3 when the
    record has one, the SampleSet of the General section otherwise. *)
Definition timing_sampleSet (fields : list string) (parser : OsuParser)
  : JS.value :=
  match nth_error fields 3 with
  | Some field => JS.VNumber (JS.Number field)
  | None =>
      match JS.obj_get "SampleSet" (general parser) with
      | Some v => v
      | None => JS.VUndefined
      end
  end.

(** The parser after [timingPoints.push(point)] *)
Definition push_timingPoint (point : ITimingPoint.t) (parser : OsuParser)
  : OsuParser :=
  {| currentSection := currentSection parser;
     general := general parser;
     difficulty := difficulty parser;
     timingPoints := timingPoints parser ++ [point];
     hitObjects := hitObjects parser |}.

(** The bank names a timing point can carry *)
Definition timing_bank_names : list string := ["normal"; "soft"; "drum"].

(** The bank name a timing point shows for a bank index: None is shown
    as Normal. *)
Definition timing_bank_word (z : Z) : string :=
  if z =? 2 then "soft" else if z =? 3 then "drum" else "normal".

(** The combo offset of a record: the bits 4 to 6 of its type, as a
    number from 0 to 7. *)
Definition comboOffset_bits (split : list string) : Z :=
  (type_mask split / 16) mod 8.

(** The parser after [hitObjects.push(h)] *)
Definition push_hitObject (h : IHitObject.t) (parser : OsuParser)
  : OsuParser :=
  {| currentSection := currentSection parser;
     general := general parser;
     difficulty := difficulty parser;
     timingPoints := timingPoints parser;
     hitObjects := hitObjects parser ++ [h] |}.

(** The sound type of node [i] of a slider: the number its token of
    field 8 reads as, 0 when that is no number, and the sound type of
    the record when the field is missing or empty or has fewer
    tokens. *)
Definition node_sound (split : list string) (soundType : JS.num) (i : nat)
  : JS.num :=
  match nth_error split 8 with
  | Some (String c f) =>
      match nth_error (JS.split_trim "|" (String c f)) i with
      | Some token =>
          match JS.Number token with
          | JS.NaN => JS.of_Z 0
          | n => n
          end
      | None => soundType
      end
  | _ => soundType
  end.

(** The path type a letter stands for *)
Definition letter_pathType (letter : string) : PathType :=
  if String.eqb letter "B" then Bezier
  else if String.eqb letter "L" then Linear
  else if String.eqb letter "P" then PerfectCurve
  else Catmull.

(** The bank a sample-bank token names by an index: absent for 0 *)
Definition bank_word (z : Z) : option string :=
  if z =? 1 then Some "normal"
  else if z =? 2 then Some "soft"
  else if z =? 3 then Some "drum"
  else None.

(* ================================================================== *)
(** * Facts about the runtime *)
(* ================================================================== *)

Section RuntimeFacts.

Lemma split_length (sep : ascii) (s : string) :
  length (JS.split sep s) = S (count_char sep s).
Proof.
  induction s as [|c r IH]; simpl; [reflexivity|].
  destruct (Ascii.eqb c sep); simpl.
  - now rewrite IH.
  - destruct (JS.split sep r) as [|p ps]; simpl in *; congruence.
Qed.

Lemma split_trim_length (sep : ascii) (s : string) :
  length (JS.split_trim sep s) = S (count_char sep s).
Proof.
  unfold JS.split_trim. now rewrite length_map, split_length.
Qed.

(** A sequence of two steps returns when both steps do. *)
Lemma bind_Ok {A B : Type} (m : outcome A) (k : A -> outcome B) (b : B) :
  bind m k = Ok b -> exists a, m = Ok a /\ k a = Ok b.
Proof.
  destruct m as [a|e|]; simpl; try discriminate. intros H. now exists a.
Qed.

(** A single bit of a mask is tested by [&] with its power of two. *)
Lemma land_pow2 (x k : Z) :
  0 <= k ->
  Z.land x (2 ^ k) = if Z.testbit x k then 2 ^ k else 0.
Proof.
  intros Hk. apply Z.bits_inj'. intros n Hn.
  rewrite Z.land_spec, Z.pow2_bits_eqb by assumption.
  destruct (Z.eqb_spec k n) as [->|Hne].
  - destruct (Z.testbit x n) eqn:E; simpl.
    + now rewrite Z.pow2_bits_true.
    + now rewrite Z.bits_0.
  - rewrite andb_false_r.
    destruct (Z.testbit x k).
    + rewrite Z.pow2_bits_false; auto.
    + now rewrite Z.bits_0.
Qed.

Lemma truthy_land_pow2 (x k : Z) :
  0 <= k -> JS.truthy (Z.land x (2 ^ k)) = Z.testbit x k.
Proof.
  intros Hk. rewrite land_pow2 by assumption. unfold JS.truthy.
  destruct (Z.testbit x k); [|reflexivity].
  assert (0 < 2 ^ k) by (apply Z.pow_pos_nonneg; lia).
  destruct (Z.eqb_spec (2 ^ k) 0); [lia | reflexivity].
Qed.

End RuntimeFacts.

(** ** Numbers *)

Section NumberFacts.




Lemma inject_Z_minus (a b : Z) : inject_Z (a - b) = (inject_Z a - inject_Z b)%Q.
Proof. unfold Z.sub, Qminus. now rewrite inject_Z_plus, inject_Z_opp. Qed.

Lemma Qceiling_unique (x : Q) (n : Z) :
  (inject_Z n - 1 < x)%Q -> (x <= inject_Z n)%Q -> Qceiling x = n.
Proof.
  intros Hlo Hhi.
  pose proof (Qle_ceiling x) as H1. pose proof (Qceiling_lt x) as H2.
  assert (inject_Z (n - 1) < inject_Z (Qceiling x))%Q as Ha.
  { rewrite inject_Z_minus. change (inject_Z 1) with 1%Q. lra. }
  assert (inject_Z (Qceiling x - 1) < inject_Z n)%Q as Hb by lra.
  rewrite <- Zlt_Qlt in Ha, Hb. lia.
Qed.

Lemma Qceiling_plus_Z (x : Q) (z : Z) :
  Qceiling (x + inject_Z z) = Qceiling x + z.
Proof.
  pose proof (Qle_ceiling x) as H1. pose proof (Qceiling_lt x) as H2.
  apply Qceiling_unique.
  - rewrite inject_Z_plus. rewrite inject_Z_minus in H2.
    change (inject_Z 1) with 1%Q in H2. lra.
  - rewrite inject_Z_plus. lra.
Qed.

Lemma ltb_of_nat (i : nat) (q : Q) :
  JS.ltb (JS.of_nat i) (JS.Fin q) = (Z.of_nat i <? Qceiling q).
Proof.
  unfold JS.ltb, JS.of_nat, JS.of_Z.
  pose proof (Qle_ceiling q) as H1. pose proof (Qceiling_lt q) as H2.
  destruct (Z.ltb_spec (Z.of_nat i) (Qceiling q)) as [Hlt|Hge].
  - apply negb_true_iff. apply not_true_iff_false. rewrite Qle_bool_iff.
    intros Hle.
    assert (inject_Z (Qceiling q - 1) < inject_Z (Z.of_nat i))%Q as Hc by lra.
    rewrite <- Zlt_Qlt in Hc. lia.
  - apply negb_false_iff. rewrite Qle_bool_iff.
    rewrite Zle_Qle in Hge. lra.
Qed.

Lemma for_indices_fin (fuel i : nat) (q : Q) :
  (0 < fuel)%nat ->
  Qceiling q - Z.of_nat i < Z.of_nat fuel ->
  for_indices fuel i (JS.Fin q)
  = Some (seq i (Z.to_nat (Qceiling q - Z.of_nat i))).
Proof.
  revert i. induction fuel as [|fuel IH]; intros i Hpos Hfuel; [lia|].
  cbn [for_indices]. rewrite ltb_of_nat.
  destruct (Z.ltb_spec (Z.of_nat i) (Qceiling q)) as [Hlt|Hge].
  - rewrite IH by lia.
    replace (Z.to_nat (Qceiling q - Z.of_nat i))
      with (S (Z.to_nat (Qceiling q - Z.of_nat (S i)))) by lia.
    reflexivity.
  - replace (Z.to_nat (Qceiling q - Z.of_nat i)) with O by lia.
    reflexivity.
Qed.

Lemma ltb_of_nat_mono (i j : nat) (n : JS.num) :
  (j <= i)%nat ->
  JS.ltb (JS.of_nat i) n = true -> JS.ltb (JS.of_nat j) n = true.
Proof.
  intros Hle. destruct n as [| | |q]; try (intros H; exact H).
  rewrite !ltb_of_nat. intros H. apply Z.ltb_lt in H. apply Z.ltb_lt. lia.
Qed.

(** The indices of a loop [for (let i = k; i < nodes; i++)] that ends
    are the integers from [k] on that pass the test of the loop. *)
Lemma for_indices_loop (fuel k : nat) (nodes : JS.num) (indices : list nat) :
  for_indices fuel k nodes = Some indices ->
  indices = seq k (length indices) /\
  forall i, (k <= i)%nat ->
    ((i < k + length indices)%nat <-> JS.ltb (JS.of_nat i) nodes = true).
Proof.
  revert k indices. induction fuel as [|fuel IH]; intros k indices;
    cbn [for_indices]; [discriminate|].
  destruct (JS.ltb (JS.of_nat k) nodes) eqn:Hk.
  - destruct (for_indices fuel (S k) nodes) as [rest|] eqn:Hrest;
      [|discriminate].
    intros [= <-]. destruct (IH _ _ Hrest) as [Hseq Htest].
    cbn [length seq]. split; [now rewrite <- Hseq|].
    intros i Hi. destruct (Nat.eq_dec i k) as [->|Hne].
    + split; [intros _; exact Hk | lia].
    + rewrite <- (Htest i) by lia. lia.
  - intros [= <-]. split; [reflexivity|]. intros i Hi. cbn [length]. split.
    + lia.
    + intros H. apply (ltb_of_nat_mono i k nodes Hi) in H. congruence.
Qed.


(** Repeat count facts *)
Lemma leb_fin (x y : Q) : JS.leb (JS.Fin x) (JS.Fin y) = true <-> (x <= y)%Q.
Proof. apply Qle_bool_iff. Qed.

Lemma gtb_fin (x y : Q) : JS.gtb (JS.Fin x) (JS.Fin y) = false <-> (x <= y)%Q.
Proof.
  unfold JS.gtb, JS.ltb. rewrite negb_false_iff. apply Qle_bool_iff.
Qed.

Lemma sub_one (q : Q) :
  exists x, JS.sub (JS.Fin q) (JS.of_Z 1) = JS.Fin x /\ x == q - 1.
Proof.
  eexists. split; [reflexivity|].
  rewrite Qred_correct. change (Qred (- inject_Z 1)) with (- (1))%Q. lra.
Qed.

Lemma max_zero (x : Q) :
  exists r, JS.max (JS.of_Z 0) (JS.Fin x) = JS.Fin r /\ r == Qmax 0 x.
Proof.
  unfold JS.max, JS.of_Z.
  destruct (JS.leb (JS.Fin (inject_Z 0)) (JS.Fin x)) eqn:E.
  - exists x. split; [reflexivity|]. apply leb_fin in E.
    symmetry. apply Q.max_r. exact E.
  - exists (inject_Z 0). split; [reflexivity|].
    assert (~ (inject_Z 0 <= x)%Q) as Hn.
    { intros H. apply leb_fin in H. congruence. }
    symmetry. apply Q.max_l. change (inject_Z 0) with 0%Q in *. lra.
Qed.




End NumberFacts.

(* ================================================================== *)
(** * The sound type expander and the sample bank resolver *)
(* ================================================================== *)

Section Samples.

Lemma push_if_bit (type : JS.num) (k : Z) (d : ISampleInfo.t)
    (l : list ISampleInfo.t) :
  0 <= k ->
  push_if type (2 ^ k) d l = l ++ when_bit (JS.ToInt32 type) k d.
Proof.
  intros Hk. unfold push_if, when_bit.
  rewrite truthy_land_pow2 by assumption.
  destruct (Z.testbit (JS.ToInt32 type) k); [reflexivity|].
  now rewrite app_nil_r.
Qed.

(** The resolved name of a bank index is one of four words, and none
    of them is empty. *)
Lemma bank_toLowerCase_names (k : JS.value) (s : string) :
  bank_toLowerCase k = Ok s ->
  s = "none" \/ s = "normal" \/ s = "soft" \/ s = "drum".
Proof.
  unfold bank_toLowerCase, LegacySampleBank.get.
  destruct k as [|n|key|b]; try discriminate.
  - destruct (JS.as_integer n) as [z|]; [|discriminate].
    destruct z as [|[[|[]|]|[]|]|]; simpl; intros [= <-]; auto.
  - destruct (LegacySampleBank.number_of key); [discriminate|].
    destruct (LegacySampleBank.reverse_key key) as [z|].
    + destruct z as [|[[|[]|]|[]|]|]; simpl; intros [= <-]; auto.
    + destruct (JS.inherited key); discriminate.
Qed.

(** The indices 0 to 3 resolve to the lowercase names of the members. *)
Lemma bank_name_lookup (n : JS.num) (z : Z) :
  JS.as_integer n = Some z ->
  0 <= z <= 3 ->
  bank_toLowerCase (JS.VNumber n) = Ok (bank_name z).
Proof.
  intros Hint Hz. unfold bank_toLowerCase, LegacySampleBank.get.
  rewrite Hint.
  assert (z = 0 \/ z = 1 \/ z = 2 \/ z = 3) as [->|[->|[->| ->]]] by lia;
    reflexivity.
Qed.

(** The fallback of [readCustomSampleBanks] on an empty resolved name
    is never taken: [Add] is the resolved name of the second field. *)
Lemma readCustomSampleBanks_Add (line : string)
    (bankInfo info : ISampleBankInfo.t) :
  readCustomSampleBanks line bankInfo = Ok info ->
  exists a,
    bank_toLowerCase
      (JS.VNumber (JS.Number_of (nth_error (JS.split_trim ":" line) 1)))
    = Ok a /\
    ISampleBankInfo.Add info = if String.eqb a "none" then None else Some a.
Proof.
  unfold readCustomSampleBanks. cbv zeta. intros H.
  apply bind_Ok in H as (s & _ & H).
  apply bind_Ok in H as (a & Ha & H).
  injection H as <-. exists a. split; [exact Ha|]. cbn [ISampleBankInfo.Add].
  destruct (bank_toLowerCase_names _ _ Ha) as [-> | [-> | [-> | -> ]]];
    reflexivity.
Qed.

End Samples.

(** C5.  [convertSoundType]: a bank info with a non-empty file name
    expands to the descriptor of that file alone; any other bank info
    expands to the "hitnormal" descriptor of the normal bank, followed
    by "hitfinish" (bit 2), "hitwhistle" (bit 1) and "hitclap" (bit 3),
    in that order, one for each of these bits that is set in the mask,
    each on the add bank, all with the volume and the custom sample
    bank of the bank info. *)
Theorem C5_sound_type_expansion (type : JS.num) (bankInfo : ISampleBankInfo.t) :
  let mask := JS.ToInt32 type in
  (forall filename,
      ISampleBankInfo.Filename bankInfo = Some filename ->
      filename <> EmptyString ->
      convertSoundType type bankInfo = [sample_file filename]) /\
  (ISampleBankInfo.Filename bankInfo = None \/
   ISampleBankInfo.Filename bankInfo = Some EmptyString ->
   convertSoundType type bankInfo =
     sample (ISampleBankInfo.Normal bankInfo) "hitnormal" bankInfo
     :: when_bit mask 2
          (sample (ISampleBankInfo.Add bankInfo) "hitfinish" bankInfo)
     ++ when_bit mask 1
          (sample (ISampleBankInfo.Add bankInfo) "hitwhistle" bankInfo)
     ++ when_bit mask 3
          (sample (ISampleBankInfo.Add bankInfo) "hitclap" bankInfo)).
Proof.
  intros mask. unfold convertSoundType. split.
  - intros filename Hf Hne. rewrite Hf.
    destruct filename as [|c f]; [congruence | reflexivity].
  - assert (Hexp :
      push_if type LegacySoundType.Clap (addition "hitclap" bankInfo)
        (push_if type LegacySoundType.Whistle
           (addition "hitwhistle" bankInfo)
           (push_if type LegacySoundType.Finish
              (addition "hitfinish" bankInfo)
              [sample (ISampleBankInfo.Normal bankInfo) "hitnormal" bankInfo]))
      = sample (ISampleBankInfo.Normal bankInfo) "hitnormal" bankInfo
        :: when_bit mask 2
             (sample (ISampleBankInfo.Add bankInfo) "hitfinish" bankInfo)
        ++ when_bit mask 1
             (sample (ISampleBankInfo.Add bankInfo) "hitwhistle" bankInfo)
        ++ when_bit mask 3
             (sample (ISampleBankInfo.Add bankInfo) "hitclap" bankInfo)).
    { change LegacySoundType.Clap with (2 ^ 3).
      change LegacySoundType.Whistle with (2 ^ 1).
      change LegacySoundType.Finish with (2 ^ 2).
      rewrite !push_if_bit by lia. simpl. now rewrite <- app_assoc. }
    intros [Hf|Hf]; rewrite Hf; exact Hexp.
Qed.

(** The mask 14 has the three bits set; a file name silences them. *)
Lemma C5_sound_type_expansion_witness :
  convertSoundType (JS.of_Z 14)
    (ISampleBankInfo.mk (Some EmptyString) (Some "soft") (Some "drum")
       None None)
  = [ sample (Some "soft") "hitnormal" ISampleBankInfo.empty;
      sample (Some "drum") "hitfinish" ISampleBankInfo.empty;
      sample (Some "drum") "hitwhistle" ISampleBankInfo.empty;
      sample (Some "drum") "hitclap" ISampleBankInfo.empty ] /\
  convertSoundType (JS.of_Z 14)
    (ISampleBankInfo.mk (Some "gong.wav") (Some "soft") (Some "drum") None None)
  = [ sample_file "gong.wav" ].
Proof.
  split.
  - apply (proj2 (C5_sound_type_expansion (JS.of_Z 14)
             (ISampleBankInfo.mk (Some EmptyString) (Some "soft") (Some "drum")
                None None))).
    right. reflexivity.
  - apply (proj1 (C5_sound_type_expansion (JS.of_Z 14)
             (ISampleBankInfo.mk (Some "gong.wav") (Some "soft") (Some "drum")
                None None)) "gong.wav").
    + reflexivity.
    + discriminate.
Defined.

(** C6.  An empty addbank token does not fall back to the bank of the
    first field: whenever the second field of a sample-bank token is
    empty, the [Add] bank that [readCustomSampleBanks] stores is
    absent. *)
Theorem C6_empty_addbank_is_absent (line : string)
    (bankInfo info : ISampleBankInfo.t) :
  nth_error (JS.split_trim ":" line) 1 = Some EmptyString ->
  readCustomSampleBanks line bankInfo = Ok info ->
  ISampleBankInfo.Add info = None.
Proof.
  intros Hfield Hread.
  destruct (readCustomSampleBanks_Add _ _ _ Hread) as (a & Ha & ->).
  rewrite Hfield in Ha. vm_compute in Ha. injection Ha as <-. reflexivity.
Qed.

(** The token ["2:"] names the soft bank and leaves the addbank empty:
    [Normal] is "soft" and [Add] is absent. *)
Lemma C6_empty_addbank_is_absent_witness :
  readCustomSampleBanks "2:" ISampleBankInfo.empty
  = Ok (ISampleBankInfo.mk None (Some "soft") None None None) /\
  ISampleBankInfo.Add (ISampleBankInfo.mk None (Some "soft") None None None)
  = None.
Proof.
  split.
  - reflexivity.
  - apply (C6_empty_addbank_is_absent "2:" ISampleBankInfo.empty).
    + reflexivity.
    + reflexivity.
Defined.

(* ================================================================== *)
(** * The key-value decoders *)
(* ================================================================== *)

Section KeyValue.

(** A trimmed split with other than two parts *)
Lemma not_two_parts (line : string) :
  count_char ":" line <> 1%nat ->
  forall key value, JS.split_trim ":" line <> [key; value].
Proof.
  intros Hcount key value Heq.
  apply (f_equal (@length string)) in Heq.
  rewrite split_trim_length in Heq. simpl in Heq. lia.
Qed.

Lemma parseGeneral_ignores (line : string) (parser : OsuParser) :
  count_char ":" line <> 1%nat -> parseGeneral line parser = Ok parser.
Proof.
  intros Hcount. unfold parseGeneral.
  pose proof (not_two_parts line Hcount) as Hne.
  destruct (JS.split_trim ":" line) as [|key [|value [|more rest]]];
    try reflexivity.
  now destruct (Hne key value).
Qed.

Lemma parseDifficulty_ignores (line : string) (parser : OsuParser) :
  count_char ":" line <> 1%nat -> parseDifficulty line parser = Ok parser.
Proof.
  intros Hcount. unfold parseDifficulty.
  pose proof (not_two_parts line Hcount) as Hne.
  destruct (JS.split_trim ":" line) as [|key [|value [|more rest]]];
    try reflexivity.
  now destruct (Hne key value).
Qed.

End KeyValue.

(** C10.  A line without exactly one colon (none, or a value that
    contains one) is split into other than two parts: [parseGeneral]
    and [parseDifficulty] return the parser as it was, and so does
    [parse] on such a line when it routes it to one of them. *)
Theorem C10_key_value_without_two_parts (line : string) (parser : OsuParser) :
  count_char ":" line <> 1%nat ->
  length (JS.split ":" line) <> 2%nat /\
  parseGeneral line parser = Ok parser /\
  parseDifficulty line parser = Ok parser /\
  (JS.startsWith "[" line = false ->
   currentSection parser = "General" \/ currentSection parser = "Difficulty" ->
   parse line parser = Ok parser).
Proof.
  intros Hcount. repeat split.
  - rewrite split_length. lia.
  - now apply parseGeneral_ignores.
  - now apply parseDifficulty_ignores.
  - intros Hstart Hsec. unfold parse, parseLine. rewrite Hstart.
    destruct Hsec as [-> | ->]; simpl.
    + now apply parseGeneral_ignores.
    + now apply parseDifficulty_ignores.
Qed.

(** A tag line with a value that holds a colon, in the General section *)
Lemma C10_key_value_without_two_parts_witness :
  parse "Tags: a:b" (with_section "General" constructor)
  = Ok (with_section "General" constructor).
Proof.
  apply (C10_key_value_without_two_parts "Tags: a:b"
           (with_section "General" constructor)).
  - simpl. lia.
  - reflexivity.
  - left. reflexivity.
Defined.

(* ================================================================== *)
(** * Timing points *)
(* ================================================================== *)

Section TimingPoints.

Lemma first_is_spec (c : ascii) (field : string) :
  first_is c field = true <-> exists rest, field = String c rest.
Proof.
  unfold first_is, JS.first_char. destruct field as [|d rest].
  - split; [discriminate | intros [r Hr]; discriminate].
  - destruct (Ascii.eqb_spec d c) as [->|Hne].
    + split; [intros _; now exists rest | reflexivity].
    + split; [discriminate | intros [r Hr]; congruence].
Qed.

(** A record with at least two fields whose bank resolves pushes one
    point; the fields of the point, one by one. *)
Lemma parseTimingPoint_Ok (line : string) (parser : OsuParser) (s : string) :
  let fields := JS.split_trim "," line in
  (2 <= length fields)%nat ->
  bank_toLowerCase (timing_sampleSet fields parser) = Ok s ->
  exists point,
    parseTimingPoint line parser = Ok (push_timingPoint point parser) /\
    ITimingPoint.SampleBank point
    = (if String.eqb s "none" then "normal" else s) /\
    ITimingPoint.SpeedMultiplier point
    = (let beatLength :=
         JS.Number_of (option_map JS.trim (nth_error fields 1)) in
       if JS.ltb beatLength (JS.of_Z 0)
       then JS.div (JS.of_Z 100) (JS.neg beatLength)
       else JS.of_Z 1) /\
    ITimingPoint.KiaiMode point
    = match nth_error fields 7 with
      | Some f => JS.truthy (Z.land (JS.ToInt32 (JS.Number f)) 1)
      | None => false
      end /\
    ITimingPoint.OmitFirstBarLine point
    = match nth_error fields 7 with
      | Some f => JS.truthy (Z.land (JS.ToInt32 (JS.Number f)) 8)
      | None => false
      end /\
    ITimingPoint.SampleVolume point
    = match nth_error fields 5 with
      | Some f => JS.Number f
      | None => JS.of_Z 100
      end /\
    ITimingPoint.CustomSampleBank point
    = match nth_error fields 4 with
      | Some f => JS.Number f
      | None => JS.of_Z 0
      end /\
    ITimingPoint.Time point
    = JS.Number_of (option_map JS.trim (nth_error fields 0)) /\
    ITimingPoint.BeatLength point
    = (if timingChange_flag fields
       then Some (JS.Number_of (option_map JS.trim (nth_error fields 1)))
       else None) /\
    ITimingPoint.TimeSignature point
    = (if timingChange_flag fields
       then Some match nth_error fields 2 with
                 | Some f => if first_is "0" f then JS.of_Z 4 else JS.Number f
                 | None => JS.of_Z 4
                 end
       else None).
Proof.
  intros fields Hlen Hbank. unfold parseTimingPoint. cbv zeta. fold fields.
  unfold timing_sampleSet in Hbank.
  destruct (Nat.ltb_spec (length fields) 2) as [Hlt|_]; [lia|].
  rewrite Hbank. cbn [bind].
  destruct (nth_error fields 7); eexists; (split; [reflexivity|]);
    repeat split.
Qed.

Lemma parseTimingPoint_Throw (line : string) (parser : OsuParser)
    (e : JS.error) :
  let fields := JS.split_trim "," line in
  (2 <= length fields)%nat ->
  bank_toLowerCase (timing_sampleSet fields parser) = Throw e ->
  parseTimingPoint line parser = Throw e.
Proof.
  intros fields Hlen Hbank. unfold parseTimingPoint. cbv zeta. fold fields.
  unfold timing_sampleSet in Hbank.
  destruct (Nat.ltb_spec (length fields) 2) as [Hlt|_]; [lia|].
  rewrite Hbank. destruct (nth_error fields 7); reflexivity.
Qed.

(** A record that pushed a point had a bank that resolved. *)
Lemma parseTimingPoint_resolved (line : string) (parser parser' : OsuParser) :
  let fields := JS.split_trim "," line in
  (2 <= length fields)%nat ->
  parseTimingPoint line parser = Ok parser' ->
  exists s, bank_toLowerCase (timing_sampleSet fields parser) = Ok s.
Proof.
  intros fields Hlen. unfold parseTimingPoint. cbv zeta. fold fields.
  fold (timing_sampleSet fields parser).
  destruct (Nat.ltb_spec (length fields) 2) as [Hlt|_]; [lia|].
  destruct (nth_error fields 7) as [f7|]; intros H;
    apply bind_Ok in H as (s & Hs & _); now exists s.
Qed.

Lemma push_timingPoint_inj (a b : ITimingPoint.t) (parser : OsuParser) :
  push_timingPoint a parser = push_timingPoint b parser -> a = b.
Proof.
  unfold push_timingPoint. intros H.
  injection H as H. apply app_inv_head in H. congruence.
Qed.

(** A timing-point record with a bank index from 0 to 3 in field 3
    pushes a point that shows the bank by name. *)
Lemma parseTimingPoint_known (line field : string) (z : Z)
    (parser : OsuParser) :
  nth_error (JS.split_trim "," line) 3 = Some field ->
  JS.as_integer (JS.Number field) = Some z ->
  0 <= z <= 3 ->
  exists point,
    parseTimingPoint line parser = Ok (push_timingPoint point parser) /\
    ITimingPoint.SampleBank point = timing_bank_word z.
Proof.
  intros Hfield Hint Hz.
  assert (2 <= length (JS.split_trim "," line))%nat as Hlen.
  { assert (3 < length (JS.split_trim "," line))%nat
      by (apply nth_error_Some; congruence). lia. }
  assert (bank_toLowerCase (timing_sampleSet (JS.split_trim "," line) parser)
          = Ok (bank_name z)) as Hbank.
  { unfold timing_sampleSet. rewrite Hfield. now apply bank_name_lookup. }
  destruct (parseTimingPoint_Ok line parser _ Hlen Hbank)
    as (point & Hparse & Hname & _).
  exists point. split; [exact Hparse|]. rewrite Hname.
  assert (z = 0 \/ z = 1 \/ z = 2 \/ z = 3) as [->|[->|[->| ->]]] by lia;
    reflexivity.
Qed.

End TimingPoints.

(** C3.  A timing-point record with at least two fields whose sample
    set resolves to a bank is emitted: it pushes one point, and every
    record that returns has pushed one.  Without a field 6 the point
    carries both [BeatLength] (field 1) and [TimeSignature] (field 2,
    or 4); with a field 6 it carries both when the first character of
    that field is "1" and neither otherwise. *)
Theorem C3_timing_change (line : string) (parser : OsuParser) :
  let fields := JS.split_trim "," line in
  let beatLength := JS.Number_of (option_map JS.trim (nth_error fields 1)) in
  let timeSignature :=
    match nth_error fields 2 with
    | Some f =>
        if first_is "0" f then JS.of_Z TimeSignatures.SimpleQuadruple
        else JS.Number f
    | None => JS.of_Z TimeSignatures.SimpleQuadruple
    end in
  let both point :=
    ITimingPoint.BeatLength point = Some beatLength /\
    ITimingPoint.TimeSignature point = Some timeSignature in
  let neither point :=
    ITimingPoint.BeatLength point = None /\
    ITimingPoint.TimeSignature point = None in
  let carries point :=
    (nth_error fields 6 = None -> both point) /\
    (forall field, nth_error fields 6 = Some field ->
       (both point <-> exists rest, field = String "1" rest) /\
       ((forall rest, field <> String "1" rest) -> neither point)) in
  (2 <= length fields)%nat ->
  (forall s, bank_toLowerCase (timing_sampleSet fields parser) = Ok s ->
     exists point,
       parseTimingPoint line parser = Ok (push_timingPoint point parser) /\
       carries point) /\
  (forall parser', parseTimingPoint line parser = Ok parser' ->
     exists point,
       parser' = push_timingPoint point parser /\
       timingPoints parser' = timingPoints parser ++ [point] /\
       carries point).
Proof.
  intros fields beatLength timeSignature both neither carries Hlen.
  assert (forall s, bank_toLowerCase (timing_sampleSet fields parser) = Ok s ->
            exists point,
              parseTimingPoint line parser = Ok (push_timingPoint point parser)
              /\ carries point) as Hemit.
  { intros s Hbank.
    destruct (parseTimingPoint_Ok line parser s Hlen Hbank)
      as (point & Hparse & _ & _ & _ & _ & _ & _ & _ & Hbeat & Hsig).
    fold fields in Hbeat, Hsig. fold beatLength in Hbeat.
    change (JS.of_Z 4) with (JS.of_Z TimeSignatures.SimpleQuadruple) in Hsig.
    fold timeSignature in Hsig.
    exists point. split; [exact Hparse|].
    unfold carries, both, neither. rewrite Hbeat, Hsig.
    unfold timingChange_flag. split.
    - intros ->. split; reflexivity.
    - intros field ->. pose proof (first_is_spec "1" field) as Hspec.
      destruct (first_is "1" field).
      + split.
        * split; [intros _; now apply Hspec | intros _; split; reflexivity].
        * intros Hno. destruct (proj1 Hspec eq_refl) as [rest Hrest].
          now destruct (Hno rest).
      + split.
        * split; [intros [Hb _]; discriminate |].
          intros Hex. apply Hspec in Hex. discriminate.
        * intros _. split; reflexivity. }
  split; [exact Hemit|].
  intros parser' Hparse.
  destruct (parseTimingPoint_resolved line parser parser' Hlen Hparse)
    as [s Hbank].
  destruct (Hemit s Hbank) as (point & Hparse' & Hcarries).
  exists point. rewrite Hparse' in Hparse. injection Hparse as <-.
  split; [reflexivity|]. split; [reflexivity | exact Hcarries].
Qed.

(** A record with two fields and one whose field 6 is "1" carry
    both; a record whose field 6 is "0" carries neither. *)
Lemma C3_timing_change_witness :
  (exists point,
     parseTimingPoint "250,300" constructor
     = Ok (push_timingPoint point constructor) /\
     ITimingPoint.BeatLength point = Some (JS.of_Z 300) /\
     ITimingPoint.TimeSignature point = Some (JS.of_Z 4)) /\
  (exists point,
     parseTimingPoint "1000,-50,3,2,0,80,1,0" constructor
     = Ok (push_timingPoint point constructor) /\
     ITimingPoint.BeatLength point = Some (JS.of_Z (-50)) /\
     ITimingPoint.TimeSignature point = Some (JS.of_Z 3)) /\
  (exists point,
     parseTimingPoint "1000,-50,4,0,0,80,0,1" constructor
     = Ok (push_timingPoint point constructor) /\
     ITimingPoint.BeatLength point = None /\
     ITimingPoint.TimeSignature point = None).
Proof.
  split; [|split].
  - destruct (proj1 (C3_timing_change "250,300" constructor
                       ltac:(simpl; lia)) "none" eq_refl)
      as (point & Hparse & Hnone & _).
    exists point. split; [exact Hparse|]. exact (Hnone eq_refl).
  - destruct (proj1 (C3_timing_change "1000,-50,3,2,0,80,1,0" constructor
                       ltac:(simpl; lia)) "soft" eq_refl)
      as (point & Hparse & _ & Hfield).
    exists point. split; [exact Hparse|].
    apply (proj1 (Hfield "1" eq_refl)). now exists EmptyString.
  - destruct (proj1 (C3_timing_change "1000,-50,4,0,0,80,0,1" constructor
                       ltac:(simpl; lia)) "none" eq_refl)
      as (point & Hparse & _ & Hfield).
    exists point. split; [exact Hparse|].
    apply (proj2 (Hfield "0" eq_refl)). discriminate.
Defined.

(* ================================================================== *)
(** * Slider paths *)
(* ================================================================== *)

Section Paths.

(** On finite coordinates [isLinear] compares with 0.001 the absolute
    value of the sum of the two products; the cross product of the two
    edge vectors is their difference. *)
Lemma isLinear_sum (x0 y0 x1 y1 x2 y2 : Q) :
  isLinear (IVector2D.mk (JS.Fin x0) (JS.Fin y0))
           (IVector2D.mk (JS.Fin x1) (JS.Fin y1))
           (IVector2D.mk (JS.Fin x2) (JS.Fin y2)) = true <->
  (Qabs ((y1 - y0) * (x2 - x0) + (x1 - x0) * (y2 - y0)) <= 1 # 1000)%Q.
Proof.
  unfold isLinear, JS.sub, JS.mul, JS.add, JS.neg, JS.abs, JS.leb, JS.of_Z,
    JS.fin.
  cbn [IVector2D.x IVector2D.y].
  rewrite Qle_bool_iff.
  rewrite !Qred_correct.
  assert (inject_Z 0 + - ((y1 + - y0) * (x2 + - x0))
          + - ((x1 + - x0) * (y2 + - y0))
          == - ((y1 - y0) * (x2 - x0) + (x1 - x0) * (y2 - y0)))%Q as ->.
  { change (inject_Z 0) with 0%Q. ring. }
  rewrite Qabs_opp. reflexivity.
Qed.

End Paths.

(** C1.  The collinear control points (0,0), (1,1), (2,2) of a slider
    requested as a perfect curve are not downgraded: [isLinear] rejects
    them and the emitted hit object keeps [PerfectCurve]. *)
Theorem C1_collinear_perfect_curve_kept :
  let origin := IVector2D.mk (JS.of_Z 0) (JS.of_Z 0) in
  let one := IVector2D.mk (JS.of_Z 1) (JS.of_Z 1) in
  let two := IVector2D.mk (JS.of_Z 2) (JS.of_Z 2) in
  isLinear origin one two = false /\
  exists parser h,
    parseHitObjects "0,0,0,2,0,P|0:0|1:1|2:2,1" constructor = Ok parser /\
    hitObjects parser = [h] /\
    IHitObject.Points h = Some [origin; one; two] /\
    IHitObject.PathType h = Some PerfectCurve.
Proof.
  split; [reflexivity|].
  eexists. eexists. split; [vm_compute; reflexivity|].
  repeat split.
Qed.

(** The expression of [isLinear] adds the two products where a cross
    product subtracts them: the points (0,0), (1,1), (1,-1) are the
    corners of a triangle and pass for collinear. *)
Example isLinear_accepts_a_triangle :
  isLinear (IVector2D.mk (JS.of_Z 0) (JS.of_Z 0))
           (IVector2D.mk (JS.of_Z 1) (JS.of_Z 1))
           (IVector2D.mk (JS.of_Z 1) (JS.of_Z (-1))) = true /\
  exists parser h,
    parseHitObjects "0,0,0,2,0,P|0:0|1:1|1:-1,1" constructor = Ok parser /\
    hitObjects parser = [h] /\
    IHitObject.PathType h = Some Linear.
Proof.
  split; [reflexivity|].
  eexists. eexists. split; [vm_compute; reflexivity|].
  repeat split.
Qed.

(* ================================================================== *)
(** * Hit objects *)
(* ================================================================== *)

Section Loops.

Lemma store_length {A : Type} (i : nat) (v : A) (a : list A) :
  length (store i v a) = length a.
Proof.
  revert i. induction a as [|h r IH]; intros [|j]; simpl; auto.
Qed.

Lemma store_same {A : Type} (i : nat) (v : A) (a : list A) :
  (i < length a)%nat -> nth_error (store i v a) i = Some v.
Proof.
  revert i. induction a as [|h r IH]; intros [|j]; simpl; try lia; auto.
  intros H. apply IH. lia.
Qed.

Lemma store_other {A : Type} (i j : nat) (v : A) (a : list A) :
  i <> j -> nth_error (store i v a) j = nth_error a j.
Proof.
  revert i j. induction a as [|h r IH]; intros [|i] [|j]; simpl; auto;
    congruence.
Qed.

(** The per-node loop over the indices [k, k + m): every index with a
    token has the token read onto its entry, the others keep
    theirs. *)
Lemma read_node_banks_spec (m k : nat) (sets : list string)
    (infos result : list ISampleBankInfo.t) :
  read_node_banks (seq k m) sets infos = Ok result ->
  length result = length infos /\
  forall i,
    match nth_error sets i with
    | Some token =>
        (k <= i < k + m)%nat ->
        forall info, nth_error infos i = Some info ->
        exists info', readCustomSampleBanks token info = Ok info' /\
                      nth_error result i = Some info'
    | None => True
    end /\
    ((i < k \/ k + m <= i \/ nth_error sets i = None)%nat ->
     nth_error result i = nth_error infos i).
Proof.
  revert k infos. induction m as [|m IH]; intros k infos;
    cbn [seq read_node_banks].
  - intros [= <-]. split; [reflexivity|]. intros i. split.
    + destruct (nth_error sets i); [lia | exact I].
    + reflexivity.
  - destruct (nth_error sets k) as [token|] eqn:Htok.
    + destruct (nth_error infos k) as [info|] eqn:Hinfo; [|discriminate].
      intros H. apply bind_Ok in H as (info' & Hread & H).
      apply IH in H as [Hlen Hrest]. rewrite store_length in Hlen.
      split; [exact Hlen|]. intros i.
      assert (k < length infos)%nat as Hk
        by (apply nth_error_Some; congruence).
      destruct (Hrest i) as [Hsome Hnone]. split.
      * destruct (nth_error sets i) as [tok|] eqn:Hi; [|exact I].
        intros Hrange info0 Hinfo0.
        destruct (Nat.eq_dec i k) as [->|Hne].
        -- exists info'. assert (tok = token) as -> by congruence.
           assert (info0 = info) as -> by congruence.
           split; [exact Hread|].
           rewrite Hnone by lia. now apply store_same.
        -- apply Hsome; [lia|]. rewrite store_other by congruence.
           exact Hinfo0.
      * intros Hout. rewrite Hnone.
        -- apply store_other. intros ->. destruct Hout as [?|[?|?]];
             [lia | lia | congruence].
        -- destruct Hout as [?|[?|?]];
             [left; lia | right; left; lia | right; right; assumption].
    + intros [= <-]. split; [reflexivity|]. intros i. split.
      * destruct (nth_error sets i) as [tok|] eqn:Hi; [|exact I].
        intros Hrange. exfalso.
        assert (length sets <= k)%nat by now apply nth_error_None.
        assert (i < length sets)%nat by (apply nth_error_Some; congruence).
        lia.
      * reflexivity.
Qed.

Lemma node_samples_spec (m k : nat) (types : list JS.num)
    (infos : list ISampleBankInfo.t) (ns : list (list ISampleInfo.t)) :
  node_samples (seq k m) types infos = Ok ns ->
  length ns = m /\
  forall j, (j < m)%nat ->
    exists type info,
      nth_error types (k + j) = Some type /\
      nth_error infos (k + j) = Some info /\
      nth_error ns j = Some (convertSoundType type info).
Proof.
  revert k ns. induction m as [|m IH]; intros k ns; cbn [seq node_samples].
  - intros [= <-]. split; [reflexivity | intros j Hj; lia].
  - destruct (nth_error types k) as [type|] eqn:Htype; [|discriminate].
    destruct (nth_error infos k) as [info|] eqn:Hinfo; [|discriminate].
    intros H. apply bind_Ok in H as (more & Hmore & H). injection H as <-.
    apply IH in Hmore as [Hlen Hnth]. split; [simpl; lia|].
    intros [|j] Hj.
    + exists type, info. rewrite Nat.add_0_r. auto.
    + destruct (Hnth j) as (t & i & Ht & Hi & Hn); [lia|].
      exists t, i. rewrite <- Nat.add_succ_comm. auto.
Qed.

End Loops.

Section Dispatch.

Lemma shape_bits_dispatch (split : list string) :
  let '(type, _, _) := shape_bits split in
  JS.truthy (Z.land type ConvertHitObjectType.Circle)
  = Z.testbit (type_mask split) 0 /\
  JS.truthy (Z.land type ConvertHitObjectType.Slider)
  = Z.testbit (type_mask split) 1.
Proof.
  unfold shape_bits. fold (type_mask split).
  change ConvertHitObjectType.Circle with (2 ^ 0).
  change ConvertHitObjectType.Slider with (2 ^ 1).
  rewrite !truthy_land_pow2 by lia. rewrite !Z.land_spec.
  change (Z.testbit (Z.lnot ConvertHitObjectType.ComboOffset) 0) with true.
  change (Z.testbit (Z.lnot ConvertHitObjectType.ComboOffset) 1) with true.
  change (Z.testbit (Z.lnot ConvertHitObjectType.NewCombo) 0) with true.
  change (Z.testbit (Z.lnot ConvertHitObjectType.NewCombo) 1) with true.
  now rewrite !andb_true_r.
Qed.

(** On a slider record the decoder is the slider branch followed by
    the common end. *)
Lemma parseHitObjects_slider (line : string) (parser : OsuParser) :
  let split := JS.split_trim "," line in
  is_slider_record split = true ->
  exists combo comboOffset,
    parseHitObjects line parser
    = bind (parseSlider split (pos_of split) combo comboOffset
              (JS.Number_of (nth_error split 4)))
           (finish split (JS.Number_of (nth_error split 4)) parser).
Proof.
  intros split Hslider. unfold is_slider_record in Hslider.
  apply andb_prop in Hslider as [Hc Hs]. apply negb_true_iff in Hc.
  unfold parseHitObjects. fold split.
  pose proof (shape_bits_dispatch split) as Hd.
  destruct (shape_bits split) as [[type comboOffset] combo].
  destruct Hd as [Hd0 Hd1]. rewrite Hd0, Hc, Hd1, Hs.
  now exists combo, (JS.of_Z comboOffset).
Qed.

End Dispatch.

Section Sliders.

Lemma node_fuel_value : Z.of_nat node_fuel = 9003.
Proof. unfold node_fuel. now rewrite Z2Nat.id by lia. Qed.

Lemma node_fuel_pos : (0 < node_fuel)%nat.
Proof. pose proof node_fuel_value. lia. Qed.

Lemma for_indices_NaN (fuel : nat) :
  (0 < fuel)%nat -> for_indices fuel 0 JS.NaN = Some [].
Proof. destruct fuel; [lia | reflexivity]. Qed.

(** The stored repeat count and the loop indices for a raw repeat
    field that passed the check against 9000. *)
Lemma slider_nodes (raw : JS.num) :
  JS.gtb raw (JS.of_Z 9000) = false ->
  let repeatCount := JS.max (JS.of_Z 0) (JS.sub raw (JS.of_Z 1)) in
  let nodes := JS.add repeatCount (JS.of_Z 2) in
  (raw = JS.NaN /\ repeatCount = JS.NaN /\
   for_indices node_fuel 0 nodes = Some []) \/
  (exists r,
      repeatCount = JS.Fin r /\
      match raw with
      | JS.Fin q => r == Qmax 0 (q - 1)
      | JS.NInf => r == 0
      | _ => False
      end /\
      0 <= Qceiling r /\
      for_indices node_fuel 0 nodes
      = Some (seq 0 (Z.to_nat (Qceiling r + 2)))).
Proof.
  intros Hgt. cbv zeta. destruct raw as [| | |q].
  - left. split; [reflexivity|]. split; [reflexivity|].
    apply for_indices_NaN, node_fuel_pos.
  - discriminate.
  - right. exists (inject_Z 0). split; [reflexivity|]. split; [reflexivity|].
    split; [now rewrite Qceiling_Z|].
    change (JS.add (JS.max (JS.of_Z 0) (JS.sub JS.NInf (JS.of_Z 1)))
              (JS.of_Z 2)) with (JS.Fin (inject_Z 2)).
    rewrite for_indices_fin.
    + rewrite !Qceiling_Z. reflexivity.
    + apply node_fuel_pos.
    + rewrite node_fuel_value, Qceiling_Z. lia.
  - right. apply gtb_fin in Hgt.
    destruct (sub_one q) as (x & -> & Hx).
    destruct (max_zero x) as (r & -> & Hr).
    exists r. split; [reflexivity|]. split.
    { rewrite Hr, Hx. reflexivity. }
    assert (Qceiling (Qred (r + inject_Z 2)) = Qceiling r + 2) as Hceil.
    { rewrite Qred_correct. apply Qceiling_plus_Z. }
    assert (r <= inject_Z 8999)%Q as Hbound.
    { rewrite Hr. apply Q.max_lub.
      - discriminate.
      - rewrite Hx. change (inject_Z 9000) with 9000%Q in Hgt.
        change (inject_Z 8999) with 8999%Q. lra. }
    apply Qceiling_resp_le in Hbound. rewrite Qceiling_Z in Hbound.
    assert (0 <= Qceiling r) as Hnonneg.
    { rewrite <- (Qceiling_Z 0). apply Qceiling_resp_le.
      rewrite Hr. apply Q.le_max_l. }
    split; [exact Hnonneg|].
    unfold JS.add, JS.of_Z, JS.fin. rewrite for_indices_fin.
    + rewrite Hceil. now rewrite Z.sub_0_r.
    + apply node_fuel_pos.
    + rewrite node_fuel_value, Hceil. simpl. lia.
Qed.

(** What a slider branch that returns has gone through. *)
Lemma parseSlider_Ok (split : list string) (pos : IVector2D.t)
    (combo : bool) (comboOffset soundType : JS.num)
    (h : IHitObject.t) (bankInfo : ISampleBankInfo.t) :
  parseSlider split pos combo comboOffset soundType = Ok (h, bankInfo) ->
  let raw := JS.Number_of (nth_error split 6) in
  let repeatCount := JS.max (JS.of_Z 0) (JS.sub raw (JS.of_Z 1)) in
  exists indices infos nodeSamples,
    JS.gtb raw (JS.of_Z 9000) = false /\
    match nth_error split 10 with
    | Some f => readCustomSampleBanks f ISampleBankInfo.empty
    | None => Ok ISampleBankInfo.empty
    end = Ok bankInfo /\
    for_indices node_fuel 0 (JS.add repeatCount (JS.of_Z 2)) = Some indices /\
    slider_nodeBankInfos split indices bankInfo = Ok infos /\
    node_samples indices (slider_nodeSoundTypes split indices soundType)
      infos = Ok nodeSamples /\
    IHitObject.Pos h = Some pos /\
    IHitObject.RepeatCount h = Some repeatCount /\
    IHitObject.NodeSamples h = Some nodeSamples /\
    IHitObject.Samples h
    = nth_error nodeSamples (length nodeSamples - 1).
Proof.
  unfold parseSlider. cbv zeta.
  destruct (nth_error split 5) as [path|]; [|discriminate].
  destruct (JS.gtb (JS.Number_of (nth_error split 6)) (JS.of_Z 9000)) eqn:Hgt;
    [discriminate|].
  intros H. apply bind_Ok in H as (info & Hinfo & H).
  destruct (for_indices node_fuel 0 _) as [indices|] eqn:Hidx;
    [|discriminate].
  apply bind_Ok in H as (infos & Hinfos & H).
  apply bind_Ok in H as (ns & Hns & H).
  injection H as <- <-.
  exists indices, infos, ns. repeat split; assumption.
Qed.

(** The common end pushes the object a branch has shaped. *)
Lemma finish_Ok (split : list string) (soundType : JS.num)
    (parser parser' : OsuParser) (h0 : IHitObject.t)
    (bankInfo : ISampleBankInfo.t) (pos : IVector2D.t) :
  IHitObject.Pos h0 = Some pos ->
  finish split soundType parser (h0, bankInfo) = Ok parser' ->
  exists h,
    hitObjects parser' = hitObjects parser ++ [h] /\
    IHitObject.PathType h = IHitObject.PathType h0 /\
    IHitObject.RepeatCount h = IHitObject.RepeatCount h0 /\
    IHitObject.NodeSamples h = IHitObject.NodeSamples h0 /\
    IHitObject.Samples h
    = match IHitObject.Samples h0 with
      | Some samples => Some samples
      | None => Some (convertSoundType soundType bankInfo)
      end.
Proof.
  intros Hpos. unfold finish, IHitObject.no_keys. rewrite Hpos.
  intros [= <-]. eexists. split; [reflexivity|]. repeat split.
Qed.

Lemma nth_error_before {A : Type} (l : list A) (i j : nat) (a : A) :
  nth_error l j = Some a -> (i <= j)%nat -> exists b, nth_error l i = Some b.
Proof.
  intros Hj Hle.
  assert (j < length l)%nat by (apply nth_error_Some; congruence).
  destruct (nth_error l i) as [b|] eqn:Hi; [now exists b|].
  apply nth_error_None in Hi. lia.
Qed.

(** A repeat field above 9000 makes the slider branch throw. *)
Lemma parseSlider_too_high (split : list string) (pos : IVector2D.t)
    (combo : bool) (comboOffset soundType : JS.num) :
  JS.gtb (JS.Number_of (nth_error split 6)) (JS.of_Z 9000) = true ->
  parseSlider split pos combo comboOffset soundType
  = Throw JS.RepeatCountTooHigh.
Proof.
  intros Hgt. unfold parseSlider.
  destruct (nth_error split 6) as [f|] eqn:H6; [|discriminate].
  destruct (nth_error_before split 5 6 f H6) as [path ->]; [lia|].
  cbv zeta. now rewrite Hgt.
Qed.

End Sliders.

(** C2, amended.  On a slider record whose repeat field exceeds 9000
    the decoder throws the repeat-count error, which ends the run; on
    any other slider record that is emitted, the stored repeat count is
    [Math.max(0, raw - 1)]: not-a-number for a field that is no number,
    and the rational [max 0 (q - 1)] for a finite [q]. *)
Theorem C2_repeat_count (line : string) (parser : OsuParser) :
  let split := JS.split_trim "," line in
  let raw := JS.Number_of (nth_error split 6) in
  is_slider_record split = true ->
  (JS.gtb raw (JS.of_Z 9000) = true ->
   parseHitObjects line parser = Throw JS.RepeatCountTooHigh /\
   (currentSection parser = "HitObjects" ->
    JS.startsWith "[" line = false ->
    forall rest, run (line :: rest) parser = Throw JS.RepeatCountTooHigh)) /\
  (JS.gtb raw (JS.of_Z 9000) = false ->
   forall parser',
     parseHitObjects line parser = Ok parser' ->
     exists h,
       hitObjects parser' = hitObjects parser ++ [h] /\
       IHitObject.RepeatCount h
       = Some (JS.max (JS.of_Z 0) (JS.sub raw (JS.of_Z 1))) /\
       (raw = JS.NaN -> IHitObject.RepeatCount h = Some JS.NaN) /\
       (forall q, raw = JS.Fin q ->
          exists r, IHitObject.RepeatCount h = Some (JS.Fin r) /\
                    r == Qmax 0 (q - 1))).
Proof.
  intros split raw Hslider.
  destruct (parseHitObjects_slider line parser Hslider)
    as (combo & comboOffset & Hdecode).
  fold split in Hdecode. split.
  - intros Hgt.
    assert (parseHitObjects line parser = Throw JS.RepeatCountTooHigh)
      as Hthrow.
    { rewrite Hdecode, parseSlider_too_high by exact Hgt. reflexivity. }
    split; [exact Hthrow|]. intros Hsec Hstart rest.
    cbn [run]. unfold parse, parseLine. rewrite Hstart, Hsec.
    cbn [parsers String.eqb Ascii.eqb Bool.eqb]. simpl parsers.
    now rewrite Hthrow.
  - intros Hgt parser' Hparse. rewrite Hdecode in Hparse.
    apply bind_Ok in Hparse as ([h0 bankInfo] & Hslide & Hfinish).
    apply parseSlider_Ok in Hslide
      as (indices & infos & ns & _ & _ & _ & _ & _ & Hpos & Hrc & _).
    destruct (finish_Ok _ _ _ _ _ _ _ Hpos Hfinish)
      as (h & Hpush & _ & Hrc' & _).
    exists h. split; [exact Hpush|]. rewrite Hrc', Hrc. fold raw.
    split; [reflexivity|]. split.
    + intros ->. reflexivity.
    + intros q Hq.
      destruct (slider_nodes raw Hgt) as [(Hnan & _)|(r & Hr & Hmax & _)].
      * congruence.
      * exists r. rewrite Hr. split; [reflexivity|].
        rewrite Hq in Hmax. exact Hmax.
Qed.

(** Repeat field 9001 throws; repeat field 3 stores 2. *)
Lemma C2_repeat_count_witness :
  parseHitObjects "0,0,0,2,0,L|1:1,9001" constructor
  = Throw JS.RepeatCountTooHigh /\
  exists parser h,
    parseHitObjects "0,0,0,2,0,L|1:1,3" constructor = Ok parser /\
    hitObjects parser = [h] /\
    IHitObject.RepeatCount h = Some (JS.of_Z 2).
Proof.
  split.
  - apply (proj1 (C2_repeat_count "0,0,0,2,0,L|1:1,9001" constructor
                    eq_refl)).
    reflexivity.
  - destruct (parseHitObjects "0,0,0,2,0,L|1:1,3" constructor)
      as [parser|e|] eqn:Hparse;
      [| vm_compute in Hparse; discriminate
       | vm_compute in Hparse; discriminate ].
    destruct (proj2 (C2_repeat_count "0,0,0,2,0,L|1:1,3" constructor eq_refl)
                eq_refl parser Hparse)
      as (h & Hpush & Hcount & _).
    exists parser, h. repeat split; assumption.
Defined.

(** The repeat-count error is not the only failure: a slider record
    with repeat field 1 whose sample-bank token names the bank 5 ends
    the run with a [TypeError]. *)
Lemma C2_counterexample :
  let line := "0,0,0,2,0,L|1:1,1,10,0|0,0:0|0:0,5:0:0:0:" in
  is_slider_record (JS.split_trim "," line) = true /\
  JS.Number_of (nth_error (JS.split_trim "," line) 6) = JS.of_Z 1 /\
  parse line (with_section "HitObjects" constructor) = Throw JS.TypeError /\
  JS.TypeError <> JS.RepeatCountTooHigh.
Proof.
  repeat split. discriminate.
Qed.

Section NodeCounts.


End NodeCounts.

Section NodeBanks.

Lemma nth_error_copies {A B : Type} (b : B) (l : list A) (i : nat) :
  (i < length l)%nat -> nth_error (map (fun _ => b) l) i = Some b.
Proof.
  intros Hi. rewrite nth_error_map.
  destruct (nth_error l i) eqn:E; [reflexivity|].
  apply nth_error_None in E. lia.
Qed.

Lemma slider_nodeBankInfos_spec (split : list string) (n : nat)
    (bankInfo : ISampleBankInfo.t) (infos : list ISampleBankInfo.t) :
  slider_nodeBankInfos split (seq 0 n) bankInfo = Ok infos ->
  length infos = n /\
  forall i, (i < n)%nat ->
    match per_node_token split i with
    | Some token =>
        exists info, readCustomSampleBanks token bankInfo = Ok info /\
                     nth_error infos i = Some info
    | None => nth_error infos i = Some bankInfo
    end.
Proof.
  unfold slider_nodeBankInfos, per_node_token.
  assert (forall i, (i < n)%nat ->
            nth_error (map (fun _ => bankInfo) (seq 0 n)) i = Some bankInfo)
    as Hcopies.
  { intros i Hi. apply nth_error_copies. now rewrite length_seq. }
  assert (length (map (fun _ : nat => bankInfo) (seq 0 n)) = n) as Hlen
    by now rewrite length_map, length_seq.
  destruct (nth_error split 9) as [[|c f]|].
  - intros [= <-]. split; [exact Hlen | exact Hcopies].
  - intros H. apply read_node_banks_spec in H as [Hl Hspec].
    split; [congruence|]. intros i Hi. destruct (Hspec i) as [Hsome Hnone].
    destruct (nth_error (JS.split_trim "|" (String c f)) i) as [token|].
    + apply Hsome; [lia|]. now apply Hcopies.
    + rewrite Hnone by auto. now apply Hcopies.
  - intros [= <-]. split; [exact Hlen | exact Hcopies].
Qed.

Lemma longer_than_nth {A : Type} (k : nat) (l : list A) :
  (if longer_than k l then nth_error l k else None) = nth_error l k.
Proof.
  unfold longer_than. destruct (Nat.ltb_spec k (length l)) as [H|H].
  - reflexivity.
  - symmetry. now apply nth_error_None.
Qed.

Lemma longer_than_field {A : Type} (k : nat) (l : list string)
    (f : option string -> A) (d : option A) :
  (if longer_than k l then Some (f (nth_error l k)) else d)
  = match nth_error l k with
    | Some s => Some (f (Some s))
    | None => d
    end.
Proof.
  unfold longer_than. destruct (Nat.ltb_spec k (length l)) as [H|H].
  - destruct (nth_error l k) eqn:E; [reflexivity|].
    apply nth_error_None in E. lia.
  - apply nth_error_None in H. now rewrite H.
Qed.

(** A token read onto a bank info: banks and file name are the
    token's, custom sample bank and volume are the token's when it
    has them and are kept otherwise. *)
Lemma readCustomSampleBanks_onto (token : string)
    (base info : ISampleBankInfo.t) :
  readCustomSampleBanks token base = Ok info ->
  let fields := JS.split_trim ":" token in
  (exists fresh,
      readCustomSampleBanks token ISampleBankInfo.empty = Ok fresh /\
      ISampleBankInfo.Normal info = ISampleBankInfo.Normal fresh /\
      ISampleBankInfo.Add info = ISampleBankInfo.Add fresh) /\
  ISampleBankInfo.Filename info = nth_error fields 4 /\
  ISampleBankInfo.CustomSampleBank info
  = match nth_error fields 2 with
    | Some f => Some (JS.Number f)
    | None => ISampleBankInfo.CustomSampleBank base
    end /\
  ISampleBankInfo.Volume info
  = match nth_error fields 3 with
    | Some f => Some (JS.Number f)
    | None => ISampleBankInfo.Volume base
    end.
Proof.
  unfold readCustomSampleBanks. cbv zeta. intros H.
  apply bind_Ok in H as (s & Hs & H). apply bind_Ok in H as (a & Ha & H).
  injection H as <-. rewrite Hs, Ha. cbn [bind].
  split; [eexists; split; [reflexivity|]; split; reflexivity|].
  cbn [ISampleBankInfo.Filename ISampleBankInfo.CustomSampleBank
       ISampleBankInfo.Volume].
  split; [exact (longer_than_nth 4 _)|].
  split.
  - exact (longer_than_field 2 _ JS.Number_of _).
  - exact (longer_than_field 3 _ JS.Number_of _).
Qed.

End NodeBanks.

(** C7, amended.  The node samples of an emitted slider are expanded
    from one bank info per node.  A node without a token in field 9 has
    the default bank info (field 10 read onto the empty one).  A node
    with a token has the token read onto its copy of the default: the
    banks and the file name are the token's, the custom sample bank and
    the volume are the token's where the token has them and the
    default's where it has not. *)
Theorem C7_node_bank_overlay (line : string) (parser parser' : OsuParser) :
  let split := JS.split_trim "," line in
  is_slider_record split = true ->
  parseHitObjects line parser = Ok parser' ->
  exists h nodeSamples default infos,
    hitObjects parser' = hitObjects parser ++ [h] /\
    IHitObject.NodeSamples h = Some nodeSamples /\
    default_bankInfo split = Ok default /\
    length infos = length nodeSamples /\
    forall i info,
      nth_error infos i = Some info ->
      (exists sound,
          nth_error nodeSamples i = Some (convertSoundType sound info)) /\
      match per_node_token split i with
      | None => info = default
      | Some token =>
          let fields := JS.split_trim ":" token in
          readCustomSampleBanks token default = Ok info /\
          (exists fresh,
              readCustomSampleBanks token ISampleBankInfo.empty = Ok fresh /\
              ISampleBankInfo.Normal info = ISampleBankInfo.Normal fresh /\
              ISampleBankInfo.Add info = ISampleBankInfo.Add fresh) /\
          ISampleBankInfo.Filename info = nth_error fields 4 /\
          ISampleBankInfo.CustomSampleBank info
          = match nth_error fields 2 with
            | Some f => Some (JS.Number f)
            | None => ISampleBankInfo.CustomSampleBank default
            end /\
          ISampleBankInfo.Volume info
          = match nth_error fields 3 with
            | Some f => Some (JS.Number f)
            | None => ISampleBankInfo.Volume default
            end
      end.
Proof.
  intros split Hslider Hparse.
  destruct (parseHitObjects_slider line parser Hslider)
    as (combo & comboOffset & Hdecode).
  fold split in Hdecode. rewrite Hdecode in Hparse.
  apply bind_Ok in Hparse as ([h0 default] & Hslide & Hfinish).
  apply parseSlider_Ok in Hslide
    as (indices & infos & ns & Hgt & Hdefault & Hidx & Hinfos & Hns & Hpos
        & _ & Hnodes & _).
  destruct (finish_Ok _ _ _ _ _ _ _ Hpos Hfinish)
    as (h & Hpush & _ & _ & Hnodes' & _).
  assert (exists n, indices = seq 0 n) as [n ->].
  { destruct (slider_nodes _ Hgt) as [(_ & _ & Hseq)|(r & _ & _ & _ & Hseq)];
      rewrite Hseq in Hidx; injection Hidx as <-;
      [now exists O | eauto]. }
  apply slider_nodeBankInfos_spec in Hinfos as [Hlen Hspec].
  apply node_samples_spec in Hns as [Hlen' Hnth].
  exists h, ns, default, infos.
  split; [exact Hpush|]. split; [congruence|]. split; [exact Hdefault|].
  split; [congruence|]. intros i info Hi.
  assert (i < n)%nat as Hrange.
  { rewrite <- Hlen. apply nth_error_Some. congruence. }
  split.
  - destruct (Hnth i Hrange) as (sound & info' & _ & Hinfo' & Hsample).
    simpl in Hinfo'. exists sound. congruence.
  - specialize (Hspec i Hrange).
    destruct (per_node_token split i) as [token|].
    + destruct Hspec as (info' & Hread & Hinfo').
      assert (info' = info) as -> by congruence.
      split; [exact Hread|]. now apply readCustomSampleBanks_onto.
    + congruence.
Qed.

(** Default token ["1:1:5:70:"], node tokens ["2:2"]: both nodes play
    the soft bank with the custom sample bank 5 and the volume 70 of
    the default. *)
Lemma C7_node_bank_overlay_witness :
  let line := "0,0,0,2,0,L|1:1,1,10,0|0,2:2|2:2,1:1:5:70:" in
  exists parser h nodeSamples,
    parseHitObjects line constructor = Ok parser /\
    hitObjects parser = [h] /\
    IHitObject.NodeSamples h = Some nodeSamples /\
    length nodeSamples = 2%nat.
Proof.
  cbv zeta.
  destruct (parseHitObjects "0,0,0,2,0,L|1:1,1,10,0|0,2:2|2:2,1:1:5:70:"
              constructor) as [parser|e|] eqn:Hparse;
    [| vm_compute in Hparse; discriminate
     | vm_compute in Hparse; discriminate ].
  destruct (C7_node_bank_overlay
              "0,0,0,2,0,L|1:1,1,10,0|0,2:2|2:2,1:1:5:70:" constructor parser
              eq_refl Hparse)
    as (h & nodeSamples & default & infos & Hpush & Hnodes & _).
  exists parser, h, nodeSamples.
  split; [reflexivity|]. split; [exact Hpush|]. split; [exact Hnodes|].
  vm_compute in Hparse. injection Hparse as <-.
  injection Hpush as <-. injection Hnodes as <-. reflexivity.
Defined.

(** The token of a node does not replace the node's bank info
    entirely.  The token ["2:2"] has neither custom index nor volume,
    and read on its own it yields none; the node samples of the record
    carry the custom sample bank 5 and the volume 70 of the default. *)
Lemma C7_counterexample :
  let line := "0,0,0,2,0,L|1:1,1,10,0|0,2:2|2:2,1:1:5:70:" in
  exists parser h fresh,
    per_node_token (JS.split_trim "," line) 0 = Some "2:2" /\
    readCustomSampleBanks "2:2" ISampleBankInfo.empty = Ok fresh /\
    ISampleBankInfo.CustomSampleBank fresh = None /\
    ISampleBankInfo.Volume fresh = None /\
    parseHitObjects line constructor = Ok parser /\
    hitObjects parser = [h] /\
    IHitObject.NodeSamples h
    = Some [ [ ISampleInfo.mk None (Some "soft") (Some "hitnormal")
                 (Some (JS.of_Z 70)) (Some (JS.of_Z 5)) ];
             [ ISampleInfo.mk None (Some "soft") (Some "hitnormal")
                 (Some (JS.of_Z 70)) (Some (JS.of_Z 5)) ] ] /\
    IHitObject.NodeSamples h
    <> Some [ convertSoundType (JS.of_Z 0) fresh;
              convertSoundType (JS.of_Z 0) fresh ].
Proof.
  cbv zeta. eexists. eexists. eexists.
  split; [reflexivity|]. split; [reflexivity|]. split; [reflexivity|].
  split; [reflexivity|]. split; [vm_compute; reflexivity|].
  split; [reflexivity|]. split; [reflexivity|]. discriminate.
Qed.

Section Banks.

Lemma bank_toLowerCase_cases (k : JS.value) :
  (exists s, bank_toLowerCase k = Ok s) \/
  bank_toLowerCase k = Throw JS.TypeError.
Proof.
  unfold bank_toLowerCase. destruct (LegacySampleBank.get k); eauto.
Qed.



End Banks.

Section Router.

Lemma word_run_spec (s w rest : string) :
  word_run s = (w, rest) ->
  s = (w ++ rest)%string /\ all_word w = true /\
  match rest with
  | String c _ => is_word c = false
  | EmptyString => True
  end.
Proof.
  revert w rest. induction s as [|c r IH]; intros w rest; cbn [word_run].
  - intros [= <- <-]. repeat split.
  - destruct (is_word c) eqn:Hc.
    + destruct (word_run r) as [w' rest'] eqn:Hrun. intros [= <- <-].
      destruct (IH w' rest' eq_refl) as (-> & Hw & Hrest).
      repeat split; [simpl; now rewrite Hc | exact Hrest].
    + intros [= <- <-]. repeat split. exact Hc.
Qed.

Lemma word_run_complete (w rest : string) :
  all_word w = true ->
  match rest with
  | String c _ => is_word c = false
  | EmptyString => True
  end ->
  word_run (w ++ rest) = (w, rest).
Proof.
  intros Hw Hrest. induction w as [|c w IH]; cbn [append word_run].
  - destruct rest as [|c r]; [reflexivity|]. cbn [word_run].
    now rewrite Hrest.
  - simpl in Hw. apply andb_prop in Hw as [Hc Hw].
    rewrite Hc, (IH Hw). reflexivity.
Qed.

(** A line matches at its head when it is a bracket, a non-empty
    word, a bracket, and anything. *)
Lemma match_here_spec (s token : string) :
  match_here s = Some token <->
  token <> EmptyString /\ all_word token = true /\
  exists post, s = ("[" ++ token ++ "]" ++ post)%string.
Proof.
  unfold match_here. split.
  - destruct s as [|c r]; [discriminate|].
    destruct (Ascii.eqb_spec c "[") as [->|Hne].
    + destruct (word_run r) as [w rest] eqn:Hrun.
      apply word_run_spec in Hrun as (-> & Hw & _).
      destruct w as [|d w]; [discriminate|].
      destruct rest as [|e post]; [discriminate|].
      destruct (Ascii.eqb_spec e "]") as [->|Hne].
      * intros [= <-]. split; [discriminate|]. split; [exact Hw|].
        now exists post.
      * intros H. exfalso. revert H.
        destruct e as [[] [] [] [] [] [] [] []]; try discriminate.
        congruence.
    + intros H. exfalso. revert H.
      destruct c as [[] [] [] [] [] [] [] []]; try discriminate.
      congruence.
  - intros (Hne & Hw & post & ->). cbn [append].
    rewrite (word_run_complete token (String "]" post)) by (auto; reflexivity).
    destruct token; [congruence | reflexivity].
Qed.

(** [section_of] finds a token exactly when the pattern matches
    somewhere in the line. *)
Lemma section_of_sound (line token : string) :
  section_of line = Some token ->
  token <> EmptyString /\ all_word token = true /\
  exists pre post, line = (pre ++ "[" ++ token ++ "]" ++ post)%string.
Proof.
  induction line as [|c r IH]; cbn [section_of].
  - destruct (match_here EmptyString) eqn:E; [|discriminate].
    intros [= ->]. apply match_here_spec in E as (Hne & Hw & post & Hpost).
    discriminate.
  - destruct (match_here (String c r)) as [t|] eqn:E.
    + intros [= ->]. apply match_here_spec in E as (Hne & Hw & post & ->).
      split; [exact Hne|]. split; [exact Hw|]. now exists EmptyString, post.
    + intros H. destruct (IH H) as (Hne & Hw & pre & post & ->).
      split; [exact Hne|]. split; [exact Hw|].
      now exists (String c pre), post.
Qed.

Lemma section_of_complete (line : string) :
  section_of line = None ->
  forall pre token post,
    token <> EmptyString -> all_word token = true ->
    line <> (pre ++ "[" ++ token ++ "]" ++ post)%string.
Proof.
  induction line as [|c r IH]; cbn [section_of].
  - intros _ [|d pre] token post _ _; discriminate.
  - destruct (match_here (String c r)) as [t|] eqn:E; [discriminate|].
    intros H [|d pre] token post Hne Hw Heq.
    + assert (match_here (String c r) = Some token) as Hm.
      { apply match_here_spec. split; [exact Hne|]. split; [exact Hw|].
        now exists post. }
      congruence.
    + injection Heq as _ Heq. exact (IH H pre token post Hne Hw Heq).
Qed.

End Router.

(** C8, amended.  A line that starts with a bracket never reaches a
    decoder: when the pattern matches somewhere in it the current
    section becomes the token found and nothing else changes, and when
    it does not the parser is left as it was.  A line that does not
    start with a bracket goes to the decoder of the current section,
    General, Difficulty, TimingPoints or HitObjects; under any other
    section name the document is left as it was (the call returns,
    unless the name is that of a member inherited from
    [Object.prototype], which may make it throw). *)
Theorem C8_router (line : string) (parser : OsuParser) :
  (JS.startsWith "[" line = true ->
   (forall token,
       section_of line = Some token ->
       parse line parser = Ok (with_section token parser) /\
       token <> EmptyString /\ all_word token = true /\
       exists pre post, line = (pre ++ "[" ++ token ++ "]" ++ post)%string) /\
   (section_of line = None ->
    parse line parser = Ok parser /\
    forall pre token post,
      token <> EmptyString -> all_word token = true ->
      line <> (pre ++ "[" ++ token ++ "]" ++ post)%string)) /\
  (JS.startsWith "[" line = false ->
   (currentSection parser = "General" ->
    parse line parser = parseGeneral line parser) /\
   (currentSection parser = "Difficulty" ->
    parse line parser = parseDifficulty line parser) /\
   (currentSection parser = "TimingPoints" ->
    parse line parser = parseTimingPoint line parser) /\
   (currentSection parser = "HitObjects" ->
    parse line parser = parseHitObjects line parser) /\
   (currentSection parser <> "General" ->
    currentSection parser <> "Difficulty" ->
    currentSection parser <> "TimingPoints" ->
    currentSection parser <> "HitObjects" ->
    (JS.inherited (currentSection parser) = false ->
     parse line parser = Ok parser) /\
    (parse line parser = Ok parser \/
     parse line parser = Throw JS.TypeError))).
Proof.
  split.
  - intros Hstart. unfold parse, parseSection. rewrite Hstart. split.
    + intros token Htoken. rewrite Htoken. split; [reflexivity|].
      now apply section_of_sound.
    + intros Hnone. rewrite Hnone. split; [reflexivity|].
      now apply section_of_complete.
  - intros Hstart. unfold parse, parseLine. rewrite Hstart.
    split; [now intros ->|]. split; [now intros ->|].
    split; [now intros ->|]. split; [now intros ->|].
    intros Hg Hd Ht Hh. unfold parsers.
    apply String.eqb_neq in Hg, Hd, Ht, Hh.
    rewrite Hg, Hd, Ht, Hh. split.
    + now intros ->.
    + destruct (JS.inherited (currentSection parser)); [|now left].
      destruct (JS.builtin_call_returns (currentSection parser)); auto.
Qed.

(** The header of the hit objects, and a line under an unknown
    section *)
Lemma C8_router_witness :
  parse "[HitObjects]" constructor = Ok (with_section "HitObjects" constructor)
  /\
  parse "0,500" (with_section "Events" constructor)
  = Ok (with_section "Events" constructor).
Proof.
  split.
  - apply (proj1 (proj1 (C8_router "[HitObjects]" constructor) eq_refl)
             "HitObjects" eq_refl).
  - apply (proj2 (proj2 (proj2 (proj2 (proj2
             (C8_router "0,500" (with_section "Events" constructor))
             eq_refl)))));
      try discriminate.
    reflexivity.
Defined.

(** A line that starts with a bracket and does not match the pattern is
    not forwarded: under TimingPoints the decoder would have emitted a
    point for ["[0,500"], the router drops the line. *)
Lemma C8_counterexample :
  let parser := with_section "TimingPoints" constructor in
  JS.startsWith "[" "[0,500" = true /\
  section_of "[0,500" = None /\
  parse "[0,500" parser = Ok parser /\
  parseTimingPoint "[0,500" parser <> Ok parser.
Proof.
  cbv zeta. repeat split. discriminate.
Qed.

Section Totality.

Lemma bind_fuel {A B : Type} (m : outcome A) (k : A -> outcome B) :
  m <> OutOfFuel -> (forall a, k a <> OutOfFuel) -> bind m k <> OutOfFuel.
Proof.
  intros Hm Hk. destruct m as [a|e|]; simpl; [apply Hk | discriminate |].
  contradiction.
Qed.

Lemma bank_toLowerCase_fuel (k : JS.value) : bank_toLowerCase k <> OutOfFuel.
Proof.
  destruct (bank_toLowerCase_cases k) as [[s ->] | ->]; discriminate.
Qed.

Lemma readCustomSampleBanks_fuel (line : string)
    (bankInfo : ISampleBankInfo.t) :
  readCustomSampleBanks line bankInfo <> OutOfFuel.
Proof.
  unfold readCustomSampleBanks. cbv zeta.
  apply bind_fuel; [apply bank_toLowerCase_fuel|]. intros s.
  apply bind_fuel; [apply bank_toLowerCase_fuel|]. discriminate.
Qed.

Lemma read_node_banks_fuel (indices : list nat) (sets : list string)
    (infos : list ISampleBankInfo.t) :
  read_node_banks indices sets infos <> OutOfFuel.
Proof.
  revert infos. induction indices as [|i rest IH]; intros infos;
    cbn [read_node_banks]; [discriminate|].
  destruct (nth_error sets i); [|discriminate].
  destruct (nth_error infos i); [|discriminate].
  apply bind_fuel; [apply readCustomSampleBanks_fuel | intros a; apply IH].
Qed.

Lemma node_samples_fuel (indices : list nat) (types : list JS.num)
    (infos : list ISampleBankInfo.t) :
  node_samples indices types infos <> OutOfFuel.
Proof.
  induction indices as [|i rest IH]; cbn [node_samples]; [discriminate|].
  destruct (nth_error types i); [|discriminate].
  destruct (nth_error infos i); [|discriminate].
  apply bind_fuel; [exact IH | discriminate].
Qed.

Lemma parseSlider_fuel (split : list string) (pos : IVector2D.t)
    (combo : bool) (comboOffset soundType : JS.num) :
  parseSlider split pos combo comboOffset soundType <> OutOfFuel.
Proof.
  unfold parseSlider. cbv zeta.
  destruct (nth_error split 5); [|discriminate].
  destruct (JS.gtb (JS.Number_of (nth_error split 6)) (JS.of_Z 9000))
    eqn:Hgt; [discriminate|].
  apply bind_fuel.
  { destruct (nth_error split 10);
      [apply readCustomSampleBanks_fuel | discriminate]. }
  intros bankInfo.
  destruct (slider_nodes _ Hgt) as [(_ & _ & ->)|(r & _ & _ & _ & ->)];
    (apply bind_fuel;
     [ unfold slider_nodeBankInfos;
       destruct (nth_error split 9) as [[|c f]|];
       try discriminate; apply read_node_banks_fuel
     | intros infos; apply bind_fuel;
       [apply node_samples_fuel | discriminate] ]).
Qed.

Lemma parseHitObjects_fuel (line : string) (parser : OsuParser) :
  parseHitObjects line parser <> OutOfFuel.
Proof.
  unfold parseHitObjects. cbv zeta.
  destruct (shape_bits (JS.split_trim "," line)) as [[type comboOffset] combo].
  apply bind_fuel.
  - destruct (JS.truthy (Z.land type ConvertHitObjectType.Circle)).
    + unfold parseCircle. apply bind_fuel; [|discriminate].
      destruct (nth_error (JS.split_trim "," line) 5);
        [apply readCustomSampleBanks_fuel | discriminate].
    + destruct (JS.truthy (Z.land type ConvertHitObjectType.Slider));
        [apply parseSlider_fuel|].
      destruct (JS.truthy (Z.land type ConvertHitObjectType.Spinner));
        [discriminate|].
      destruct (JS.truthy (Z.land type ConvertHitObjectType.Hold));
        discriminate.
  - intros [result bankInfo]. unfold finish.
    destruct (IHitObject.no_keys result); discriminate.
Qed.

Lemma parseTimingPoint_fuel (line : string) (parser : OsuParser) :
  parseTimingPoint line parser <> OutOfFuel.
Proof.
  unfold parseTimingPoint. cbv zeta.
  destruct (length (JS.split_trim "," line) <? 2)%nat; [discriminate|].
  destruct (nth_error (JS.split_trim "," line) 7);
    (apply bind_fuel; [apply bank_toLowerCase_fuel | discriminate]).
Qed.

(** The bound on the loops is never reached: every call of [parse]
    returns or throws. *)
Theorem parse_total (line : string) (parser : OsuParser) :
  parse line parser <> OutOfFuel.
Proof.
  unfold parse, parseSection, parseLine, parsers.
  destruct (JS.startsWith "[" line).
  - destruct (section_of line); discriminate.
  - destruct (currentSection parser =? "General")%string.
    { unfold parseGeneral.
      destruct (JS.split_trim ":" line) as [|k [|v [|x r]]]; discriminate. }
    destruct (currentSection parser =? "Difficulty")%string.
    { unfold parseDifficulty.
      destruct (JS.split_trim ":" line) as [|k [|v [|x r]]]; discriminate. }
    destruct (currentSection parser =? "TimingPoints")%string;
      [apply parseTimingPoint_fuel|].
    destruct (currentSection parser =? "HitObjects")%string;
      [apply parseHitObjects_fuel|].
    destruct (JS.inherited (currentSection parser)); [|discriminate].
    destruct (JS.builtin_call_returns (currentSection parser));
      discriminate.
Qed.

Theorem run_total (lines : list string) (parser : OsuParser) :
  run lines parser <> OutOfFuel.
Proof.
  revert parser. induction lines as [|line rest IH]; intros parser;
    cbn [run]; [discriminate|].
  apply bind_fuel; [apply parse_total | exact IH].
Qed.

End Totality.

(* ================================================================== *)
(** * Key-value lines and timing points, further *)
(* ================================================================== *)

Section ObjectFacts.

Context {V : Type}.

Lemma obj_get_put_same (key : string) (v : V) (o : list (string * V)) :
  JS.obj_get key (JS.obj_put key v o) = Some v.
Proof.
  induction o as [|[k w] r IH]; simpl.
  - now rewrite String.eqb_refl.
  - destruct (String.eqb k key) eqn:E; simpl; rewrite E; auto.
Qed.

Lemma obj_get_put_other (key other : string) (v : V) (o : list (string * V)) :
  other <> key ->
  JS.obj_get other (JS.obj_put key v o) = JS.obj_get other o.
Proof.
  intros Hne. induction o as [|[k w] r IH]; simpl.
  - destruct (String.eqb_spec key other); [congruence | reflexivity].
  - destruct (String.eqb_spec k key) as [->|Hk]; simpl.
    + destruct (String.eqb_spec key other); [congruence | reflexivity].
    + destruct (String.eqb k other); auto.
Qed.

Lemma obj_get_set_same (key : string) (v : V) (o : list (string * V)) :
  key <> "__proto__" -> JS.obj_get key (JS.obj_set key v o) = Some v.
Proof.
  intros Hne. unfold JS.obj_set.
  destruct (String.eqb_spec key "__proto__"); [congruence|].
  apply obj_get_put_same.
Qed.

Lemma obj_get_set_other (key other : string) (v : V) (o : list (string * V)) :
  other <> key ->
  JS.obj_get other (JS.obj_set key v o) = JS.obj_get other o.
Proof.
  intros Hne. unfold JS.obj_set.
  destruct (String.eqb key "__proto__"); [reflexivity|].
  now apply obj_get_put_other.
Qed.

End ObjectFacts.

(** A General line [key: value] with a key other than SampleSet and
    __proto__ always returns; afterwards the key reads as the number
    the value stands for, or as the value itself when it stands for
    none, every other key reads as before, and the rest of the parser
    is as it was. *)
Theorem parseGeneral_stores (line key value : string) (parser : OsuParser) :
  JS.split_trim ":" line = [key; value] ->
  key <> "SampleSet" ->
  key <> "__proto__" ->
  exists parser',
    parseGeneral line parser = Ok parser' /\
    JS.obj_get key (general parser') = Some (coerced value) /\
    (forall other, other <> key ->
       JS.obj_get other (general parser')
       = JS.obj_get other (general parser)) /\
    currentSection parser' = currentSection parser /\
    difficulty parser' = difficulty parser /\
    timingPoints parser' = timingPoints parser /\
    hitObjects parser' = hitObjects parser.
Proof.
  intros Hsplit Hss Hproto. unfold parseGeneral. rewrite Hsplit.
  apply String.eqb_neq in Hss. rewrite Hss.
  eexists. split; [reflexivity|]. cbn [general currentSection difficulty
    timingPoints hitObjects].
  split.
  - rewrite obj_get_set_same by exact Hproto. unfold coerced.
    destruct (JS.Number value); reflexivity.
  - split; [|repeat split].
    intros other Hother. now apply obj_get_set_other.
Qed.

Lemma parseGeneral_stores_witness :
  exists parser',
    parseGeneral "AudioLeadIn: 1500" constructor = Ok parser' /\
    JS.obj_get "AudioLeadIn" (general parser')
    = Some (JS.VNumber (JS.of_Z 1500)) /\
    JS.obj_get "AudioFilename" (general parser')
    = Some (JS.VString EmptyString).
Proof.
  destruct (parseGeneral_stores "AudioLeadIn: 1500" "AudioLeadIn" "1500"
              constructor eq_refl)
    as (parser' & Hparse & Hget & Hother & _); try discriminate.
  exists parser'. split; [exact Hparse|]. split; [exact Hget|].
  rewrite Hother by discriminate. reflexivity.
Defined.

(** A Difficulty line [key: value] with a key other than __proto__
    always returns; afterwards the key reads as [Number(value)], which
    is not-a-number for a value that is no number, every other key
    reads as before, and the rest of the parser is as it was. *)
Theorem parseDifficulty_stores (line key value : string) (parser : OsuParser) :
  JS.split_trim ":" line = [key; value] ->
  key <> "__proto__" ->
  exists parser',
    parseDifficulty line parser = Ok parser' /\
    JS.obj_get key (difficulty parser') = Some (JS.Number value) /\
    (forall other, other <> key ->
       JS.obj_get other (difficulty parser')
       = JS.obj_get other (difficulty parser)) /\
    currentSection parser' = currentSection parser /\
    general parser' = general parser /\
    timingPoints parser' = timingPoints parser /\
    hitObjects parser' = hitObjects parser.
Proof.
  intros Hsplit Hproto. unfold parseDifficulty. rewrite Hsplit.
  eexists. split; [reflexivity|]. cbn [general currentSection difficulty
    timingPoints hitObjects].
  split; [now apply obj_get_set_same|].
  split; [|repeat split].
  intros other Hother. now apply obj_get_set_other.
Qed.

Lemma parseDifficulty_stores_witness :
  exists parser',
    parseDifficulty "SliderMultiplier:1.4" constructor = Ok parser' /\
    JS.obj_get "SliderMultiplier" (difficulty parser')
    = Some (JS.Fin (7 # 5)) /\
    JS.obj_get "CircleSize" (difficulty parser') = Some (JS.of_Z 0).
Proof.
  destruct (parseDifficulty_stores "SliderMultiplier:1.4" "SliderMultiplier"
              "1.4" constructor eq_refl)
    as (parser' & Hparse & Hget & Hother & _); try discriminate.
  exists parser'. split; [exact Hparse|]. split; [exact Hget|].
  rewrite Hother by discriminate. reflexivity.
Defined.

(** A timing-point line without a comma, the empty line included, has
    fewer than two fields and is dropped: the parser is returned as it
    was, whatever the sample set. *)
Theorem timing_point_short_record_ignored (line : string)
    (parser : OsuParser) :
  count_char "," line = 0%nat ->
  parseTimingPoint line parser = Ok parser.
Proof.
  intros Hcount. unfold parseTimingPoint. cbv zeta.
  rewrite split_trim_length, Hcount. reflexivity.
Qed.

Lemma timing_point_short_record_ignored_witness :
  parseTimingPoint EmptyString constructor = Ok constructor /\
  parseTimingPoint "1000" constructor = Ok constructor.
Proof.
  split; apply timing_point_short_record_ignored; reflexivity.
Defined.

(** A timing-point record whose field 3 is one of the bank indices 0 to
    3 is always emitted, and its point shows the bank by name: "soft"
    for 2, "drum" for 3, and "normal" for 1 and for 0. *)
Theorem timing_point_known_bank_emitted (line field : string) (z : Z)
    (parser : OsuParser) :
  nth_error (JS.split_trim "," line) 3 = Some field ->
  JS.as_integer (JS.Number field) = Some z ->
  0 <= z <= 3 ->
  exists point,
    parseTimingPoint line parser = Ok (push_timingPoint point parser) /\
    ITimingPoint.SampleBank point = timing_bank_word z.
Proof.
  exact (parseTimingPoint_known line field z parser).
Qed.

Lemma timing_point_known_bank_emitted_witness :
  exists point,
    parseTimingPoint "0,500,4,0" constructor
    = Ok (push_timingPoint point constructor) /\
    ITimingPoint.SampleBank point = "normal".
Proof.
  apply (timing_point_known_bank_emitted "0,500,4,0" "0" 0 constructor).
  - reflexivity.
  - reflexivity.
  - lia.
Defined.

(** Every point a timing-point record emits shows one of the bank names
    "normal", "soft" and "drum": "none" never reaches the document. *)
Theorem timing_point_bank_name (line : string) (parser parser' : OsuParser) :
  (2 <= length (JS.split_trim "," line))%nat ->
  parseTimingPoint line parser = Ok parser' ->
  exists point,
    parser' = push_timingPoint point parser /\
    In (ITimingPoint.SampleBank point) timing_bank_names.
Proof.
  intros Hlen Hparse.
  destruct (parseTimingPoint_resolved line parser parser' Hlen Hparse)
    as [s Hbank].
  destruct (parseTimingPoint_Ok line parser s Hlen Hbank)
    as (point & Hparse' & Hname & _).
  exists point. split; [congruence|]. rewrite Hname.
  destruct (bank_toLowerCase_names _ _ Hbank) as [-> | [-> | [-> | -> ]]];
    simpl; auto.
Qed.

Lemma timing_point_bank_name_witness :
  exists point,
    parseTimingPoint "0,500,4,3" constructor
    = Ok (push_timingPoint point constructor) /\
    In (ITimingPoint.SampleBank point) timing_bank_names.
Proof.
  destruct (parseTimingPoint "0,500,4,3" constructor) as [parser'|e|]
    eqn:Hparse;
    [| vm_compute in Hparse; discriminate
     | vm_compute in Hparse; discriminate ].
  destruct (timing_point_bank_name "0,500,4,3" constructor parser')
    as (point & Hpush & Hin).
  - simpl. lia.
  - exact Hparse.
  - exists point. split; [now rewrite <- Hpush | exact Hin].
Defined.

(** The speed multiplier of an emitted point is a number and is not
    negative.  For a beat length below zero it is what the division
    [100.0 / -beatLength] gives, which is above zero unless the beat
    length is minus infinity; for a beat length that is not below zero
    or is no number it is 1. *)
Theorem timing_point_speed_multiplier (line : string)
    (parser parser' : OsuParser) :
  let fields := JS.split_trim "," line in
  let beatLength := JS.Number_of (option_map JS.trim (nth_error fields 1)) in
  (2 <= length fields)%nat ->
  parseTimingPoint line parser = Ok parser' ->
  exists point,
    parser' = push_timingPoint point parser /\
    JS.isNaN (ITimingPoint.SpeedMultiplier point) = false /\
    JS.ltb (ITimingPoint.SpeedMultiplier point) (JS.of_Z 0) = false /\
    (JS.ltb beatLength (JS.of_Z 0) = true ->
     ITimingPoint.SpeedMultiplier point
     = JS.div (JS.of_Z 100) (JS.neg beatLength) /\
     (beatLength <> JS.NInf ->
      JS.ltb (JS.of_Z 0) (ITimingPoint.SpeedMultiplier point) = true)) /\
    (JS.ltb beatLength (JS.of_Z 0) = false ->
     ITimingPoint.SpeedMultiplier point = JS.of_Z 1).
Proof.
  intros fields beatLength Hlen Hparse.
  destruct (parseTimingPoint_resolved line parser parser' Hlen Hparse)
    as [s Hbank].
  destruct (parseTimingPoint_Ok line parser s Hlen Hbank)
    as (point & Hparse' & _ & Hspeed & _).
  fold fields in Hspeed. cbv zeta in Hspeed. fold beatLength in Hspeed.
  exists point. split; [congruence|]. rewrite Hspeed.
  destruct beatLength as [| | |q] eqn:Hbeat.
  - repeat split; try discriminate.
  - repeat split; try discriminate.
  - cbn [JS.ltb JS.of_Z JS.neg JS.div].
    split; [reflexivity|]. split; [reflexivity|].
    split; [|discriminate]. intros _. split; [reflexivity|]. congruence.
  - destruct (JS.ltb (JS.Fin q) (JS.of_Z 0)) eqn:Hlt.
    + assert (q < 0)%Q as Hneg.
      { unfold JS.ltb, JS.of_Z in Hlt. apply negb_true_iff in Hlt.
        apply Qnot_le_lt. intros Hle. apply Qle_bool_iff in Hle.
        change (inject_Z 0) with 0%Q in Hlt. congruence. }
      assert (~ Qred (- q) == 0)%Q as Hnz.
      { rewrite Qred_correct. lra. }
      assert (JS.div (JS.of_Z 100) (JS.neg (JS.Fin q))
              = JS.Fin (Qred (inject_Z 100 / Qred (- q)))) as Hdiv.
      { unfold JS.div, JS.neg, JS.of_Z, JS.fin.
        destruct (Qeq_bool (Qred (- q)) 0) eqn:Hz; [|reflexivity].
        apply Qeq_bool_iff in Hz. contradiction. }
      assert (0 < Qred (inject_Z 100 / Qred (- q)))%Q as Hpos.
      { rewrite !Qred_correct. unfold Qdiv.
        apply Qmult_lt_0_compat; [reflexivity|].
        apply Qinv_lt_0_compat. lra. }
      rewrite Hdiv. split; [reflexivity|]. split; [|split].
      * unfold JS.ltb, JS.of_Z. apply negb_false_iff. apply Qle_bool_iff.
        change (inject_Z 0) with 0%Q. now apply Qlt_le_weak.
      * intros _. split; [reflexivity|]. intros _.
        unfold JS.ltb, JS.of_Z. apply negb_true_iff.
        apply not_true_iff_false. rewrite Qle_bool_iff.
        change (inject_Z 0) with 0%Q. lra.
      * discriminate.
    + split; [reflexivity|]. split; [reflexivity|].
      split; [discriminate | reflexivity].
Qed.

Lemma timing_point_speed_multiplier_witness :
  exists point,
    parseTimingPoint "1000,-200" constructor
    = Ok (push_timingPoint point constructor) /\
    ITimingPoint.SpeedMultiplier point = JS.Fin (1 # 2).
Proof.
  destruct (parseTimingPoint "1000,-200" constructor) as [parser'|e|]
    eqn:Hparse;
    [| vm_compute in Hparse; discriminate
     | vm_compute in Hparse; discriminate ].
  destruct (timing_point_speed_multiplier "1000,-200" constructor parser')
    as (point & Hpush & _ & _ & Hbelow & _).
  - simpl. lia.
  - exact Hparse.
  - exists point. split; [now rewrite Hpush|].
    destruct (Hbelow eq_refl) as [Hspeed _]. exact Hspeed.
Defined.

Section SampleSetFacts.

Lemma name_of_number_of (z : Z) (name : string) :
  LegacySampleBank.name_of z = Some name ->
  LegacySampleBank.number_of name = Some z.
Proof.
  destruct z as [|[[|[]|]|[]|]|]; simpl; intros [= <-]; reflexivity.
Qed.

Lemma number_of_member (name : string) (z : Z) :
  LegacySampleBank.number_of name = Some z ->
  0 <= z <= 3 /\ LegacySampleBank.name_of z = Some name.
Proof.
  unfold LegacySampleBank.number_of, LegacySampleBank.members.
  cbn [find fst snd].
  destruct (String.eqb_spec "None" name) as [<-|_];
    [intros [= <-]; split; [cbv; split; discriminate | reflexivity]|].
  destruct (String.eqb_spec "Normal" name) as [<-|_];
    [intros [= <-]; split; [cbv; split; discriminate | reflexivity]|].
  destruct (String.eqb_spec "Soft" name) as [<-|_];
    [intros [= <-]; split; [cbv; split; discriminate | reflexivity]|].
  destruct (String.eqb_spec "Drum" name) as [<-|_];
    [intros [= <-]; split; [cbv; split; discriminate | reflexivity]|].
  discriminate.
Qed.

(** What [LegacySampleBank[value]] finds for a string that is no member
    name does not resolve to a bank name in turn. *)
Lemma get_of_non_member (value : string) :
  LegacySampleBank.number_of value = None ->
  bank_toLowerCase (LegacySampleBank.get (JS.VString value))
  = Throw JS.TypeError.
Proof.
  intros Hnone. unfold LegacySampleBank.get at 1. rewrite Hnone.
  destruct (LegacySampleBank.reverse_key value) as [z|].
  - destruct (LegacySampleBank.name_of z) as [nm|] eqn:Hname; [|reflexivity].
    apply name_of_number_of in Hname.
    unfold bank_toLowerCase, LegacySampleBank.get. now rewrite Hname.
  - destruct (JS.inherited value); reflexivity.
Qed.

End SampleSetFacts.

(** A General line that sets SampleSet to one of the member names None,
    Normal, Soft, Drum stores the number of the member, and from then
    on a timing-point record with two or three fields is emitted with
    the bank of that member as its sample bank. *)
Theorem sampleSet_member_is_default_bank (line name : string) (z : Z)
    (parser : OsuParser) :
  JS.split_trim ":" line = ["SampleSet"; name] ->
  LegacySampleBank.number_of name = Some z ->
  exists parser',
    parseGeneral line parser = Ok parser' /\
    JS.obj_get "SampleSet" (general parser') = Some (JS.VNumber (JS.of_Z z)) /\
    forall record,
      (2 <= length (JS.split_trim "," record))%nat ->
      nth_error (JS.split_trim "," record) 3 = None ->
      exists point,
        parseTimingPoint record parser'
        = Ok (push_timingPoint point parser') /\
        ITimingPoint.SampleBank point = timing_bank_word z.
Proof.
  intros Hsplit Hmember. unfold parseGeneral. rewrite Hsplit.
  cbn [String.eqb Ascii.eqb Bool.eqb]. simpl (String.eqb _ _).
  eexists. split; [reflexivity|]. cbn [general].
  assert (LegacySampleBank.get (JS.VString name) = JS.VNumber (JS.of_Z z))
    as Hget.
  { unfold LegacySampleBank.get. now rewrite Hmember. }
  rewrite Hget. split; [now apply obj_get_set_same|].
  intros record Hlen Hnone.
  destruct (number_of_member name z Hmember) as [Hz Hname].
  assert (bank_toLowerCase
            (timing_sampleSet (JS.split_trim "," record)
               {| currentSection := currentSection parser;
                  general :=
                    JS.obj_set "SampleSet" (JS.VNumber (JS.of_Z z))
                      (general parser);
                  difficulty := difficulty parser;
                  timingPoints := timingPoints parser;
                  hitObjects := hitObjects parser |})
          = Ok (match z with
                | 0 => "none" | 1 => "normal" | 2 => "soft" | _ => "drum"
                end)) as Hbank.
  { unfold timing_sampleSet. rewrite Hnone. cbn [general].
    rewrite obj_get_set_same by discriminate.
    assert (z = 0 \/ z = 1 \/ z = 2 \/ z = 3) as [->|[->|[->| ->]]] by lia;
      reflexivity. }
  destruct (parseTimingPoint_Ok record _ _ Hlen Hbank)
    as (point & Hparse & Hbankname & _).
  exists point. split; [exact Hparse|]. rewrite Hbankname.
  assert (z = 0 \/ z = 1 \/ z = 2 \/ z = 3) as [->|[->|[->| ->]]] by lia;
    reflexivity.
Qed.

Lemma sampleSet_member_is_default_bank_witness :
  exists parser' point,
    parseGeneral "SampleSet: Soft" constructor = Ok parser' /\
    parseTimingPoint "100,-200,4" parser'
    = Ok (push_timingPoint point parser') /\
    ITimingPoint.SampleBank point = "soft".
Proof.
  destruct (sampleSet_member_is_default_bank "SampleSet: Soft" "Soft" 2
              constructor eq_refl eq_refl)
    as (parser' & Hparse & _ & Hrecords).
  destruct (Hrecords "100,-200,4") as (point & Hpoint & Hbank).
  - simpl. lia.
  - reflexivity.
  - exists parser', point. repeat split; assumption.
Defined.

(** A General line that sets SampleSet to anything but a member name (a
    bank index such as 2 included) is accepted, and from then on every
    timing-point record with two or three fields throws a
    [TypeError]. *)
Theorem sampleSet_other_value_breaks_timing_points (line value : string)
    (parser : OsuParser) :
  JS.split_trim ":" line = ["SampleSet"; value] ->
  LegacySampleBank.number_of value = None ->
  exists parser',
    parseGeneral line parser = Ok parser' /\
    forall record,
      (2 <= length (JS.split_trim "," record))%nat ->
      nth_error (JS.split_trim "," record) 3 = None ->
      parseTimingPoint record parser' = Throw JS.TypeError.
Proof.
  intros Hsplit Hnone. unfold parseGeneral. rewrite Hsplit.
  simpl (String.eqb _ _).
  eexists. split; [reflexivity|].
  intros record Hlen Hfield. apply parseTimingPoint_Throw; [exact Hlen|].
  unfold timing_sampleSet. rewrite Hfield. cbn [general].
  rewrite obj_get_set_same by discriminate.
  now apply get_of_non_member.
Qed.

Lemma sampleSet_other_value_breaks_timing_points_witness :
  exists parser',
    parseGeneral "SampleSet: 2" constructor = Ok parser' /\
    JS.obj_get "SampleSet" (general parser') = Some (JS.VString "Soft") /\
    parseTimingPoint "100,500" parser' = Throw JS.TypeError.
Proof.
  destruct (sampleSet_other_value_breaks_timing_points "SampleSet: 2" "2"
              constructor eq_refl eq_refl)
    as (parser' & Hparse & Hrecords).
  exists parser'. split; [exact Hparse|]. split.
  - vm_compute in Hparse. injection Hparse as <-. reflexivity.
  - apply Hrecords; [simpl; lia | reflexivity].
Defined.

(** The effect flags of an emitted point are the bits 0 and 3 of field
    7, and both are off for a record without that field. *)
Theorem timing_point_effect_flags (line : string)
    (parser parser' : OsuParser) :
  let fields := JS.split_trim "," line in
  (2 <= length fields)%nat ->
  parseTimingPoint line parser = Ok parser' ->
  exists point,
    parser' = push_timingPoint point parser /\
    (nth_error fields 7 = None ->
     ITimingPoint.KiaiMode point = false /\
     ITimingPoint.OmitFirstBarLine point = false) /\
    (forall field, nth_error fields 7 = Some field ->
       ITimingPoint.KiaiMode point
       = Z.testbit (JS.ToInt32 (JS.Number field)) 0 /\
       ITimingPoint.OmitFirstBarLine point
       = Z.testbit (JS.ToInt32 (JS.Number field)) 3).
Proof.
  intros fields Hlen Hparse.
  destruct (parseTimingPoint_resolved line parser parser' Hlen Hparse)
    as [s Hbank].
  destruct (parseTimingPoint_Ok line parser s Hlen Hbank)
    as (point & Hparse' & _ & _ & Hkiai & Homit & _).
  fold fields in Hkiai, Homit.
  exists point. split; [congruence|]. split.
  - intros Hnone. rewrite Hnone in Hkiai, Homit. auto.
  - intros field Hfield. rewrite Hfield in Hkiai, Homit.
    rewrite Hkiai, Homit.
    change 1 with (2 ^ 0). change 8 with (2 ^ 3).
    rewrite !truthy_land_pow2 by lia. auto.
Qed.

Lemma timing_point_effect_flags_witness :
  exists point,
    parseTimingPoint "0,500,4,1,0,100,1,9" constructor
    = Ok (push_timingPoint point constructor) /\
    ITimingPoint.KiaiMode point = true /\
    ITimingPoint.OmitFirstBarLine point = true.
Proof.
  destruct (parseTimingPoint "0,500,4,1,0,100,1,9" constructor)
    as [parser'|e|] eqn:Hparse;
    [| vm_compute in Hparse; discriminate
     | vm_compute in Hparse; discriminate ].
  destruct (timing_point_effect_flags "0,500,4,1,0,100,1,9" constructor
              parser')
    as (point & Hpush & _ & Hflags).
  - simpl. lia.
  - exact Hparse.
  - exists point. split; [now rewrite <- Hpush|].
    destruct (Hflags "9" eq_refl) as [-> ->]. split; reflexivity.
Defined.

(** A timing-point record with exactly two fields that is emitted has
    every default: it defines the tempo with its beat length and the
    signature 4, has the volume 100 and the custom sample bank 0, and
    no effect. *)
Theorem timing_point_two_fields (line : string) (parser parser' : OsuParser) :
  count_char "," line = 1%nat ->
  parseTimingPoint line parser = Ok parser' ->
  exists point,
    parser' = push_timingPoint point parser /\
    ITimingPoint.BeatLength point
    = Some (JS.Number_of
              (option_map JS.trim (nth_error (JS.split_trim "," line) 1))) /\
    ITimingPoint.TimeSignature point = Some (JS.of_Z 4) /\
    ITimingPoint.SampleVolume point = JS.of_Z 100 /\
    ITimingPoint.CustomSampleBank point = JS.of_Z 0 /\
    ITimingPoint.KiaiMode point = false /\
    ITimingPoint.OmitFirstBarLine point = false.
Proof.
  intros Hcount Hparse.
  pose proof (split_trim_length "," line) as Hlen. rewrite Hcount in Hlen.
  assert (forall k, (2 <= k)%nat ->
            nth_error (JS.split_trim "," line) k = None) as Hnone.
  { intros k Hk. apply nth_error_None. lia. }
  assert (2 <= length (JS.split_trim "," line))%nat as Hlen2 by lia.
  destruct (parseTimingPoint_resolved line parser parser' Hlen2 Hparse)
    as [s Hbank].
  destruct (parseTimingPoint_Ok line parser s Hlen2 Hbank)
    as (point & Hparse' & _ & _ & Hkiai & Homit & Hvol & Hcsb & _ & Hbeat
        & Hsig).
  unfold timingChange_flag in Hbeat, Hsig.
  rewrite !Hnone in * by lia.
  exists point. split; [congruence|]. repeat split; assumption.
Qed.

Lemma timing_point_two_fields_witness :
  exists point,
    parseTimingPoint "250,300" constructor
    = Ok (push_timingPoint point constructor) /\
    ITimingPoint.BeatLength point = Some (JS.of_Z 300) /\
    ITimingPoint.TimeSignature point = Some (JS.of_Z 4).
Proof.
  destruct (parseTimingPoint "250,300" constructor) as [parser'|e|]
    eqn:Hparse;
    [| vm_compute in Hparse; discriminate
     | vm_compute in Hparse; discriminate ].
  destruct (timing_point_two_fields "250,300" constructor parser')
    as (point & Hpush & Hbeat & Hsig & _).
  - reflexivity.
  - exact Hparse.
  - exists point. split; [now rewrite <- Hpush|]. split; assumption.
Defined.

(* ================================================================== *)
(** * Hit objects, further *)
(* ================================================================== *)

Section ShapeFacts.

Lemma comboOffset_shift (t : Z) :
  Z.shiftr (Z.land t ConvertHitObjectType.ComboOffset) 4 = (t / 16) mod 8.
Proof.
  rewrite Z.shiftr_land.
  change (Z.shiftr ConvertHitObjectType.ComboOffset 4) with (Z.ones 3).
  rewrite Z.land_ones by lia. rewrite Z.shiftr_div_pow2 by lia.
  reflexivity.
Qed.

(** The three values the decoder takes from the type: what is left of
    the type answers to the shape bits as the type did, the combo
    offset is the three bits above bit 3, the combo flag is bit 2. *)
Lemma shape_bits_values (split : list string) :
  exists type,
    shape_bits split = (type, comboOffset_bits split,
                        Z.testbit (type_mask split) 2) /\
    JS.truthy (Z.land type ConvertHitObjectType.Circle)
    = Z.testbit (type_mask split) 0 /\
    JS.truthy (Z.land type ConvertHitObjectType.Slider)
    = Z.testbit (type_mask split) 1.
Proof.
  pose proof (shape_bits_dispatch split) as Hd.
  unfold shape_bits in *. fold (type_mask split) in *.
  eexists. split; [|exact Hd].
  rewrite comboOffset_shift. unfold comboOffset_bits.
  change ConvertHitObjectType.NewCombo with (2 ^ 2).
  rewrite truthy_land_pow2 by lia. rewrite Z.land_spec.
  change (Z.testbit (Z.lnot ConvertHitObjectType.ComboOffset) 2) with true.
  now rewrite andb_true_r.
Qed.

(** The decoder, with the dispatch on the shape spelled out on the bits
    of the type: circle before slider, and nothing for the rest. *)
Lemma parseHitObjects_dispatch (line : string) (parser : OsuParser) :
  let split := JS.split_trim "," line in
  let combo := Z.testbit (type_mask split) 2 in
  let comboOffset := JS.of_Z (comboOffset_bits split) in
  let soundType := JS.Number_of (nth_error split 4) in
  parseHitObjects line parser
  = bind (if Z.testbit (type_mask split) 0
          then parseCircle split (pos_of split) combo comboOffset
          else if Z.testbit (type_mask split) 1
          then parseSlider split (pos_of split) combo comboOffset soundType
          else Ok (IHitObject.empty, ISampleBankInfo.empty))
         (finish split soundType parser).
Proof.
  cbv zeta. unfold parseHitObjects.
  destruct (shape_bits_values (JS.split_trim "," line))
    as (type & -> & -> & ->).
  destruct (Z.testbit (type_mask (JS.split_trim "," line)) 0); [reflexivity|].
  destruct (Z.testbit (type_mask (JS.split_trim "," line)) 1); [reflexivity|].
  destruct (JS.truthy (Z.land type ConvertHitObjectType.Spinner));
    [reflexivity|].
  destruct (JS.truthy (Z.land type ConvertHitObjectType.Hold)); reflexivity.
Qed.

(** The common end, for a shaped object: everything the branch left on
    the object stays, the start time is set, and the samples are
    expanded from the sound type if the branch left none. *)
Lemma finish_pushes (split : list string) (soundType : JS.num)
    (parser : OsuParser) (h0 : IHitObject.t) (bankInfo : ISampleBankInfo.t)
    (pos : IVector2D.t) :
  IHitObject.Pos h0 = Some pos ->
  exists h,
    finish split soundType parser (h0, bankInfo)
    = Ok (push_hitObject h parser) /\
    IHitObject.Pos h = Some pos /\
    IHitObject.Combo h = IHitObject.Combo h0 /\
    IHitObject.ComboOffset h = IHitObject.ComboOffset h0 /\
    IHitObject.Points h = IHitObject.Points h0 /\
    IHitObject.Length h = IHitObject.Length h0 /\
    IHitObject.PathType h = IHitObject.PathType h0 /\
    IHitObject.RepeatCount h = IHitObject.RepeatCount h0 /\
    IHitObject.NodeSamples h = IHitObject.NodeSamples h0 /\
    IHitObject.StartTime h
    = Some (JS.add (JS.Number_of (nth_error split 2)) (JS.of_Z 0)) /\
    IHitObject.Samples h
    = Some match IHitObject.Samples h0 with
           | Some samples => samples
           | None => convertSoundType soundType bankInfo
           end.
Proof.
  intros Hpos. unfold finish, IHitObject.no_keys. rewrite Hpos.
  eexists. split; [reflexivity|].
  cbn [IHitObject.Pos IHitObject.Combo IHitObject.ComboOffset
       IHitObject.Points IHitObject.Length IHitObject.PathType
       IHitObject.RepeatCount IHitObject.NodeSamples IHitObject.StartTime
       IHitObject.Samples].
  repeat split; try assumption.
  destruct (IHitObject.Samples h0); reflexivity.
Qed.

Lemma push_hitObject_inj (a b : IHitObject.t) (parser : OsuParser) :
  push_hitObject a parser = push_hitObject b parser -> a = b.
Proof.
  unfold push_hitObject. intros H.
  injection H as H. apply app_inv_head in H. congruence.
Qed.

Lemma push_hitObject_changes (h : IHitObject.t) (parser : OsuParser) :
  push_hitObject h parser <> parser.
Proof.
  intros H. apply (f_equal hitObjects) in H. simpl in H.
  apply (f_equal (@length _)) in H. rewrite length_app in H. simpl in H. lia.
Qed.

End ShapeFacts.

Section ShapelessFacts.

Lemma parseHitObjects_no_shape (line : string) (parser : OsuParser) :
  Z.testbit (type_mask (JS.split_trim "," line)) 0 = false ->
  Z.testbit (type_mask (JS.split_trim "," line)) 1 = false ->
  parseHitObjects line parser = Ok parser.
Proof.
  intros Hc Hs. rewrite parseHitObjects_dispatch. cbv zeta.
  now rewrite Hc, Hs.
Qed.

End ShapelessFacts.

(** A hit-object record whose type has neither the circle bit nor the
    slider bit (a spinner, a hold, a type that is no number, the empty
    line) is dropped: the decoder returns the parser as it was and
    never throws. *)
Theorem hit_object_without_shape_ignored (line : string)
    (parser : OsuParser) :
  Z.testbit (type_mask (JS.split_trim "," line)) 0 = false ->
  Z.testbit (type_mask (JS.split_trim "," line)) 1 = false ->
  parseHitObjects line parser = Ok parser.
Proof.
  exact (parseHitObjects_no_shape line parser).
Qed.

Lemma hit_object_without_shape_ignored_witness :
  parseHitObjects "256,192,500,12,0,3000" constructor = Ok constructor /\
  parseHitObjects EmptyString constructor = Ok constructor.
Proof.
  split; apply hit_object_without_shape_ignored; reflexivity.
Defined.

(** A slider record with fewer than six fields has no path to split:
    the decoder throws a [TypeError]. *)
Theorem slider_without_path_throws (line : string) (parser : OsuParser) :
  is_slider_record (JS.split_trim "," line) = true ->
  nth_error (JS.split_trim "," line) 5 = None ->
  parseHitObjects line parser = Throw JS.TypeError.
Proof.
  intros Hslider Hpath. unfold is_slider_record in Hslider.
  apply andb_prop in Hslider as [Hc Hs]. apply negb_true_iff in Hc.
  rewrite parseHitObjects_dispatch. cbv zeta. rewrite Hc, Hs.
  unfold parseSlider. now rewrite Hpath.
Qed.

Lemma slider_without_path_throws_witness :
  parseHitObjects "100,100,2000,2,0" constructor = Throw JS.TypeError.
Proof.
  apply slider_without_path_throws; reflexivity.
Defined.

Section CircleFacts.

Lemma parseHitObjects_circle (line : string) (parser : OsuParser) :
  let split := JS.split_trim "," line in
  Z.testbit (type_mask split) 0 = true ->
  (nth_error split 5 = None ->
   exists parser', parseHitObjects line parser = Ok parser') /\
  (forall parser',
      parseHitObjects line parser = Ok parser' ->
      exists h bankInfo,
        parser' = push_hitObject h parser /\
        match nth_error split 5 with
        | Some f => readCustomSampleBanks f ISampleBankInfo.empty
        | None => Ok ISampleBankInfo.empty
        end = Ok bankInfo /\
        IHitObject.Pos h = Some (pos_of split) /\
        IHitObject.Combo h = Some (Z.testbit (type_mask split) 2) /\
        IHitObject.ComboOffset h = Some (JS.of_Z (comboOffset_bits split)) /\
        IHitObject.StartTime h
        = Some (JS.add (JS.Number_of (nth_error split 2)) (JS.of_Z 0)) /\
        IHitObject.Samples h
        = Some (convertSoundType (JS.Number_of (nth_error split 4))
                  bankInfo) /\
        IHitObject.Points h = None /\
        IHitObject.Length h = None /\
        IHitObject.PathType h = None /\
        IHitObject.RepeatCount h = None /\
        IHitObject.NodeSamples h = None).
Proof.
  intros split Hcircle. rewrite parseHitObjects_dispatch. cbv zeta.
  fold split. rewrite Hcircle. unfold parseCircle. split.
  - intros ->. cbn [bind].
    match goal with
    | |- exists p, finish _ _ _ (?h0, ?b) = Ok p =>
        destruct (finish_pushes split (JS.Number_of (nth_error split 4))
                    parser h0 b (pos_of split) eq_refl) as (h & -> & _)
    end.
    eauto.
  - intros parser' H. apply bind_Ok in H as ([h0 b] & H & Hfinish).
    apply bind_Ok in H as (bankInfo & Hbank & H). injection H as <- <-.
    match type of Hfinish with
    | finish _ _ _ (?h0, _) = _ =>
        destruct (finish_pushes split (JS.Number_of (nth_error split 4))
                    parser h0 bankInfo (pos_of split) eq_refl)
          as (h & Hpush & Hfields)
    end.
    rewrite Hpush in Hfinish. injection Hfinish as <-.
    exists h, bankInfo. split; [reflexivity|]. split; [exact Hbank|].
    cbn [IHitObject.Pos IHitObject.Combo IHitObject.ComboOffset
         IHitObject.Points IHitObject.Length IHitObject.PathType
         IHitObject.RepeatCount IHitObject.NodeSamples IHitObject.StartTime
         IHitObject.Samples] in Hfields.
    intuition assumption.
Qed.

End CircleFacts.

(** On a record with the circle bit the slider bit is not looked at.
    The record is emitted unless its field 5 is a sample-bank token
    that does not resolve, always when it has no field 5, and the
    object has the position, the combo flag (bit 2), the combo offset
    (bits 4 to 6), the start time, the samples expanded from field 4
    with the banks of field 5, and none of the slider's properties. *)
Theorem circle_record (line : string) (parser : OsuParser) :
  let split := JS.split_trim "," line in
  Z.testbit (type_mask split) 0 = true ->
  (nth_error split 5 = None ->
   exists parser', parseHitObjects line parser = Ok parser') /\
  (forall parser',
      parseHitObjects line parser = Ok parser' ->
      exists h bankInfo,
        parser' = push_hitObject h parser /\
        match nth_error split 5 with
        | Some f => readCustomSampleBanks f ISampleBankInfo.empty
        | None => Ok ISampleBankInfo.empty
        end = Ok bankInfo /\
        IHitObject.Pos h = Some (pos_of split) /\
        IHitObject.Combo h = Some (Z.testbit (type_mask split) 2) /\
        IHitObject.ComboOffset h = Some (JS.of_Z (comboOffset_bits split)) /\
        IHitObject.StartTime h
        = Some (JS.add (JS.Number_of (nth_error split 2)) (JS.of_Z 0)) /\
        IHitObject.Samples h
        = Some (convertSoundType (JS.Number_of (nth_error split 4))
                  bankInfo) /\
        IHitObject.Points h = None /\
        IHitObject.Length h = None /\
        IHitObject.PathType h = None /\
        IHitObject.RepeatCount h = None /\
        IHitObject.NodeSamples h = None).
Proof.
  exact (parseHitObjects_circle line parser).
Qed.

Lemma circle_record_witness :
  exists h,
    parseHitObjects "64,128,1000,3,2" constructor
    = Ok (push_hitObject h constructor) /\
    IHitObject.PathType h = None /\
    IHitObject.Samples h
    = Some [ sample None "hitnormal" ISampleBankInfo.empty;
             sample None "hitwhistle" ISampleBankInfo.empty ].
Proof.
  destruct (circle_record "64,128,1000,3,2" constructor eq_refl)
    as [Hemit Hfields].
  destruct (Hemit eq_refl) as [parser' Hparse].
  destruct (Hfields parser' Hparse)
    as (h & bankInfo & -> & Hbank & _ & _ & _ & _ & Hsamples & _ & _ & Hpath
        & _).
  exists h. split; [exact Hparse|]. split; [exact Hpath|].
  rewrite Hsamples. injection Hbank as <-. reflexivity.
Defined.

Section SliderFacts.

(** What the slider branch leaves on the object besides the repeat
    count and the samples. *)
Lemma parseSlider_path (split : list string) (pos : IVector2D.t)
    (combo : bool) (comboOffset soundType : JS.num)
    (h : IHitObject.t) (bankInfo : ISampleBankInfo.t) :
  parseSlider split pos combo comboOffset soundType = Ok (h, bankInfo) ->
  exists path,
    nth_error split 5 = Some path /\
    let tokens := JS.split_trim "|" path in
    let points := map point_of (tl tokens) in
    IHitObject.Combo h = Some combo /\
    IHitObject.ComboOffset h = Some comboOffset /\
    IHitObject.Points h = Some points /\
    IHitObject.PathType h
    = Some match points, pathType_of Catmull (hd EmptyString tokens) with
           | [p0; p1; p2], PerfectCurve =>
               if isLinear p0 p1 p2 then Linear else PerfectCurve
           | _, pathType => pathType
           end /\
    IHitObject.Length h
    = Some match nth_error split 7 with
           | Some f => JS.Number f
           | None => JS.of_Z 0
           end.
Proof.
  unfold parseSlider. cbv zeta.
  destruct (nth_error split 5) as [path|]; [|discriminate].
  destruct (JS.gtb (JS.Number_of (nth_error split 6)) (JS.of_Z 9000));
    [discriminate|].
  intros H. apply bind_Ok in H as (info & _ & H).
  destruct (for_indices node_fuel 0 _) as [indices|]; [|discriminate].
  apply bind_Ok in H as (infos & _ & H).
  apply bind_Ok in H as (ns & _ & H).
  injection H as <- <-.
  exists path. split; [reflexivity|]. cbv zeta.
  cbn [IHitObject.Combo IHitObject.ComboOffset IHitObject.Points
       IHitObject.PathType IHitObject.Length].
  repeat split.
  destruct (map point_of (tl (JS.split_trim "|" path)))
    as [|p0 [|p1 [|p2 [|p3 r]]]]; try reflexivity;
    destruct (pathType_of Catmull (hd EmptyString (JS.split_trim "|" path)));
    reflexivity.
Qed.

Lemma pathType_of_letter (letter : string) :
  pathType_of Catmull letter = letter_pathType letter.
Proof.
  unfold pathType_of, letter_pathType.
  destruct (String.eqb_spec letter "C") as [->|_]; reflexivity.
Qed.

(** An emitted slider, with what its branch and the common end made of
    it. *)
Lemma slider_emitted (line : string) (parser parser' : OsuParser) :
  let split := JS.split_trim "," line in
  is_slider_record split = true ->
  parseHitObjects line parser = Ok parser' ->
  exists h0 h bankInfo,
    parseSlider split (pos_of split) (Z.testbit (type_mask split) 2)
      (JS.of_Z (comboOffset_bits split)) (JS.Number_of (nth_error split 4))
    = Ok (h0, bankInfo) /\
    parser' = push_hitObject h parser /\
    IHitObject.Pos h = Some (pos_of split) /\
    IHitObject.Combo h = IHitObject.Combo h0 /\
    IHitObject.ComboOffset h = IHitObject.ComboOffset h0 /\
    IHitObject.Points h = IHitObject.Points h0 /\
    IHitObject.Length h = IHitObject.Length h0 /\
    IHitObject.PathType h = IHitObject.PathType h0 /\
    IHitObject.RepeatCount h = IHitObject.RepeatCount h0 /\
    IHitObject.NodeSamples h = IHitObject.NodeSamples h0 /\
    IHitObject.StartTime h
    = Some (JS.add (JS.Number_of (nth_error split 2)) (JS.of_Z 0)) /\
    IHitObject.Samples h
    = Some match IHitObject.Samples h0 with
           | Some samples => samples
           | None =>
               convertSoundType (JS.Number_of (nth_error split 4)) bankInfo
           end.
Proof.
  intros split Hslider. unfold is_slider_record in Hslider.
  apply andb_prop in Hslider as [Hc Hs]. apply negb_true_iff in Hc.
  rewrite parseHitObjects_dispatch. cbv zeta. fold split. rewrite Hc, Hs.
  intros H. apply bind_Ok in H as ([h0 bankInfo] & Hslide & Hfinish).
  pose proof Hslide as Hslide'.
  apply parseSlider_Ok in Hslide'
    as (_ & _ & _ & _ & _ & _ & _ & _ & Hpos & _).
  destruct (finish_pushes split (JS.Number_of (nth_error split 4)) parser
              h0 bankInfo _ Hpos) as (h & Hpush & Hfields).
  rewrite Hpush in Hfinish. injection Hfinish as <-.
  exists h0, h, bankInfo. split; [exact Hslide|]. split; [reflexivity|].
  exact Hfields.
Qed.

End SliderFacts.

(** An emitted slider has its control points in the order of the path
    field, one for each pipe of the field.  A path letter other than P
    decides the path type: B, L, and Catmull for C and for any other
    letter; the letter P gives a perfect curve whenever the points are
    not exactly three. *)
Theorem slider_path (line path : string) (parser parser' : OsuParser) :
  let split := JS.split_trim "," line in
  let tokens := JS.split_trim "|" path in
  let letter := hd EmptyString tokens in
  is_slider_record split = true ->
  nth_error split 5 = Some path ->
  parseHitObjects line parser = Ok parser' ->
  exists h,
    parser' = push_hitObject h parser /\
    IHitObject.Points h = Some (map point_of (tl tokens)) /\
    length (map point_of (tl tokens)) = count_char "|" path /\
    (letter <> "P" -> IHitObject.PathType h = Some (letter_pathType letter)) /\
    (letter = "P" -> count_char "|" path <> 3%nat ->
     IHitObject.PathType h = Some PerfectCurve).
Proof.
  intros split tokens letter Hslider Hpath Hparse.
  destruct (slider_emitted line parser parser' Hslider Hparse)
    as (h0 & h & bankInfo & Hslide & -> & _ & _ & _ & Hpoints & _ & Htype
        & _).
  fold split in Hslide.
  apply parseSlider_path in Hslide as (path' & Hpath' & Hfields).
  assert (path' = path) as -> by congruence.
  cbv zeta in Hfields. fold tokens in Hfields. fold letter in Hfields.
  destruct Hfields as (_ & _ & Hpoints0 & Htype0 & _).
  assert (length (map point_of (tl tokens)) = count_char "|" path) as Hlen.
  { rewrite length_map. unfold tokens.
    pose proof (split_trim_length "|" path) as Hl.
    destruct (JS.split_trim "|" path); simpl in *; lia. }
  exists h. split; [reflexivity|]. split; [congruence|].
  split; [exact Hlen|].
  rewrite Htype, Htype0, pathType_of_letter. split.
  - intros Hletter. unfold letter_pathType.
    apply String.eqb_neq in Hletter. rewrite Hletter.
    destruct (map point_of (tl tokens)) as [|p0 [|p1 [|p2 [|p3 r]]]];
      try reflexivity.
    destruct (String.eqb letter "B"); [reflexivity|].
    destruct (String.eqb letter "L"); reflexivity.
  - intros -> Hcount. rewrite <- Hlen in Hcount.
    destruct (map point_of (tl tokens)) as [|p0 [|p1 [|p2 [|p3 r]]]];
      try reflexivity.
    simpl in Hcount. congruence.
Qed.

Lemma slider_path_witness :
  exists h,
    parseHitObjects "0,0,0,2,0,B|10:20|30:40,1" constructor
    = Ok (push_hitObject h constructor) /\
    IHitObject.PathType h = Some Bezier /\
    IHitObject.Points h
    = Some [ IVector2D.mk (JS.of_Z 10) (JS.of_Z 20);
             IVector2D.mk (JS.of_Z 30) (JS.of_Z 40) ].
Proof.
  destruct (parseHitObjects "0,0,0,2,0,B|10:20|30:40,1" constructor)
    as [parser'|e|] eqn:Hparse;
    [| vm_compute in Hparse; discriminate
     | vm_compute in Hparse; discriminate ].
  destruct (slider_path "0,0,0,2,0,B|10:20|30:40,1" "B|10:20|30:40"
              constructor parser' eq_refl eq_refl Hparse)
    as (h & -> & Hpoints & _ & Hletter & _).
  exists h. split; [reflexivity|]. split.
  - apply Hletter. discriminate.
  - exact Hpoints.
Defined.

(* ================================================================== *)
(** * Sliders, further *)
(* ================================================================== *)

Section NodeFacts.

Lemma convertSoundType_nonempty (type : JS.num)
    (bankInfo : ISampleBankInfo.t) :
  convertSoundType type bankInfo <> [].
Proof.
  unfold convertSoundType, push_if.
  destruct (ISampleBankInfo.Filename bankInfo) as [[|c f]|];
    try discriminate;
    destruct (JS.truthy (Z.land (JS.ToInt32 type) LegacySoundType.Finish));
    destruct (JS.truthy (Z.land (JS.ToInt32 type) LegacySoundType.Whistle));
    destruct (JS.truthy (Z.land (JS.ToInt32 type) LegacySoundType.Clap));
    discriminate.
Qed.

(** The loop over the per-node sound types on the indices [k, k + m):
    an index with a token gets the number of the token, or 0; the
    others keep theirs. *)
Lemma read_node_sounds_spec (m k : nat) (adds : list string)
    (types : list JS.num) :
  length (read_node_sounds (seq k m) adds types) = length types /\
  forall i,
    ((k <= i < k + m)%nat ->
     (i < length types)%nat ->
     forall token, nth_error adds i = Some token ->
       nth_error (read_node_sounds (seq k m) adds types) i
       = Some match JS.Number token with
              | JS.NaN => JS.of_Z 0
              | n => n
              end) /\
    ((i < k \/ k + m <= i \/ nth_error adds i = None)%nat ->
     nth_error (read_node_sounds (seq k m) adds types) i
     = nth_error types i).
Proof.
  revert k types. induction m as [|m IH]; intros k types;
    cbn [seq read_node_sounds].
  - split; [reflexivity|]. intros i. split; [lia | reflexivity].
  - destruct (nth_error adds k) as [token|] eqn:Htok.
    + destruct (IH (S k)
                  (store k (if JS.isNaN (JS.Number token) then JS.of_Z 0
                            else JS.Number token) types))
        as [Hlen Hrest].
      rewrite store_length in Hlen. split; [exact Hlen|].
      intros i. destruct (Hrest i) as [Hsome Hnone]. split.
      * intros Hrange Hi tok Hitok.
        destruct (Nat.eq_dec i k) as [->|Hne].
        -- rewrite Hnone by lia. rewrite store_same by exact Hi.
           assert (tok = token) as -> by congruence.
           destruct (JS.Number token); reflexivity.
        -- apply Hsome; [lia | now rewrite store_length | exact Hitok].
      * intros Hout. rewrite Hnone.
        -- apply store_other. intros ->.
           destruct Hout as [?|[?|?]]; [lia | lia | congruence].
        -- destruct Hout as [?|[?|?]];
             [left; lia | right; left; lia | right; right; assumption].
    + split; [reflexivity|]. intros i. split; [|reflexivity].
      intros Hrange _ tok Hitok. exfalso.
      assert (length adds <= k)%nat by now apply nth_error_None.
      assert (i < length adds)%nat by (apply nth_error_Some; congruence).
      lia.
Qed.

Lemma slider_nodeSoundTypes_spec (split : list string) (n : nat)
    (soundType : JS.num) :
  length (slider_nodeSoundTypes split (seq 0 n) soundType) = n /\
  forall i, (i < n)%nat ->
    nth_error (slider_nodeSoundTypes split (seq 0 n) soundType) i
    = Some (node_sound split soundType i).
Proof.
  unfold slider_nodeSoundTypes, node_sound.
  assert (length (map (fun _ : nat => soundType) (seq 0 n)) = n) as Hlen
    by now rewrite length_map, length_seq.
  assert (forall i, (i < n)%nat ->
            nth_error (map (fun _ : nat => soundType) (seq 0 n)) i
            = Some soundType) as Hcopies.
  { intros i Hi. apply nth_error_copies. now rewrite length_seq. }
  destruct (nth_error split 8) as [[|c f]|]; try (split; assumption).
  destruct (read_node_sounds_spec n 0 (JS.split_trim "|" (String c f))
              (map (fun _ : nat => soundType) (seq 0 n))) as [Hl Hspec].
  split; [congruence|]. intros i Hi. destruct (Hspec i) as [Hsome Hnone].
  destruct (nth_error (JS.split_trim "|" (String c f)) i) as [token|] eqn:E.
  - apply Hsome; [lia | lia | reflexivity].
  - rewrite Hnone by auto. now apply Hcopies.
Qed.

(** The per-node loop over the banks returns when every token it
    reaches resolves on the default. *)
Lemma read_node_banks_reached (m k : nat) (sets : list string)
    (bankInfo : ISampleBankInfo.t) (infos : list ISampleBankInfo.t) :
  (forall i, (k <= i < k + m)%nat -> nth_error infos i = Some bankInfo) ->
  (forall i token, (k <= i < k + m)%nat ->
     nth_error sets i = Some token ->
     exists info, readCustomSampleBanks token bankInfo = Ok info) ->
  exists result, read_node_banks (seq k m) sets infos = Ok result.
Proof.
  intros Hinfos Hsets. revert k infos Hinfos Hsets.
  induction m as [|m IH]; intros k infos Hinfos Hsets;
    cbn [seq read_node_banks].
  - now exists infos.
  - destruct (nth_error sets k) as [token|] eqn:Htok; [|now exists infos].
    rewrite (Hinfos k) by lia.
    destruct (Hsets k token ltac:(lia) Htok) as [info ->]. cbn [bind].
    apply IH.
    + intros i Hi. rewrite store_other by lia. apply Hinfos. lia.
    + intros i tok Hi. apply Hsets. lia.
Qed.

Lemma node_samples_Ok (m k : nat) (types : list JS.num)
    (infos : list ISampleBankInfo.t) :
  (k + m <= length types)%nat ->
  (k + m <= length infos)%nat ->
  exists ns, node_samples (seq k m) types infos = Ok ns.
Proof.
  revert k. induction m as [|m IH]; intros k Ht Hi; cbn [seq node_samples].
  - now eexists.
  - destruct (nth_error types k) as [t|] eqn:Et;
      [|apply nth_error_None in Et; lia].
    destruct (nth_error infos k) as [b|] eqn:Eb;
      [|apply nth_error_None in Eb; lia].
    destruct (IH (S k)) as [ns ->]; [lia | lia |]. now eexists.
Qed.

(** The indices of the loops of a slider branch that returned are the
    first numbers, as many as it has node samples. *)
Lemma parseSlider_nodes (split : list string) (pos : IVector2D.t)
    (combo : bool) (comboOffset soundType : JS.num)
    (h : IHitObject.t) (bankInfo : ISampleBankInfo.t) :
  parseSlider split pos combo comboOffset soundType = Ok (h, bankInfo) ->
  exists infos nodeSamples,
    default_bankInfo split = Ok bankInfo /\
    slider_nodeBankInfos split (seq 0 (length nodeSamples)) bankInfo
    = Ok infos /\
    node_samples (seq 0 (length nodeSamples))
      (slider_nodeSoundTypes split (seq 0 (length nodeSamples)) soundType)
      infos = Ok nodeSamples /\
    IHitObject.NodeSamples h = Some nodeSamples /\
    IHitObject.Samples h = nth_error nodeSamples (length nodeSamples - 1).
Proof.
  intros H. apply parseSlider_Ok in H
    as (indices & infos & ns & Hgt & Hdefault & Hidx & Hinfos & Hns & _ & _
        & Hnodes & Hsamples).
  assert (exists n, indices = seq 0 n) as [n ->].
  { destruct (slider_nodes _ Hgt) as [(_ & _ & Hseq)|(r & _ & _ & _ & Hseq)];
      rewrite Hseq in Hidx; injection Hidx as <-;
      [now exists O | eauto]. }
  pose proof Hns as Hlen. apply node_samples_spec in Hlen as [Hlen _].
  subst n. exists infos, ns.
  split; [exact Hdefault|]. split; [exact Hinfos|]. split; [exact Hns|].
  split; [exact Hnodes | exact Hsamples].
Qed.

(** A slider record with a path and a repeat field that is not above
    9000 pushes an object when the sample-bank tokens it reaches
    resolve: the default of field 10, and the token of field 9 of every
    node. *)
Lemma parseHitObjects_slider_reached (line path : string)
    (default : ISampleBankInfo.t) (parser : OsuParser) :
  let split := JS.split_trim "," line in
  is_slider_record split = true ->
  nth_error split 5 = Some path ->
  JS.gtb (JS.Number_of (nth_error split 6)) (JS.of_Z 9000) = false ->
  default_bankInfo split = Ok default ->
  (forall i token,
      per_node_token split i = Some token ->
      JS.ltb (JS.of_nat i) (slider_nodes_of split) = true ->
      exists info, readCustomSampleBanks token default = Ok info) ->
  exists h, parseHitObjects line parser = Ok (push_hitObject h parser).
Proof.
  intros split Hslider Hpath Hgt Hdefault Htokens.
  unfold is_slider_record in Hslider.
  apply andb_prop in Hslider as [Hc Hs]. apply negb_true_iff in Hc.
  rewrite parseHitObjects_dispatch. cbv zeta. fold split. rewrite Hc, Hs.
  unfold parseSlider. rewrite Hpath. cbv zeta. rewrite Hgt.
  unfold default_bankInfo in Hdefault. rewrite Hdefault. cbn [bind].
  fold (slider_nodes_of split).
  assert (exists n,
            for_indices node_fuel 0 (slider_nodes_of split) = Some (seq 0 n)
            /\ forall i, (i < n)%nat ->
                 JS.ltb (JS.of_nat i) (slider_nodes_of split) = true)
    as (n & -> & Htest).
  { destruct (for_indices node_fuel 0 (slider_nodes_of split))
      as [indices|] eqn:Hidx.
    - destruct (for_indices_loop _ _ _ _ Hidx) as [Hseq Hloop].
      exists (length indices). split; [now rewrite <- Hseq|].
      intros i Hi. apply Hloop; lia.
    - exfalso. unfold slider_nodes_of in Hidx.
      destruct (slider_nodes _ Hgt)
        as [(_ & _ & Hseq)|(r & _ & _ & _ & Hseq)]; congruence. }
  assert (exists infos,
            slider_nodeBankInfos split (seq 0 n) default = Ok infos)
    as [infos Hinfos].
  { unfold slider_nodeBankInfos. unfold per_node_token in Htokens.
    destruct (nth_error split 9) as [[|c f]|]; try (now eexists).
    apply read_node_banks_reached with default.
    - intros i Hi. apply nth_error_copies. rewrite length_seq. lia.
    - intros i token Hi Htok. apply (Htokens i token Htok).
      apply Htest. lia. }
  rewrite Hinfos. cbn [bind].
  pose proof Hinfos as Hlen.
  apply slider_nodeBankInfos_spec in Hlen as [Hlen _].
  destruct (slider_nodeSoundTypes_spec split n
              (JS.Number_of (nth_error split 4))) as [Hlen' _].
  destruct (node_samples_Ok n 0
              (slider_nodeSoundTypes split (seq 0 n)
                 (JS.Number_of (nth_error split 4))) infos)
    as [ns ->]; [lia | lia |].
  cbn [bind].
  match goal with
  | |- exists h, finish _ _ _ (?h0, _) = _ =>
      destruct (finish_pushes split (JS.Number_of (nth_error split 4))
                  parser h0 default (pos_of split) eq_refl)
        as (h & Hfin & _)
  end.
  exists h. exact Hfin.
Qed.

End NodeFacts.

(** The node samples of an emitted slider, node by node: node [i] is
    expanded from the sound type its token of field 8 reads as (0 when
    that is no number, the sound type of field 4 without a token) and
    from the bank info its token of field 9 gives when read onto the
    default (the default itself without a token). *)
Theorem slider_node_samples (line : string) (parser parser' : OsuParser) :
  let split := JS.split_trim "," line in
  let soundType := JS.Number_of (nth_error split 4) in
  is_slider_record split = true ->
  parseHitObjects line parser = Ok parser' ->
  exists h nodeSamples default,
    parser' = push_hitObject h parser /\
    IHitObject.NodeSamples h = Some nodeSamples /\
    default_bankInfo split = Ok default /\
    forall i samples,
      nth_error nodeSamples i = Some samples ->
      exists info,
        samples = convertSoundType (node_sound split soundType i) info /\
        match per_node_token split i with
        | Some token => readCustomSampleBanks token default = Ok info
        | None => info = default
        end.
Proof.
  intros split soundType Hslider Hparse.
  destruct (slider_emitted line parser parser' Hslider Hparse)
    as (h0 & h & default & Hslide & -> & _ & _ & _ & _ & _ & _ & _ & Hnodes
        & _).
  fold split in Hslide. fold soundType in Hslide.
  apply parseSlider_nodes in Hslide
    as (infos & ns & Hdefault & Hinfos & Hns & Hnodes0 & _).
  apply slider_nodeBankInfos_spec in Hinfos as [Hlen Hspec].
  apply node_samples_spec in Hns as [_ Hnth].
  destruct (slider_nodeSoundTypes_spec split (length ns) soundType)
    as [_ Hsounds].
  exists h, ns, default. split; [reflexivity|]. split; [congruence|].
  split; [exact Hdefault|]. intros i samples Hi.
  assert (i < length ns)%nat as Hrange
    by (apply nth_error_Some; congruence).
  destruct (Hnth i Hrange) as (sound & info & Hsound & Hinfo & Hsample).
  simpl in Hsound, Hinfo. rewrite (Hsounds i Hrange) in Hsound.
  injection Hsound as <-.
  exists info. split; [congruence|].
  specialize (Hspec i Hrange).
  destruct (per_node_token split i) as [token|].
  - destruct Hspec as (info' & Hread & Hinfo'). congruence.
  - congruence.
Qed.

Lemma slider_node_samples_witness :
  exists h,
    parseHitObjects "0,0,0,2,4,L|1:1,1,10,2|x,0:0|2:1" constructor
    = Ok (push_hitObject h constructor) /\
    IHitObject.NodeSamples h
    = Some [ [ sample None "hitnormal" ISampleBankInfo.empty;
               sample None "hitwhistle" ISampleBankInfo.empty ];
             [ sample (Some "soft") "hitnormal" ISampleBankInfo.empty ] ].
Proof.
  destruct (parseHitObjects "0,0,0,2,4,L|1:1,1,10,2|x,0:0|2:1" constructor)
    as [parser'|e|] eqn:Hparse;
    [| vm_compute in Hparse; discriminate
     | vm_compute in Hparse; discriminate ].
  destruct (slider_node_samples "0,0,0,2,4,L|1:1,1,10,2|x,0:0|2:1"
              constructor parser' eq_refl Hparse)
    as (h & ns & default & -> & Hnodes & _).
  exists h. split; [reflexivity|].
  vm_compute in Hparse. injection Hparse as <-. reflexivity.
Defined.

(** A slider record with a path field whose repeat field is missing or
    is no number is emitted as soon as its default bank resolves: its
    repeat count is not-a-number, it has no node samples (the tokens of
    the fields 8 and 9 are never read), and its samples are expanded
    from the sound type and the default bank of the record. *)
Theorem slider_without_repeat_count (line path : string)
    (default : ISampleBankInfo.t) (parser : OsuParser) :
  let split := JS.split_trim "," line in
  is_slider_record split = true ->
  nth_error split 5 = Some path ->
  JS.isNaN (JS.Number_of (nth_error split 6)) = true ->
  default_bankInfo split = Ok default ->
  exists h,
    parseHitObjects line parser = Ok (push_hitObject h parser) /\
    IHitObject.RepeatCount h = Some JS.NaN /\
    IHitObject.NodeSamples h = Some [] /\
    IHitObject.Samples h
    = Some (convertSoundType (JS.Number_of (nth_error split 4)) default).
Proof.
  intros split Hslider Hpath Hnan Hdefault.
  unfold is_slider_record in Hslider.
  apply andb_prop in Hslider as [Hc Hs]. apply negb_true_iff in Hc.
  rewrite parseHitObjects_dispatch. cbv zeta. fold split. rewrite Hc, Hs.
  unfold parseSlider. rewrite Hpath. cbv zeta.
  destruct (JS.Number_of (nth_error split 6)); try discriminate.
  change (JS.gtb JS.NaN (JS.of_Z 9000)) with false. cbv iota.
  unfold default_bankInfo in Hdefault. rewrite Hdefault. cbn [bind].
  change (JS.add (JS.max (JS.of_Z 0) (JS.sub JS.NaN (JS.of_Z 1))) (JS.of_Z 2))
    with JS.NaN.
  rewrite (for_indices_NaN node_fuel node_fuel_pos).
  assert (slider_nodeBankInfos split [] default = Ok []) as ->.
  { unfold slider_nodeBankInfos.
    destruct (nth_error split 9) as [[|c f]|]; reflexivity. }
  cbn [bind node_samples List.length Nat.sub nth_error].
  match goal with
  | |- exists h, finish _ _ _ (?h0, _) = _ /\ _ =>
      destruct (finish_pushes split (JS.Number_of (nth_error split 4))
                  parser h0 default (pos_of split) eq_refl)
        as (h & Hfin & _ & _ & _ & _ & _ & _ & Hcount & Hnodes & _
            & Hsamples)
  end.
  exists h. split; [exact Hfin|]. split; [exact Hcount|].
  split; [exact Hnodes | exact Hsamples].
Qed.

Lemma slider_without_repeat_count_witness :
  exists h,
    parseHitObjects "0,0,0,2,8,L|1:1" constructor
    = Ok (push_hitObject h constructor) /\
    IHitObject.NodeSamples h = Some [] /\
    IHitObject.Samples h
    = Some [ sample None "hitnormal" ISampleBankInfo.empty;
             sample None "hitclap" ISampleBankInfo.empty ].
Proof.
  destruct (slider_without_repeat_count "0,0,0,2,8,L|1:1" "L|1:1"
              ISampleBankInfo.empty constructor eq_refl eq_refl eq_refl
              eq_refl)
    as (h & Hparse & _ & Hnodes & Hsamples).
  exists h. split; [exact Hparse|]. split; [exact Hnodes | exact Hsamples].
Defined.

(** A slider record with a path field and a repeat field that is not
    above 9000 is emitted whenever its sample-bank tokens resolve: the
    default of field 10, and every token of field 9 read onto that
    default.  A record with at most nine fields has no such token. *)
Theorem slider_emitted_when_banks_resolve (line path : string)
    (default : ISampleBankInfo.t) (parser : OsuParser) :
  let split := JS.split_trim "," line in
  is_slider_record split = true ->
  nth_error split 5 = Some path ->
  JS.gtb (JS.Number_of (nth_error split 6)) (JS.of_Z 9000) = false ->
  default_bankInfo split = Ok default ->
  (forall i token,
      per_node_token split i = Some token ->
      exists info, readCustomSampleBanks token default = Ok info) ->
  exists h, parseHitObjects line parser = Ok (push_hitObject h parser).
Proof.
  intros split Hslider Hpath Hgt Hdefault Htokens.
  apply (parseHitObjects_slider_reached line path default parser
           Hslider Hpath Hgt Hdefault).
  intros i token Htoken _. exact (Htokens i token Htoken).
Qed.

Lemma slider_emitted_when_banks_resolve_witness :
  exists h,
    parseHitObjects "10,20,300,6,0,B|30:40|50:60,2,140" constructor
    = Ok (push_hitObject h constructor).
Proof.
  apply (slider_emitted_when_banks_resolve
           "10,20,300,6,0,B|30:40|50:60,2,140" "B|30:40|50:60"
           ISampleBankInfo.empty constructor).
  - reflexivity.
  - reflexivity.
  - reflexivity.
  - reflexivity.
  - intros i token Htoken. discriminate.
Defined.




Section CommonFacts.

Lemma parseHitObjects_pushed (line : string) (parser parser' : OsuParser) :
  let split := JS.split_trim "," line in
  parseHitObjects line parser = Ok parser' ->
  parser' = parser \/
  exists h samples,
    parser' = push_hitObject h parser /\
    IHitObject.Pos h = Some (pos_of split) /\
    IHitObject.StartTime h
    = Some (JS.add (JS.Number_of (nth_error split 2)) (JS.of_Z 0)) /\
    IHitObject.Combo h = Some (Z.testbit (type_mask split) 2) /\
    IHitObject.ComboOffset h = Some (JS.of_Z (comboOffset_bits split)) /\
    0 <= comboOffset_bits split <= 7 /\
    IHitObject.Samples h = Some samples /\
    samples <> [].
Proof.
  intros split Hparse.
  assert (0 <= comboOffset_bits split <= 7) as Hrange.
  { unfold comboOffset_bits.
    pose proof (Z.mod_pos_bound (type_mask split / 16) 8). lia. }
  destruct (Z.testbit (type_mask split) 0) eqn:Hc.
  - right. destruct (parseHitObjects_circle line parser Hc) as [_ Hfields].
    destruct (Hfields parser' Hparse)
      as (h & bankInfo & -> & _ & Hpos & Hcombo & Hoff & Hstart & Hsamples
          & _).
    exists h, (convertSoundType (JS.Number_of (nth_error split 4)) bankInfo).
    split; [reflexivity|]. split; [exact Hpos|]. split; [exact Hstart|].
    split; [exact Hcombo|]. split; [exact Hoff|]. split; [exact Hrange|].
    split; [exact Hsamples|]. apply convertSoundType_nonempty.
  - destruct (Z.testbit (type_mask split) 1) eqn:Hs.
    + right.
      assert (is_slider_record split = true) as Hslider
        by (unfold is_slider_record; now rewrite Hc, Hs).
      destruct (slider_emitted line parser parser' Hslider Hparse)
        as (h0 & h & bankInfo & Hslide & -> & Hpos & Hcombo & Hoff & _ & _
            & _ & _ & _ & Hstart & Hsamples).
      fold split in Hslide. pose proof Hslide as Hpath.
      apply parseSlider_path in Hpath as (path & _ & Hfields).
      cbv zeta in Hfields. destruct Hfields as (Hcombo0 & Hoff0 & _).
      apply parseSlider_nodes in Hslide
        as (infos & ns & _ & _ & Hns & _ & Hlast).
      eexists h, _. split; [reflexivity|]. split; [exact Hpos|].
      split; [exact Hstart|]. split; [congruence|]. split; [congruence|].
      split; [exact Hrange|]. split; [exact Hsamples|].
      rewrite Hlast.
      destruct (nth_error ns (length ns - 1)) as [samples|] eqn:Hnth;
        [|apply convertSoundType_nonempty].
      apply node_samples_spec in Hns as [_ Hspec].
      assert (length ns - 1 < length ns)%nat as Hlt
        by (apply nth_error_Some; congruence).
      destruct (Hspec _ Hlt) as (t & b & _ & _ & Hsample).
      assert (samples = convertSoundType t b) as -> by congruence.
      apply convertSoundType_nonempty.
    + left. rewrite parseHitObjects_no_shape in Hparse
        by assumption.
      congruence.
Qed.

End CommonFacts.

(** A hit-object record that returns leaves the parser as it was or
    pushes one object.  The object has the position of the fields 0 and
    1, the start time of field 2, the combo flag of bit 2 of the type, a
    combo offset from 0 to 7 taken from the bits 4 to 6, and at least
    one sample. *)
Theorem hit_object_common (line : string) (parser parser' : OsuParser) :
  let split := JS.split_trim "," line in
  parseHitObjects line parser = Ok parser' ->
  parser' = parser \/
  exists h samples,
    parser' = push_hitObject h parser /\
    IHitObject.Pos h = Some (pos_of split) /\
    IHitObject.StartTime h
    = Some (JS.add (JS.Number_of (nth_error split 2)) (JS.of_Z 0)) /\
    IHitObject.Combo h = Some (Z.testbit (type_mask split) 2) /\
    IHitObject.ComboOffset h = Some (JS.of_Z (comboOffset_bits split)) /\
    0 <= comboOffset_bits split <= 7 /\
    IHitObject.Samples h = Some samples /\
    samples <> [].
Proof.
  exact (parseHitObjects_pushed line parser parser').
Qed.

Lemma hit_object_common_witness :
  exists h,
    parseHitObjects "64,128,1000,85,2" constructor
    = Ok (push_hitObject h constructor) /\
    IHitObject.Combo h = Some true /\
    IHitObject.ComboOffset h = Some (JS.of_Z 5).
Proof.
  destruct (parseHitObjects "64,128,1000,85,2" constructor)
    as [parser'|e|] eqn:Hparse;
    [| vm_compute in Hparse; discriminate
     | vm_compute in Hparse; discriminate ].
  destruct (hit_object_common "64,128,1000,85,2" constructor parser' Hparse)
    as [Hsame | (h & samples & -> & _ & _ & Hcombo & Hoff & _)].
  - exfalso. rewrite Hsame in Hparse. vm_compute in Hparse. discriminate.
  - exists h. split; [reflexivity|]. split; [exact Hcombo | exact Hoff].
Defined.

(* ================================================================== *)
(** * Sound types and sample-bank tokens, further *)
(* ================================================================== *)

Section TokenFacts.

(** The expansion of a sound type, bit by bit *)
Lemma convertSoundType_bits (type : JS.num) (bankInfo : ISampleBankInfo.t) :
  convertSoundType type bankInfo
  = match ISampleBankInfo.Filename bankInfo with
    | Some (String c f) => [sample_file (String c f)]
    | _ =>
        sample (ISampleBankInfo.Normal bankInfo) "hitnormal" bankInfo
        :: when_bit (JS.ToInt32 type) 2
             (sample (ISampleBankInfo.Add bankInfo) "hitfinish" bankInfo)
        ++ when_bit (JS.ToInt32 type) 1
             (sample (ISampleBankInfo.Add bankInfo) "hitwhistle" bankInfo)
        ++ when_bit (JS.ToInt32 type) 3
             (sample (ISampleBankInfo.Add bankInfo) "hitclap" bankInfo)
    end.
Proof.
  unfold convertSoundType.
  change LegacySoundType.Clap with (2 ^ 3).
  change LegacySoundType.Whistle with (2 ^ 1).
  change LegacySoundType.Finish with (2 ^ 2).
  rewrite !push_if_bit by lia.
  destruct (ISampleBankInfo.Filename bankInfo) as [[|c f]|];
    try reflexivity; simpl; now rewrite <- app_assoc.
Qed.

Lemma bank_word_lookup (n : JS.num) (z : Z) :
  JS.as_integer n = Some z ->
  0 <= z <= 3 ->
  exists s,
    bank_toLowerCase (JS.VNumber n) = Ok s /\
    (if String.eqb s "none" then None else Some s) = bank_word z.
Proof.
  intros Hint Hz. unfold bank_toLowerCase, LegacySampleBank.get.
  rewrite Hint.
  assert (z = 0 \/ z = 1 \/ z = 2 \/ z = 3) as [->|[->|[->| ->]]] by lia;
    eexists; split; reflexivity.
Qed.

(** A sample-bank token with bank indices from 0 to 3 is decoded. *)
Lemma readCustomSampleBanks_known (line : string) (bank addbank : Z)
    (bankInfo : ISampleBankInfo.t) :
  let fields := JS.split_trim ":" line in
  JS.as_integer (JS.Number_of (nth_error fields 0)) = Some bank ->
  JS.as_integer (JS.Number_of (nth_error fields 1)) = Some addbank ->
  0 <= bank <= 3 ->
  0 <= addbank <= 3 ->
  exists info,
    readCustomSampleBanks line bankInfo = Ok info /\
    ISampleBankInfo.Normal info = bank_word bank /\
    ISampleBankInfo.Add info = bank_word addbank /\
    ISampleBankInfo.Filename info = nth_error fields 4.
Proof.
  intros fields Hbank Hadd Hb Ha.
  destruct (bank_word_lookup _ _ Hbank Hb) as (s & Hs & Hsw).
  destruct (bank_word_lookup _ _ Hadd Ha) as (a & Has & Haw).
  unfold readCustomSampleBanks. cbv zeta. fold fields.
  rewrite Hs, Has. cbn [bind]. eexists. split; [reflexivity|].
  cbn [ISampleBankInfo.Normal ISampleBankInfo.Add ISampleBankInfo.Filename].
  split; [exact Hsw|]. split.
  - rewrite Haw.
    assert (addbank = 0 \/ addbank = 1 \/ addbank = 2 \/ addbank = 3)
      as [->|[->|[->| ->]]] by lia; reflexivity.
  - exact (longer_than_nth 4 fields).
Qed.

End TokenFacts.

(** The expansion of a sound type looks at the bits 1, 2 and 3 of the
    mask only: two masks that agree on them expand alike, whatever
    their bit 0 and their higher bits.  An expansion has from one to
    four descriptors. *)
Theorem sound_type_other_bits_ignored (type type' : JS.num)
    (bankInfo : ISampleBankInfo.t) :
  (forall k, 1 <= k <= 3 ->
     Z.testbit (JS.ToInt32 type) k = Z.testbit (JS.ToInt32 type') k) ->
  convertSoundType type bankInfo = convertSoundType type' bankInfo /\
  (1 <= length (convertSoundType type bankInfo) <= 4)%nat.
Proof.
  intros Hbits. rewrite !convertSoundType_bits. unfold when_bit.
  rewrite (Hbits 1), (Hbits 2), (Hbits 3) by lia.
  split; [reflexivity|].
  destruct (ISampleBankInfo.Filename bankInfo) as [[|c f]|];
    destruct (Z.testbit (JS.ToInt32 type') 1);
    destruct (Z.testbit (JS.ToInt32 type') 2);
    destruct (Z.testbit (JS.ToInt32 type') 3); simpl; lia.
Qed.

Lemma sound_type_other_bits_ignored_witness :
  convertSoundType (JS.of_Z 2) ISampleBankInfo.empty
  = convertSoundType (JS.of_Z 19) ISampleBankInfo.empty.
Proof.
  apply (sound_type_other_bits_ignored (JS.of_Z 2) (JS.of_Z 19)).
  intros k Hk.
  assert (k = 1 \/ k = 2 \/ k = 3) as [->|[->| ->]] by lia; reflexivity.
Defined.

(** A sample-bank token whose two first fields are bank indices from 0
    to 3 is always decoded: the normal bank and the add bank are the
    banks of the two indices (absent for 0), and the file name is field
    4 of the token. *)
Theorem sample_bank_token_resolves (line : string) (bank addbank : Z)
    (bankInfo : ISampleBankInfo.t) :
  let fields := JS.split_trim ":" line in
  JS.as_integer (JS.Number_of (nth_error fields 0)) = Some bank ->
  JS.as_integer (JS.Number_of (nth_error fields 1)) = Some addbank ->
  0 <= bank <= 3 ->
  0 <= addbank <= 3 ->
  exists info,
    readCustomSampleBanks line bankInfo = Ok info /\
    ISampleBankInfo.Normal info = bank_word bank /\
    ISampleBankInfo.Add info = bank_word addbank /\
    ISampleBankInfo.Filename info = nth_error fields 4.
Proof.
  exact (readCustomSampleBanks_known line bank addbank bankInfo).
Qed.

Lemma sample_bank_token_resolves_witness :
  exists info,
    readCustomSampleBanks "2:3:1:80:gong.wav" ISampleBankInfo.empty = Ok info /\
    ISampleBankInfo.Normal info = Some "soft" /\
    ISampleBankInfo.Add info = Some "drum" /\
    ISampleBankInfo.Filename info = Some "gong.wav".
Proof.
  apply (sample_bank_token_resolves "2:3:1:80:gong.wav" 2 3
           ISampleBankInfo.empty).
  - reflexivity.
  - reflexivity.
  - lia.
  - lia.
Defined.

(** A sample-bank token with at least four fields decides the bank info
    on its own: read onto any two bank infos it gives the same
    result. *)
Theorem sample_bank_token_with_volume_overrides (line field : string)
    (bankInfo bankInfo' : ISampleBankInfo.t) :
  nth_error (JS.split_trim ":" line) 3 = Some field ->
  readCustomSampleBanks line bankInfo = readCustomSampleBanks line bankInfo'.
Proof.
  intros Hfield.
  assert (3 < length (JS.split_trim ":" line))%nat as Hlen
    by (apply nth_error_Some; congruence).
  unfold readCustomSampleBanks, longer_than. cbv zeta.
  destruct (Nat.ltb_spec 2 (length (JS.split_trim ":" line))); [|lia].
  destruct (Nat.ltb_spec 3 (length (JS.split_trim ":" line))); [|lia].
  reflexivity.
Qed.

Lemma sample_bank_token_with_volume_overrides_witness :
  readCustomSampleBanks "1:2:3:40"
    (ISampleBankInfo.mk (Some "a.wav") (Some "drum") None (Some (JS.of_Z 5))
       (Some (JS.of_Z 9)))
  = readCustomSampleBanks "1:2:3:40" ISampleBankInfo.empty.
Proof.
  apply (sample_bank_token_with_volume_overrides "1:2:3:40" "40").
  reflexivity.
Defined.

(** Reading a sample-bank token a second time changes nothing: the
    bank info a token gives is what the token gives when read onto
    it. *)
Theorem sample_bank_token_idempotent (line : string)
    (bankInfo info : ISampleBankInfo.t) :
  readCustomSampleBanks line bankInfo = Ok info ->
  readCustomSampleBanks line info = Ok info.
Proof.
  unfold readCustomSampleBanks. cbv zeta. intros H.
  apply bind_Ok in H as (s & Hs & H). apply bind_Ok in H as (a & Ha & H).
  rewrite Hs, Ha. cbn [bind]. injection H as <-.
  cbn [ISampleBankInfo.CustomSampleBank ISampleBankInfo.Volume].
  destruct (longer_than 2 (JS.split_trim ":" line));
    destruct (longer_than 3 (JS.split_trim ":" line)); reflexivity.
Qed.

Lemma sample_bank_token_idempotent_witness :
  readCustomSampleBanks "1:2"
    (ISampleBankInfo.mk None (Some "normal") (Some "soft")
       (Some (JS.of_Z 70)) None)
  = Ok (ISampleBankInfo.mk None (Some "normal") (Some "soft")
          (Some (JS.of_Z 70)) None).
Proof.
  apply (sample_bank_token_idempotent "1:2"
           (ISampleBankInfo.mk (Some "x") None None (Some (JS.of_Z 70)) None)).
  reflexivity.
Defined.

(* ================================================================== *)
(** * Unknown bank indices *)
(* ================================================================== *)

Section UnknownBanks.







End UnknownBanks.




(* ================================================================== *)
(** * The router and the document *)
(* ================================================================== *)

Section FrameFacts.

Lemma parseTimingPoint_pushed (line : string) (parser parser' : OsuParser) :
  parseTimingPoint line parser = Ok parser' ->
  parser' = parser \/ exists point, parser' = push_timingPoint point parser.
Proof.
  intros Hparse.
  destruct (Nat.ltb_spec (length (JS.split_trim "," line)) 2) as [Hlt|Hge].
  - left. unfold parseTimingPoint in Hparse. cbv zeta in Hparse.
    apply Nat.ltb_lt in Hlt. rewrite Hlt in Hparse. congruence.
  - right.
    destruct (parseTimingPoint_resolved line parser parser' Hge Hparse)
      as [s Hbank].
    destruct (parseTimingPoint_Ok line parser s Hge Hbank)
      as (point & Hparse' & _).
    exists point. congruence.
Qed.

Lemma parseGeneral_frame (line : string) (parser parser' : OsuParser) :
  parseGeneral line parser = Ok parser' ->
  currentSection parser' = currentSection parser /\
  difficulty parser' = difficulty parser /\
  timingPoints parser' = timingPoints parser /\
  hitObjects parser' = hitObjects parser.
Proof.
  unfold parseGeneral.
  destruct (JS.split_trim ":" line) as [|k [|v [|x r]]];
    intros [= <-]; repeat split.
Qed.

Lemma parseDifficulty_frame (line : string) (parser parser' : OsuParser) :
  parseDifficulty line parser = Ok parser' ->
  currentSection parser' = currentSection parser /\
  general parser' = general parser /\
  timingPoints parser' = timingPoints parser /\
  hitObjects parser' = hitObjects parser.
Proof.
  unfold parseDifficulty.
  destruct (JS.split_trim ":" line) as [|k [|v [|x r]]];
    intros [= <-]; repeat split.
Qed.

(** What one line adds to the two sequences of the document *)
Lemma parse_step (line : string) (parser parser' : OsuParser) :
  parse line parser = Ok parser' ->
  exists points objects,
    timingPoints parser' = timingPoints parser ++ points /\
    hitObjects parser' = hitObjects parser ++ objects /\
    (length points + length objects <= 1)%nat.
Proof.
  unfold parse, parseSection, parseLine, parsers.
  destruct (JS.startsWith "[" line).
  { destruct (section_of line); intros [= <-]; exists [], [];
      rewrite !app_nil_r; repeat split; simpl; lia. }
  destruct (String.eqb (currentSection parser) "General").
  { intros H. apply parseGeneral_frame in H as (_ & _ & -> & ->).
    exists [], []. rewrite !app_nil_r. repeat split. simpl. lia. }
  destruct (String.eqb (currentSection parser) "Difficulty").
  { intros H. apply parseDifficulty_frame in H as (_ & _ & -> & ->).
    exists [], []. rewrite !app_nil_r. repeat split. simpl. lia. }
  destruct (String.eqb (currentSection parser) "TimingPoints").
  { intros H. apply parseTimingPoint_pushed in H as [-> | [point ->]].
    - exists [], []. rewrite !app_nil_r. repeat split. simpl. lia.
    - exists [point], []. rewrite !app_nil_r. repeat split. simpl. lia. }
  destruct (String.eqb (currentSection parser) "HitObjects").
  { intros H. apply parseHitObjects_pushed in H
      as [-> | (h & samples & -> & _)].
    - exists [], []. rewrite !app_nil_r. repeat split. simpl. lia.
    - exists [], [h]. rewrite !app_nil_r. repeat split. simpl. lia. }
  destruct (JS.inherited (currentSection parser)).
  - destruct (JS.builtin_call_returns (currentSection parser));
      intros [= <-]; exists [], []; rewrite !app_nil_r; repeat split;
      simpl; lia.
  - intros [= <-]. exists [], []. rewrite !app_nil_r. repeat split.
    simpl. lia.
Qed.

End FrameFacts.

(** A header line with a word between its brackets sets the current
    section to that word, whatever follows the closing bracket, and
    leaves the document as it was. *)
Theorem header_sets_section (token post : string) (parser : OsuParser) :
  token <> EmptyString ->
  all_word token = true ->
  parse ("[" ++ token ++ "]" ++ post)%string parser
  = Ok (with_section token parser).
Proof.
  intros Hne Hword.
  assert (match_here ("[" ++ token ++ "]" ++ post)%string = Some token)
    as Hmatch.
  { apply match_here_spec. split; [exact Hne|]. split; [exact Hword|].
    now exists post. }
  unfold parse, parseSection.
  assert (JS.startsWith "[" ("[" ++ token ++ "]" ++ post)%string = true)
    as -> by (destruct token; [congruence | reflexivity]).
  assert (section_of ("[" ++ token ++ "]" ++ post)%string = Some token) as ->.
  { cbn [append] in *. cbn [section_of]. now rewrite Hmatch. }
  reflexivity.
Qed.

Lemma header_sets_section_witness :
  parse "[TimingPoints] // tempo" constructor
  = Ok (with_section "TimingPoints" constructor).
Proof.
  apply (header_sets_section "TimingPoints" " // tempo" constructor).
  - discriminate.
  - reflexivity.
Defined.

(** A line that starts with a bracket never throws and never changes
    the document that [toJSON] returns; at most the current section
    changes. *)
Theorem header_keeps_document (line : string) (parser : OsuParser) :
  JS.startsWith "[" line = true ->
  exists parser',
    parse line parser = Ok parser' /\ toJSON parser' = toJSON parser.
Proof.
  intros Hstart. unfold parse, parseSection. rewrite Hstart.
  destruct (section_of line); eexists; split; reflexivity.
Qed.

Lemma header_keeps_document_witness :
  exists parser',
    parse "[Hit Objects]" (with_section "General" constructor) = Ok parser' /\
    toJSON parser' = toJSON (with_section "General" constructor).
Proof.
  apply header_keeps_document. reflexivity.
Defined.

(** A line that does not start with a bracket never changes the current
    section. *)
Theorem content_line_keeps_section (line : string)
    (parser parser' : OsuParser) :
  JS.startsWith "[" line = false ->
  parse line parser = Ok parser' ->
  currentSection parser' = currentSection parser.
Proof.
  intros Hstart. unfold parse, parseLine, parsers. rewrite Hstart.
  destruct (String.eqb (currentSection parser) "General").
  { intros H. now apply parseGeneral_frame in H. }
  destruct (String.eqb (currentSection parser) "Difficulty").
  { intros H. now apply parseDifficulty_frame in H. }
  destruct (String.eqb (currentSection parser) "TimingPoints").
  { intros H. apply parseTimingPoint_pushed in H as [-> | [point ->]];
      reflexivity. }
  destruct (String.eqb (currentSection parser) "HitObjects").
  { intros H. apply parseHitObjects_pushed in H
      as [-> | (h & samples & -> & _)]; reflexivity. }
  destruct (JS.inherited (currentSection parser)).
  - destruct (JS.builtin_call_returns (currentSection parser));
      intros [= <-]; reflexivity.
  - intros [= <-]. reflexivity.
Qed.

Lemma content_line_keeps_section_witness :
  exists parser',
    parse "0,500" (with_section "TimingPoints" constructor) = Ok parser' /\
    currentSection parser' = "TimingPoints".
Proof.
  destruct (parse "0,500" (with_section "TimingPoints" constructor))
    as [parser'|e|] eqn:Hparse;
    [| vm_compute in Hparse; discriminate
     | vm_compute in Hparse; discriminate ].
  exists parser'. split; [reflexivity|].
  apply (content_line_keeps_section "0,500"
           (with_section "TimingPoints" constructor) parser' eq_refl Hparse).
Defined.

(** Each decoder writes to its own part of the document: the General
    decoder to the metadata, the Difficulty decoder to the difficulty,
    the timing-point decoder to the timing points, the hit-object
    decoder to the hit objects; the three other parts stay as they
    were. *)
Theorem decoders_keep_other_parts (line : string)
    (parser parser' : OsuParser) :
  (parseGeneral line parser = Ok parser' ->
   difficulty parser' = difficulty parser /\
   timingPoints parser' = timingPoints parser /\
   hitObjects parser' = hitObjects parser) /\
  (parseDifficulty line parser = Ok parser' ->
   general parser' = general parser /\
   timingPoints parser' = timingPoints parser /\
   hitObjects parser' = hitObjects parser) /\
  (parseTimingPoint line parser = Ok parser' ->
   general parser' = general parser /\
   difficulty parser' = difficulty parser /\
   hitObjects parser' = hitObjects parser) /\
  (parseHitObjects line parser = Ok parser' ->
   general parser' = general parser /\
   difficulty parser' = difficulty parser /\
   timingPoints parser' = timingPoints parser).
Proof.
  split; [|split; [|split]].
  - intros H. now apply parseGeneral_frame in H.
  - intros H. now apply parseDifficulty_frame in H.
  - intros H. apply parseTimingPoint_pushed in H as [-> | [point ->]];
      repeat split.
  - intros H. apply parseHitObjects_pushed in H
      as [-> | (h & samples & -> & _)]; repeat split.
Qed.

Lemma decoders_keep_other_parts_witness :
  exists parser',
    parseHitObjects "64,128,1000,1,0" constructor = Ok parser' /\
    timingPoints parser' = [] /\
    general parser' = general constructor.
Proof.
  destruct (parseHitObjects "64,128,1000,1,0" constructor)
    as [parser'|e|] eqn:Hparse;
    [| vm_compute in Hparse; discriminate
     | vm_compute in Hparse; discriminate ].
  destruct (proj2 (proj2 (proj2
              (decoders_keep_other_parts "64,128,1000,1,0" constructor
                 parser'))) Hparse) as (Hg & _ & Ht).
  exists parser'. split; [reflexivity|]. split; [exact Ht | exact Hg].
Defined.

(** A run that returns keeps the timing points and the hit objects it
    started with, in their order and at the head of the sequences, and
    adds at most one record for each line. *)
Theorem run_keeps_earlier_records (lines : list string)
    (parser parser' : OsuParser) :
  run lines parser = Ok parser' ->
  exists points objects,
    timingPoints parser' = timingPoints parser ++ points /\
    hitObjects parser' = hitObjects parser ++ objects /\
    (length points + length objects <= length lines)%nat.
Proof.
  revert parser. induction lines as [|line rest IH]; intros parser;
    cbn [run].
  - intros [= <-]. exists [], []. rewrite !app_nil_r. repeat split.
    simpl. lia.
  - intros H. apply bind_Ok in H as (mid & Hstep & Hrest).
    apply parse_step in Hstep as (p1 & o1 & Hp1 & Ho1 & Hl1).
    apply IH in Hrest as (p2 & o2 & Hp2 & Ho2 & Hl2).
    exists (p1 ++ p2), (o1 ++ o2).
    rewrite Hp2, Hp1, Ho2, Ho1, <- !app_assoc, !length_app.
    repeat split. simpl. lia.
Qed.

Lemma run_keeps_earlier_records_witness :
  exists parser',
    run ["[TimingPoints]"; "0,500"; "stray"; "[HitObjects]"; "1,2,3,1,0"]
      constructor = Ok parser' /\
    (length (timingPoints parser') + length (hitObjects parser') <= 5)%nat.
Proof.
  destruct (run ["[TimingPoints]"; "0,500"; "stray"; "[HitObjects]";
                 "1,2,3,1,0"] constructor)
    as [parser'|e|] eqn:Hrun;
    [| vm_compute in Hrun; discriminate
     | vm_compute in Hrun; discriminate ].
  destruct (run_keeps_earlier_records _ constructor parser' Hrun)
    as (points & objects & Hpoints & Hobjects & Hlen).
  exists parser'. split; [reflexivity|].
  rewrite Hpoints, Hobjects. simpl in *. lia.
Defined.
